(** * calendar-ics-parser: the parsing pipeline, embedded and verified

    The development follows the sources of the repository:

    - [src/utils/icsUtils.ts]: [unfoldLines], [parsePropertyLine],
      [parseParameters], [unescapeValue], [parsePersonProperty],
      [splitCommaSeparated], [formatIcsDate], [parseIcsDate],
      [formatEventSummary], [validatePropertyFormat];
    - [src/types/IcsCalendar.ts], [src/types/IcsEvent.ts] and
      [src/types/ParsedIcsData.ts]: the Zod schemas;
    - the module of [parseIcsData] (the one that is implemented, not the
      stub that throws): [parseIntoBlocks], [parseCalendarBlock],
      [parseEventBlock], [parseTodoBlock], [parseJournalBlock],
      [parseFreebusyBlock], [parseTimezoneBlock], [parseIcsData].

    Conventions of the embedding.

    - A JavaScript string is a [string] of the Standard Library, read as a
      sequence of code units below 256.  [trim] strips the white space and
      line terminators of ECMAScript among them.  [toUpperCase] maps the
      ASCII letters and leaves the other code units: it is the case
      mapping of the program on ASCII text, and not beyond (the program
      also maps the letters of Latin-1, some of them to code units from
      256 on or to two code units).  A property that turns on the case
      mapping is stated for ASCII text.
    - A JavaScript object used as a dictionary ([Record<string, string>]) is
      a [gmap string string].
    - An optional field is an [option]; a field holding [undefined] and an
      absent field are both [None].
    - An integer [parseInt] returns is kept as an integer of [Z].  This is
      the number of the program as long as a double holds the integer
      exactly, so for every text of at most 15 code units; the program
      rounds longer runs of digits and gives [Infinity] from about 309
      digits on.  A property that compares such a number is stated for a
      text of at most 15 code units.
    - A thrown exception is the [Throw] case of [Completion].
    - [console.log], [console.warn] and [console.error] append to a trace,
      carried by the writer monad [IO].
    - The objects that [parseIntoBlocks] allocates and mutates through two
      arrays at once live in an explicit store, addressed by references.
    - What comes from the libraries (Zod's checks of an email address and
      of a URL, the text of a [ZodError], [JSON.stringify]) is a field of
      [Externals], over which the parser is parameterised. *)

From stdpp Require Import gmap strings list fin_maps.
From Stdlib Require Import ZArith Ascii Lia.
From Stdlib Require DecimalString.

Set Warnings "-register-all".

(** ** The runtime's strings *)

Module Js.

Definition LF : ascii := "010"%char.
Definition CR : ascii := "013"%char.
Definition TAB : ascii := "009"%char.
Definition SP : ascii := " "%char.
Definition BACKSLASH : ascii := "\"%char.
Definition DQUOTE : ascii := "034"%char.

(** [s.length]. *)
Fixpoint length (s : string) : nat :=
  match s with
  | EmptyString => 0
  | String _ r => S (length r)
  end.

(** ECMAScript's WhiteSpace and LineTerminator code units below 256:
    TAB, LF, VT, FF, CR, SP and NBSP. *)
Definition isWhiteSpace (c : ascii) : bool :=
  let n := nat_of_ascii c in
  (n =? 9)%nat || (n =? 10)%nat || (n =? 11)%nat || (n =? 12)%nat
  || (n =? 13)%nat || (n =? 32)%nat || (n =? 160)%nat.

Definition isEmpty (s : string) : bool :=
  match s with EmptyString => true | String _ _ => false end.

Fixpoint trimStart (s : string) : string :=
  match s with
  | EmptyString => EmptyString
  | String c r => if isWhiteSpace c then trimStart r else s
  end.

Fixpoint trimEnd (s : string) : string :=
  match s with
  | EmptyString => EmptyString
  | String c r =>
      let r' := trimEnd r in
      if isWhiteSpace c && isEmpty r' then EmptyString else String c r'
  end.

(** [s.trim()]. *)
Definition trim (s : string) : string := trimEnd (trimStart s).

(** The upper case of a code unit: the ASCII letters are mapped, the other
    code units are left.  On ASCII this is what the program does. *)
Definition upperChar (c : ascii) : ascii :=
  let n := nat_of_ascii c in
  if (97 <=? n)%nat && (n <=? 122)%nat then ascii_of_nat (n - 32) else c.

(** [s.toUpperCase()], on ASCII text. *)
Fixpoint toUpperCase (s : string) : string :=
  match s with
  | EmptyString => EmptyString
  | String c r => String (upperChar c) (toUpperCase r)
  end.

(** [s.startsWith(p)]. *)
Fixpoint startsWith (s p : string) : bool :=
  match p, s with
  | EmptyString, _ => true
  | String _ _, EmptyString => false
  | String a p', String b s' => Ascii.eqb a b && startsWith s' p'
  end.

(** The last code unit, if any. *)
Fixpoint lastChar (s : string) : option ascii :=
  match s with
  | EmptyString => None
  | String c EmptyString => Some c
  | String _ r => lastChar r
  end.

(** [s.endsWith(c)] for a pattern of one code unit. *)
Definition endsWithChar (s : string) (c : ascii) : bool :=
  match lastChar s with
  | Some d => Ascii.eqb d c
  | None => false
  end.

(** [s.indexOf(c)] for a pattern of one code unit; [None] is [-1]. *)
Fixpoint indexOf (s : string) (c : ascii) : option nat :=
  match s with
  | EmptyString => None
  | String a r => if Ascii.eqb a c then Some 0 else S <$> indexOf r c
  end.

(** The first [n] code units. *)
Fixpoint take (n : nat) (s : string) : string :=
  match n, s with
  | S n', String c r => String c (take n' r)
  | _, _ => EmptyString
  end.

(** All but the first [n] code units. *)
Fixpoint drop (n : nat) (s : string) : string :=
  match n, s with
  | S n', String _ r => drop n' r
  | _, _ => s
  end.

(** [s.substring(a, b)]: out-of-range indices are clamped and the two
    are swapped when [a > b]. *)
Definition substring (s : string) (a b : nat) : string :=
  let a' := a `min` length s in
  let b' := b `min` length s in
  take (a' `max` b' - a' `min` b') (drop (a' `min` b') s).

(** [s.substring(a)]. *)
Definition substringFrom (s : string) (a : nat) : string := drop a s.

(** [s.slice(1, -1)]. *)
Definition slice_1_m1 (s : string) : string :=
  take (length s - 1 - 1) (drop 1 s).

(** [s.split(c)] for a separator of one code unit. *)
Fixpoint split (s : string) (c : ascii) : list string :=
  match s with
  | EmptyString => [EmptyString]
  | String a r =>
      if Ascii.eqb a c then EmptyString :: split r c
      else match split r c with
           | h :: t => String a h :: t
           | [] => [String a EmptyString]
           end
  end.

(** [l.join(sep)]. *)
Fixpoint join (l : list string) (sep : string) : string :=
  match l with
  | [] => EmptyString
  | [s] => s
  | s :: r => s +:+ sep +:+ join r sep
  end.

(** [s.repeat(n)]. *)
Fixpoint repeat (s : string) (n : nat) : string :=
  match n with
  | 0 => EmptyString
  | S n' => s +:+ repeat s n'
  end.

(** [s.replace(/ab/g, r)]: every occurrence of the two code units [a b],
    scanning from the left without overlap, becomes [r]. *)
Fixpoint replace2 (a b : ascii) (r : string) (s : string) : string :=
  match s with
  | EmptyString => EmptyString
  | String c t =>
      match t with
      | String d t' =>
          if Ascii.eqb c a && Ascii.eqb d b then r +:+ replace2 a b r t'
          else String c (replace2 a b r t)
      | EmptyString => String c EmptyString
      end
  end.

(** [`${n}`] for a non-negative integer. *)
Definition ofNat (n : nat) : string :=
  DecimalString.NilZero.string_of_uint (Nat.to_uint n).

(** The numbers [parseInt] returns.  An integer is kept exactly: the
    rounding of integers beyond 2^53 to a double is not modelled, nor is
    [Infinity]; below 10^15, so for a text of at most 15 code units, the
    integer is the number of the program. *)
Inductive number := NaN | Int (z : Z).

Definition digit (c : ascii) : option Z :=
  let n := nat_of_ascii c in
  if (48 <=? n)%nat && (n <=? 57)%nat then Some (Z.of_nat (n - 48)) else None.

Definition isDigit (c : ascii) : bool :=
  match digit c with Some _ => true | None => false end.

(** The longest prefix of decimal digits, read as a number, with [acc]
    the digits read so far. *)
Fixpoint digits (acc : option Z) (s : string) : option Z :=
  match s with
  | EmptyString => acc
  | String c r =>
      match digit c with
      | Some d => digits (Some (10 * default 0%Z acc + d)%Z) r
      | None => acc
      end
  end.

(** [parseInt(s, 10)]: leading white space is skipped, a sign is read,
    then the longest run of digits; [NaN] when there is no digit. *)
Definition parseInt (s : string) : number :=
  match trimStart s with
  | String "-"%char r =>
      match digits None r with Some z => Int (- z) | None => NaN end
  | String "+"%char r =>
      match digits None r with Some z => Int z | None => NaN end
  | r => match digits None r with Some z => Int z | None => NaN end
  end.

End Js.

(** ** Exceptions *)

(** The exceptions the program meets: its own [Error]s, the [TypeError] of
    [getLastOnStack], and the [ZodError] of a schema. *)
Inductive JsError :=
| Error (message : string)
| TypeError (message : string)
| ZodError (message : string).

(** [error instanceof Error ? error.message : String(error)]: the three
    are instances of [Error]. *)
Definition errorMessage (e : JsError) : string :=
  match e with
  | Error m | TypeError m | ZodError m => m
  end.

Inductive Completion (A : Type) :=
| Return (a : A)
| Throw (e : JsError).
Arguments Return {A} a.
Arguments Throw {A} e.

(** Sequencing: a [Throw] skips what follows. *)
Definition cbind_flip {A B} (k : A -> Completion B) (c : Completion A)
  : Completion B :=
  match c with
  | Return a => k a
  | Throw e => Throw e
  end.

#[export] Instance Completion_ret : MRet Completion := @Return.
#[export] Instance Completion_bind : MBind Completion := @cbind_flip.

(** ** [src/utils/icsUtils.ts] *)

Record Property := mkProperty {
  name : string;
  parameters : gmap string string;
  value : string
}.

(** [content.replace(/\r\n[ \t]/g, "")]. *)
Fixpoint removeCRLFFolds (s : string) : string :=
  match s with
  | EmptyString => EmptyString
  | String c1 t1 =>
      match t1 with
      | String c2 (String c3 t3) =>
          if Ascii.eqb c1 Js.CR && Ascii.eqb c2 Js.LF
             && (Ascii.eqb c3 Js.SP || Ascii.eqb c3 Js.TAB)
          then removeCRLFFolds t3
          else String c1 (removeCRLFFolds t1)
      | _ => String c1 (removeCRLFFolds t1)
      end
  end.

(** [content.replace(/\n[ \t]/g, "")]. *)
Fixpoint removeLFFolds (s : string) : string :=
  match s with
  | EmptyString => EmptyString
  | String c1 t1 =>
      match t1 with
      | String c2 t2 =>
          if Ascii.eqb c1 Js.LF && (Ascii.eqb c2 Js.SP || Ascii.eqb c2 Js.TAB)
          then removeLFFolds t2
          else String c1 (removeLFFolds t1)
      | EmptyString => String c1 EmptyString
      end
  end.

(** [content.replace(/\r?\n/g, "\n")]: a CR LF pair becomes LF, a lone LF
    stays and a lone CR stays. *)
Definition normalizeLineEndings (s : string) : string :=
  Js.replace2 Js.CR Js.LF (String Js.LF EmptyString) s.

Definition unfoldLines (content : string) : list string :=
  filter (fun line => 0 < Js.length (Js.trim line))
    (Js.split
       (normalizeLineEndings (removeLFFolds (removeCRLFFolds content)))
       Js.LF).

Definition unescapeValue (value : string) : string :=
  Js.replace2 Js.BACKSLASH "\"%char (String Js.BACKSLASH EmptyString)
    (Js.replace2 Js.BACKSLASH ","%char ","
       (Js.replace2 Js.BACKSLASH ";"%char ";"
          (Js.replace2 Js.BACKSLASH "t"%char (String Js.TAB EmptyString)
             (Js.replace2 Js.BACKSLASH "r"%char (String Js.CR EmptyString)
                (Js.replace2 Js.BACKSLASH "n"%char (String Js.LF EmptyString)
                   value))))).

(** The body of the loop of [parseParameters], for one [pair]. *)
Definition parseParameter (parameters : gmap string string) (pair : string)
  : gmap string string :=
  match Js.indexOf pair "="%char with
  | Some equalIndex =>
      let key := Js.toUpperCase (Js.substring pair 0 equalIndex) in
      let value := Js.substringFrom pair (equalIndex + 1) in
      let value :=
        if Js.startsWith value (String Js.DQUOTE EmptyString)
           && Js.endsWithChar value Js.DQUOTE
        then Js.slice_1_m1 value else value in
      <[key := value]> parameters
  | None => parameters
  end.

Definition parseParameters (paramString : string) : gmap string string :=
  foldl parseParameter ∅ (Js.split paramString ";"%char).

(** [// Parse property name and parameters]. *)
Definition nameAndParameters (propertyPart : string)
  : string * gmap string string :=
  match Js.indexOf propertyPart ";"%char with
  | None => (propertyPart, ∅)
  | Some semicolonIndex =>
      (Js.substring propertyPart 0 semicolonIndex,
       parseParameters (Js.substringFrom propertyPart (semicolonIndex + 1)))
  end.

Definition parsePropertyLine (line : string) : Completion Property :=
  match Js.indexOf line ":"%char with
  | None => Throw (Error ("Invalid property line: " +:+ line))
  | Some colonIndex =>
      let propertyPart := Js.substring line 0 colonIndex in
      let value := Js.substringFrom line (colonIndex + 1) in
      let '(name, parameters) := nameAndParameters propertyPart in
      Return {| name := Js.toUpperCase name;
                parameters := parameters;
                value := unescapeValue value |}
  end.

(** What [parsePersonProperty] returns. *)
Record Person := mkPerson {
  email : string;
  commonName : option string;
  role : option string;
  partstat : option string;
  rsvp : option bool
}.

(** [parameters.K || undefined]: an absent key and the empty string both
    give [undefined]. *)
Definition orUndefined (v : option string) : option string :=
  match v with
  | Some s => if Js.isEmpty s then None else Some s
  | None => None
  end.

Definition parsePersonProperty (value : string)
    (parameters : gmap string string) : Person :=
  let email :=
    if Js.startsWith value "mailto:" then Js.substringFrom value 7
    else value in
  {| email := email;
     commonName := orUndefined (parameters !! "CN");
     role := orUndefined (parameters !! "ROLE");
     partstat := orUndefined (parameters !! "PARTSTAT");
     rsvp := if bool_decide (parameters !! "RSVP" = Some "TRUE")
             then Some true else None |}.

(** The loop of [splitCommaSeparated] over the code units of [value], with
    its three variables. *)
Fixpoint splitCommaLoop (value : string) (result : list string)
    (current : string) (escaped : bool) : list string * string :=
  match value with
  | EmptyString => (result, current)
  | String char rest =>
      if escaped then
        splitCommaLoop rest result (current +:+ String char EmptyString) false
      else if Ascii.eqb char Js.BACKSLASH then
        splitCommaLoop rest result (current +:+ String char EmptyString) true
      else if Ascii.eqb char ","%char then
        splitCommaLoop rest (result ++ [unescapeValue (Js.trim current)])
          EmptyString false
      else
        splitCommaLoop rest result (current +:+ String char EmptyString) false
  end.

Definition splitCommaSeparated (value : string) : list string :=
  let '(result, current) := splitCommaLoop value [] EmptyString false in
  if Js.isEmpty (Js.trim current) then result
  else result ++ [unescapeValue (Js.trim current)].

(** [formatIcsDate]. *)
Definition formatIcsDate (dateString : string) : string :=
  if Js.isEmpty dateString then ""
  else if Js.length dateString =? 8 then
    Js.substring dateString 0 4 +:+ "-" +:+ Js.substring dateString 4 6
      +:+ "-" +:+ Js.substring dateString 6 8
  else if 15 <=? Js.length dateString then
    Js.substring dateString 0 4 +:+ "-" +:+ Js.substring dateString 4 6
      +:+ "-" +:+ Js.substring dateString 6 8 +:+ " "
      +:+ Js.substring dateString 9 11 +:+ ":"
      +:+ Js.substring dateString 11 13 +:+ ":"
      +:+ Js.substring dateString 13 15
      +:+ (if Js.endsWithChar dateString "Z"%char then " UTC" else "")
  else dateString.


(** ** The objects of [src/types] *)

Module IcsEvent.

(** The event object: the mapper's [Partial<IcsEvent>] and the value of
    [icsEventSchema]. *)
Record t := mk {
  uid : option string;
  dtstamp : option string;
  dtstart : option string;
  class : option string;
  created : option string;
  description : option string;
  dtend : option string;
  duration : option string;
  geo : option string;
  lastModified : option string;
  location : option string;
  organizer : option Person;
  priority : option Js.number;
  sequence : option Js.number;
  status : option string;
  summary : option string;
  transp : option string;
  url : option string;
  recurid : option string;
  rrule : option string;
  attach : option (list string);
  attendee : option (list Person);
  categories : option (list string);
  comment : option (list string);
  contact : option (list string);
  exdate : option (list string);
  related : option (list string);
  resources : option (list string);
  rdate : option (list string);
  customProperties : option (gmap string string)
}.

(** [o.f = v], one definition per field [f]; [delete o.f] is
    [set_f None]. *)
Definition set_uid (v : option string) (o : t) : t :=
  mk v (dtstamp o) (dtstart o) (class o) (created o) (description o)
  (dtend o) (duration o) (geo o) (lastModified o) (location o) (organizer
  o) (priority o) (sequence o) (status o) (summary o) (transp o) (url o)
  (recurid o) (rrule o) (attach o) (attendee o) (categories o) (comment o)
  (contact o) (exdate o) (related o) (resources o) (rdate o)
  (customProperties o).
Definition set_dtstamp (v : option string) (o : t) : t :=
  mk (uid o) v (dtstart o) (class o) (created o) (description o) (dtend o)
  (duration o) (geo o) (lastModified o) (location o) (organizer o)
  (priority o) (sequence o) (status o) (summary o) (transp o) (url o)
  (recurid o) (rrule o) (attach o) (attendee o) (categories o) (comment o)
  (contact o) (exdate o) (related o) (resources o) (rdate o)
  (customProperties o).
Definition set_dtstart (v : option string) (o : t) : t :=
  mk (uid o) (dtstamp o) v (class o) (created o) (description o) (dtend o)
  (duration o) (geo o) (lastModified o) (location o) (organizer o)
  (priority o) (sequence o) (status o) (summary o) (transp o) (url o)
  (recurid o) (rrule o) (attach o) (attendee o) (categories o) (comment o)
  (contact o) (exdate o) (related o) (resources o) (rdate o)
  (customProperties o).
Definition set_class (v : option string) (o : t) : t :=
  mk (uid o) (dtstamp o) (dtstart o) v (created o) (description o) (dtend
  o) (duration o) (geo o) (lastModified o) (location o) (organizer o)
  (priority o) (sequence o) (status o) (summary o) (transp o) (url o)
  (recurid o) (rrule o) (attach o) (attendee o) (categories o) (comment o)
  (contact o) (exdate o) (related o) (resources o) (rdate o)
  (customProperties o).
Definition set_created (v : option string) (o : t) : t :=
  mk (uid o) (dtstamp o) (dtstart o) (class o) v (description o) (dtend o)
  (duration o) (geo o) (lastModified o) (location o) (organizer o)
  (priority o) (sequence o) (status o) (summary o) (transp o) (url o)
  (recurid o) (rrule o) (attach o) (attendee o) (categories o) (comment o)
  (contact o) (exdate o) (related o) (resources o) (rdate o)
  (customProperties o).
Definition set_description (v : option string) (o : t) : t :=
  mk (uid o) (dtstamp o) (dtstart o) (class o) (created o) v (dtend o)
  (duration o) (geo o) (lastModified o) (location o) (organizer o)
  (priority o) (sequence o) (status o) (summary o) (transp o) (url o)
  (recurid o) (rrule o) (attach o) (attendee o) (categories o) (comment o)
  (contact o) (exdate o) (related o) (resources o) (rdate o)
  (customProperties o).
Definition set_dtend (v : option string) (o : t) : t :=
  mk (uid o) (dtstamp o) (dtstart o) (class o) (created o) (description o)
  v (duration o) (geo o) (lastModified o) (location o) (organizer o)
  (priority o) (sequence o) (status o) (summary o) (transp o) (url o)
  (recurid o) (rrule o) (attach o) (attendee o) (categories o) (comment o)
  (contact o) (exdate o) (related o) (resources o) (rdate o)
  (customProperties o).
Definition set_duration (v : option string) (o : t) : t :=
  mk (uid o) (dtstamp o) (dtstart o) (class o) (created o) (description o)
  (dtend o) v (geo o) (lastModified o) (location o) (organizer o)
  (priority o) (sequence o) (status o) (summary o) (transp o) (url o)
  (recurid o) (rrule o) (attach o) (attendee o) (categories o) (comment o)
  (contact o) (exdate o) (related o) (resources o) (rdate o)
  (customProperties o).
Definition set_geo (v : option string) (o : t) : t :=
  mk (uid o) (dtstamp o) (dtstart o) (class o) (created o) (description o)
  (dtend o) (duration o) v (lastModified o) (location o) (organizer o)
  (priority o) (sequence o) (status o) (summary o) (transp o) (url o)
  (recurid o) (rrule o) (attach o) (attendee o) (categories o) (comment o)
  (contact o) (exdate o) (related o) (resources o) (rdate o)
  (customProperties o).
Definition set_lastModified (v : option string) (o : t) : t :=
  mk (uid o) (dtstamp o) (dtstart o) (class o) (created o) (description o)
  (dtend o) (duration o) (geo o) v (location o) (organizer o) (priority o)
  (sequence o) (status o) (summary o) (transp o) (url o) (recurid o)
  (rrule o) (attach o) (attendee o) (categories o) (comment o) (contact o)
  (exdate o) (related o) (resources o) (rdate o) (customProperties o).
Definition set_location (v : option string) (o : t) : t :=
  mk (uid o) (dtstamp o) (dtstart o) (class o) (created o) (description o)
  (dtend o) (duration o) (geo o) (lastModified o) v (organizer o)
  (priority o) (sequence o) (status o) (summary o) (transp o) (url o)
  (recurid o) (rrule o) (attach o) (attendee o) (categories o) (comment o)
  (contact o) (exdate o) (related o) (resources o) (rdate o)
  (customProperties o).
Definition set_organizer (v : option Person) (o : t) : t :=
  mk (uid o) (dtstamp o) (dtstart o) (class o) (created o) (description o)
  (dtend o) (duration o) (geo o) (lastModified o) (location o) v (priority
  o) (sequence o) (status o) (summary o) (transp o) (url o) (recurid o)
  (rrule o) (attach o) (attendee o) (categories o) (comment o) (contact o)
  (exdate o) (related o) (resources o) (rdate o) (customProperties o).
Definition set_priority (v : option Js.number) (o : t) : t :=
  mk (uid o) (dtstamp o) (dtstart o) (class o) (created o) (description o)
  (dtend o) (duration o) (geo o) (lastModified o) (location o) (organizer
  o) v (sequence o) (status o) (summary o) (transp o) (url o) (recurid o)
  (rrule o) (attach o) (attendee o) (categories o) (comment o) (contact o)
  (exdate o) (related o) (resources o) (rdate o) (customProperties o).
Definition set_sequence (v : option Js.number) (o : t) : t :=
  mk (uid o) (dtstamp o) (dtstart o) (class o) (created o) (description o)
  (dtend o) (duration o) (geo o) (lastModified o) (location o) (organizer
  o) (priority o) v (status o) (summary o) (transp o) (url o) (recurid o)
  (rrule o) (attach o) (attendee o) (categories o) (comment o) (contact o)
  (exdate o) (related o) (resources o) (rdate o) (customProperties o).
Definition set_status (v : option string) (o : t) : t :=
  mk (uid o) (dtstamp o) (dtstart o) (class o) (created o) (description o)
  (dtend o) (duration o) (geo o) (lastModified o) (location o) (organizer
  o) (priority o) (sequence o) v (summary o) (transp o) (url o) (recurid
  o) (rrule o) (attach o) (attendee o) (categories o) (comment o) (contact
  o) (exdate o) (related o) (resources o) (rdate o) (customProperties o).
Definition set_summary (v : option string) (o : t) : t :=
  mk (uid o) (dtstamp o) (dtstart o) (class o) (created o) (description o)
  (dtend o) (duration o) (geo o) (lastModified o) (location o) (organizer
  o) (priority o) (sequence o) (status o) v (transp o) (url o) (recurid o)
  (rrule o) (attach o) (attendee o) (categories o) (comment o) (contact o)
  (exdate o) (related o) (resources o) (rdate o) (customProperties o).
Definition set_transp (v : option string) (o : t) : t :=
  mk (uid o) (dtstamp o) (dtstart o) (class o) (created o) (description o)
  (dtend o) (duration o) (geo o) (lastModified o) (location o) (organizer
  o) (priority o) (sequence o) (status o) (summary o) v (url o) (recurid
  o) (rrule o) (attach o) (attendee o) (categories o) (comment o) (contact
  o) (exdate o) (related o) (resources o) (rdate o) (customProperties o).
Definition set_url (v : option string) (o : t) : t :=
  mk (uid o) (dtstamp o) (dtstart o) (class o) (created o) (description o)
  (dtend o) (duration o) (geo o) (lastModified o) (location o) (organizer
  o) (priority o) (sequence o) (status o) (summary o) (transp o) v
  (recurid o) (rrule o) (attach o) (attendee o) (categories o) (comment o)
  (contact o) (exdate o) (related o) (resources o) (rdate o)
  (customProperties o).
Definition set_recurid (v : option string) (o : t) : t :=
  mk (uid o) (dtstamp o) (dtstart o) (class o) (created o) (description o)
  (dtend o) (duration o) (geo o) (lastModified o) (location o) (organizer
  o) (priority o) (sequence o) (status o) (summary o) (transp o) (url o) v
  (rrule o) (attach o) (attendee o) (categories o) (comment o) (contact o)
  (exdate o) (related o) (resources o) (rdate o) (customProperties o).
Definition set_rrule (v : option string) (o : t) : t :=
  mk (uid o) (dtstamp o) (dtstart o) (class o) (created o) (description o)
  (dtend o) (duration o) (geo o) (lastModified o) (location o) (organizer
  o) (priority o) (sequence o) (status o) (summary o) (transp o) (url o)
  (recurid o) v (attach o) (attendee o) (categories o) (comment o)
  (contact o) (exdate o) (related o) (resources o) (rdate o)
  (customProperties o).
Definition set_attach (v : option (list string)) (o : t) : t :=
  mk (uid o) (dtstamp o) (dtstart o) (class o) (created o) (description o)
  (dtend o) (duration o) (geo o) (lastModified o) (location o) (organizer
  o) (priority o) (sequence o) (status o) (summary o) (transp o) (url o)
  (recurid o) (rrule o) v (attendee o) (categories o) (comment o) (contact
  o) (exdate o) (related o) (resources o) (rdate o) (customProperties o).
Definition set_attendee (v : option (list Person)) (o : t) : t :=
  mk (uid o) (dtstamp o) (dtstart o) (class o) (created o) (description o)
  (dtend o) (duration o) (geo o) (lastModified o) (location o) (organizer
  o) (priority o) (sequence o) (status o) (summary o) (transp o) (url o)
  (recurid o) (rrule o) (attach o) v (categories o) (comment o) (contact
  o) (exdate o) (related o) (resources o) (rdate o) (customProperties o).
Definition set_categories (v : option (list string)) (o : t) : t :=
  mk (uid o) (dtstamp o) (dtstart o) (class o) (created o) (description o)
  (dtend o) (duration o) (geo o) (lastModified o) (location o) (organizer
  o) (priority o) (sequence o) (status o) (summary o) (transp o) (url o)
  (recurid o) (rrule o) (attach o) (attendee o) v (comment o) (contact o)
  (exdate o) (related o) (resources o) (rdate o) (customProperties o).
Definition set_comment (v : option (list string)) (o : t) : t :=
  mk (uid o) (dtstamp o) (dtstart o) (class o) (created o) (description o)
  (dtend o) (duration o) (geo o) (lastModified o) (location o) (organizer
  o) (priority o) (sequence o) (status o) (summary o) (transp o) (url o)
  (recurid o) (rrule o) (attach o) (attendee o) (categories o) v (contact
  o) (exdate o) (related o) (resources o) (rdate o) (customProperties o).
Definition set_contact (v : option (list string)) (o : t) : t :=
  mk (uid o) (dtstamp o) (dtstart o) (class o) (created o) (description o)
  (dtend o) (duration o) (geo o) (lastModified o) (location o) (organizer
  o) (priority o) (sequence o) (status o) (summary o) (transp o) (url o)
  (recurid o) (rrule o) (attach o) (attendee o) (categories o) (comment o)
  v (exdate o) (related o) (resources o) (rdate o) (customProperties o).
Definition set_exdate (v : option (list string)) (o : t) : t :=
  mk (uid o) (dtstamp o) (dtstart o) (class o) (created o) (description o)
  (dtend o) (duration o) (geo o) (lastModified o) (location o) (organizer
  o) (priority o) (sequence o) (status o) (summary o) (transp o) (url o)
  (recurid o) (rrule o) (attach o) (attendee o) (categories o) (comment o)
  (contact o) v (related o) (resources o) (rdate o) (customProperties o).
Definition set_related (v : option (list string)) (o : t) : t :=
  mk (uid o) (dtstamp o) (dtstart o) (class o) (created o) (description o)
  (dtend o) (duration o) (geo o) (lastModified o) (location o) (organizer
  o) (priority o) (sequence o) (status o) (summary o) (transp o) (url o)
  (recurid o) (rrule o) (attach o) (attendee o) (categories o) (comment o)
  (contact o) (exdate o) v (resources o) (rdate o) (customProperties o).
Definition set_resources (v : option (list string)) (o : t) : t :=
  mk (uid o) (dtstamp o) (dtstart o) (class o) (created o) (description o)
  (dtend o) (duration o) (geo o) (lastModified o) (location o) (organizer
  o) (priority o) (sequence o) (status o) (summary o) (transp o) (url o)
  (recurid o) (rrule o) (attach o) (attendee o) (categories o) (comment o)
  (contact o) (exdate o) (related o) v (rdate o) (customProperties o).
Definition set_rdate (v : option (list string)) (o : t) : t :=
  mk (uid o) (dtstamp o) (dtstart o) (class o) (created o) (description o)
  (dtend o) (duration o) (geo o) (lastModified o) (location o) (organizer
  o) (priority o) (sequence o) (status o) (summary o) (transp o) (url o)
  (recurid o) (rrule o) (attach o) (attendee o) (categories o) (comment o)
  (contact o) (exdate o) (related o) (resources o) v (customProperties o).
Definition set_customProperties (v : option (gmap string string)) (o : t) : t :=
  mk (uid o) (dtstamp o) (dtstart o) (class o) (created o) (description o)
  (dtend o) (duration o) (geo o) (lastModified o) (location o) (organizer
  o) (priority o) (sequence o) (status o) (summary o) (transp o) (url o)
  (recurid o) (rrule o) (attach o) (attendee o) (categories o) (comment o)
  (contact o) (exdate o) (related o) (resources o) (rdate o) v.

End IcsEvent.

Module IcsTodo.

(** The todo object. *)
Record t := mk {
  uid : option string;
  dtstamp : option string;
  summary : option string;
  description : option string;
  priority : option Js.number;
  status : option string;
  due : option string;
  completed : option string;
  percentComplete : option Js.number;
  customProperties : option (gmap string string)
}.

(** [o.f = v], one definition per field [f]; [delete o.f] is
    [set_f None]. *)
Definition set_uid (v : option string) (o : t) : t :=
  mk v (dtstamp o) (summary o) (description o) (priority o) (status o)
  (due o) (completed o) (percentComplete o) (customProperties o).
Definition set_dtstamp (v : option string) (o : t) : t :=
  mk (uid o) v (summary o) (description o) (priority o) (status o) (due o)
  (completed o) (percentComplete o) (customProperties o).
Definition set_summary (v : option string) (o : t) : t :=
  mk (uid o) (dtstamp o) v (description o) (priority o) (status o) (due o)
  (completed o) (percentComplete o) (customProperties o).
Definition set_description (v : option string) (o : t) : t :=
  mk (uid o) (dtstamp o) (summary o) v (priority o) (status o) (due o)
  (completed o) (percentComplete o) (customProperties o).
Definition set_priority (v : option Js.number) (o : t) : t :=
  mk (uid o) (dtstamp o) (summary o) (description o) v (status o) (due o)
  (completed o) (percentComplete o) (customProperties o).
Definition set_status (v : option string) (o : t) : t :=
  mk (uid o) (dtstamp o) (summary o) (description o) (priority o) v (due
  o) (completed o) (percentComplete o) (customProperties o).
Definition set_due (v : option string) (o : t) : t :=
  mk (uid o) (dtstamp o) (summary o) (description o) (priority o) (status
  o) v (completed o) (percentComplete o) (customProperties o).
Definition set_completed (v : option string) (o : t) : t :=
  mk (uid o) (dtstamp o) (summary o) (description o) (priority o) (status
  o) (due o) v (percentComplete o) (customProperties o).
Definition set_percentComplete (v : option Js.number) (o : t) : t :=
  mk (uid o) (dtstamp o) (summary o) (description o) (priority o) (status
  o) (due o) (completed o) v (customProperties o).
Definition set_customProperties (v : option (gmap string string)) (o : t) : t :=
  mk (uid o) (dtstamp o) (summary o) (description o) (priority o) (status
  o) (due o) (completed o) (percentComplete o) v.

End IcsTodo.

Module IcsJournal.

(** The journal object. *)
Record t := mk {
  uid : option string;
  dtstamp : option string;
  summary : option string;
  description : option string;
  dtstart : option string;
  customProperties : option (gmap string string)
}.

(** [o.f = v], one definition per field [f]; [delete o.f] is
    [set_f None]. *)
Definition set_uid (v : option string) (o : t) : t :=
  mk v (dtstamp o) (summary o) (description o) (dtstart o)
  (customProperties o).
Definition set_dtstamp (v : option string) (o : t) : t :=
  mk (uid o) v (summary o) (description o) (dtstart o) (customProperties
  o).
Definition set_summary (v : option string) (o : t) : t :=
  mk (uid o) (dtstamp o) v (description o) (dtstart o) (customProperties
  o).
Definition set_description (v : option string) (o : t) : t :=
  mk (uid o) (dtstamp o) (summary o) v (dtstart o) (customProperties o).
Definition set_dtstart (v : option string) (o : t) : t :=
  mk (uid o) (dtstamp o) (summary o) (description o) v (customProperties
  o).
Definition set_customProperties (v : option (gmap string string)) (o : t) : t :=
  mk (uid o) (dtstamp o) (summary o) (description o) (dtstart o) v.

End IcsJournal.

Module IcsFreeBusy.

(** The free/busy object. *)
Record t := mk {
  uid : option string;
  dtstamp : option string;
  organizer : option string;
  dtstart : option string;
  dtend : option string;
  freebusy : option (list string);
  customProperties : option (gmap string string)
}.

(** [o.f = v], one definition per field [f]; [delete o.f] is
    [set_f None]. *)
Definition set_uid (v : option string) (o : t) : t :=
  mk v (dtstamp o) (organizer o) (dtstart o) (dtend o) (freebusy o)
  (customProperties o).
Definition set_dtstamp (v : option string) (o : t) : t :=
  mk (uid o) v (organizer o) (dtstart o) (dtend o) (freebusy o)
  (customProperties o).
Definition set_organizer (v : option string) (o : t) : t :=
  mk (uid o) (dtstamp o) v (dtstart o) (dtend o) (freebusy o)
  (customProperties o).
Definition set_dtstart (v : option string) (o : t) : t :=
  mk (uid o) (dtstamp o) (organizer o) v (dtend o) (freebusy o)
  (customProperties o).
Definition set_dtend (v : option string) (o : t) : t :=
  mk (uid o) (dtstamp o) (organizer o) (dtstart o) v (freebusy o)
  (customProperties o).
Definition set_freebusy (v : option (list string)) (o : t) : t :=
  mk (uid o) (dtstamp o) (organizer o) (dtstart o) (dtend o) v
  (customProperties o).
Definition set_customProperties (v : option (gmap string string)) (o : t) : t :=
  mk (uid o) (dtstamp o) (organizer o) (dtstart o) (dtend o) (freebusy o)
  v.

End IcsFreeBusy.

(** A timezone: its [tzid] and the properties as text. *)
Record IcsTimezone := mkIcsTimezone {
  tzid : string;
  tz_rawData : string
}.

(** A sub-component of a kind the calendar mapper does not know. *)
Record UnparsedComponent := mkUnparsedComponent {
  unparsed_type : string;
  unparsed_rawData : string
}.

Module IcsCalendar.

(** The calendar object: the mapper's [Partial<IcsCalendar>] and the value
    of [icsCalendarSchema]. *)
Record t := mk {
  version : option string;
  prodid : option string;
  calscale : option string;
  method : option string;
  calname : option string;
  caldesc : option string;
  timezone : option string;
  refreshInterval : option string;
  events : list IcsEvent.t;
  todos : list IcsTodo.t;
  journals : list IcsJournal.t;
  freebusys : list IcsFreeBusy.t;
  timezones : list IcsTimezone;
  customProperties : gmap string string;
  unparsedComponents : list UnparsedComponent
}.

(** [o.f = v], one definition per field [f]; [delete o.f] is
    [set_f None]. *)
Definition set_version (v : option string) (o : t) : t :=
  mk v (prodid o) (calscale o) (method o) (calname o) (caldesc o)
  (timezone o) (refreshInterval o) (events o) (todos o) (journals o)
  (freebusys o) (timezones o) (customProperties o) (unparsedComponents o).
Definition set_prodid (v : option string) (o : t) : t :=
  mk (version o) v (calscale o) (method o) (calname o) (caldesc o)
  (timezone o) (refreshInterval o) (events o) (todos o) (journals o)
  (freebusys o) (timezones o) (customProperties o) (unparsedComponents o).
Definition set_calscale (v : option string) (o : t) : t :=
  mk (version o) (prodid o) v (method o) (calname o) (caldesc o) (timezone
  o) (refreshInterval o) (events o) (todos o) (journals o) (freebusys o)
  (timezones o) (customProperties o) (unparsedComponents o).
Definition set_method (v : option string) (o : t) : t :=
  mk (version o) (prodid o) (calscale o) v (calname o) (caldesc o)
  (timezone o) (refreshInterval o) (events o) (todos o) (journals o)
  (freebusys o) (timezones o) (customProperties o) (unparsedComponents o).
Definition set_calname (v : option string) (o : t) : t :=
  mk (version o) (prodid o) (calscale o) (method o) v (caldesc o)
  (timezone o) (refreshInterval o) (events o) (todos o) (journals o)
  (freebusys o) (timezones o) (customProperties o) (unparsedComponents o).
Definition set_caldesc (v : option string) (o : t) : t :=
  mk (version o) (prodid o) (calscale o) (method o) (calname o) v
  (timezone o) (refreshInterval o) (events o) (todos o) (journals o)
  (freebusys o) (timezones o) (customProperties o) (unparsedComponents o).
Definition set_timezone (v : option string) (o : t) : t :=
  mk (version o) (prodid o) (calscale o) (method o) (calname o) (caldesc
  o) v (refreshInterval o) (events o) (todos o) (journals o) (freebusys o)
  (timezones o) (customProperties o) (unparsedComponents o).
Definition set_refreshInterval (v : option string) (o : t) : t :=
  mk (version o) (prodid o) (calscale o) (method o) (calname o) (caldesc
  o) (timezone o) v (events o) (todos o) (journals o) (freebusys o)
  (timezones o) (customProperties o) (unparsedComponents o).
Definition set_events (v : list IcsEvent.t) (o : t) : t :=
  mk (version o) (prodid o) (calscale o) (method o) (calname o) (caldesc
  o) (timezone o) (refreshInterval o) v (todos o) (journals o) (freebusys
  o) (timezones o) (customProperties o) (unparsedComponents o).
Definition set_todos (v : list IcsTodo.t) (o : t) : t :=
  mk (version o) (prodid o) (calscale o) (method o) (calname o) (caldesc
  o) (timezone o) (refreshInterval o) (events o) v (journals o) (freebusys
  o) (timezones o) (customProperties o) (unparsedComponents o).
Definition set_journals (v : list IcsJournal.t) (o : t) : t :=
  mk (version o) (prodid o) (calscale o) (method o) (calname o) (caldesc
  o) (timezone o) (refreshInterval o) (events o) (todos o) v (freebusys o)
  (timezones o) (customProperties o) (unparsedComponents o).
Definition set_freebusys (v : list IcsFreeBusy.t) (o : t) : t :=
  mk (version o) (prodid o) (calscale o) (method o) (calname o) (caldesc
  o) (timezone o) (refreshInterval o) (events o) (todos o) (journals o) v
  (timezones o) (customProperties o) (unparsedComponents o).
Definition set_timezones (v : list IcsTimezone) (o : t) : t :=
  mk (version o) (prodid o) (calscale o) (method o) (calname o) (caldesc
  o) (timezone o) (refreshInterval o) (events o) (todos o) (journals o)
  (freebusys o) v (customProperties o) (unparsedComponents o).
Definition set_customProperties (v : gmap string string) (o : t) : t :=
  mk (version o) (prodid o) (calscale o) (method o) (calname o) (caldesc
  o) (timezone o) (refreshInterval o) (events o) (todos o) (journals o)
  (freebusys o) (timezones o) v (unparsedComponents o).
Definition set_unparsedComponents (v : list UnparsedComponent) (o : t) : t :=
  mk (version o) (prodid o) (calscale o) (method o) (calname o) (caldesc
  o) (timezone o) (refreshInterval o) (events o) (todos o) (journals o)
  (freebusys o) (timezones o) (customProperties o) v.

End IcsCalendar.

(** [ParsedIcsData]. *)
Record Metadata := mkMetadata {
  totalEvents : nat;
  totalTodos : nat;
  totalJournals : nat;
  totalFreebusys : nat;
  totalTimezones : nat;
  parseErrors : list string;
  parseWarnings : list string
}.

Record ParsedIcsData := mkParsedIcsData {
  calendars : list IcsCalendar.t;
  metadata : Metadata
}.

(** The [ComponentBlock] a mapper receives: the object with everything
    reachable from it. *)
Inductive ComponentBlock :=
| Block (type : string) (properties : list Property)
    (subComponents : list ComponentBlock).

Definition type (block : ComponentBlock) : string :=
  match block with Block t _ _ => t end.
Definition properties (block : ComponentBlock) : list Property :=
  match block with Block _ ps _ => ps end.
Definition subComponents (block : ComponentBlock) : list ComponentBlock :=
  match block with Block _ _ subs => subs end.

(** ** The console *)

(** The calls on the console, in order.  What is printed through
    [JSON.stringify(_, null, 2)] is kept as the value. *)
Inductive ConsoleCall :=
| console_log (text : string)
| console_log_blocks (rootBlocks : list ComponentBlock)
| console_log_result (result : ParsedIcsData)
| console_warn (text : string)
| console_error (text : string).

(** A computation that writes on the console. *)
Definition IO (A : Type) : Type := A * list ConsoleCall.

#[export] Instance IO_ret : MRet IO := fun A a => (a, []).
#[export] Instance IO_bind : MBind IO :=
  fun A B k m => (fst (k (fst m)), snd m ++ snd (k (fst m))).

Definition print (call : ConsoleCall) : IO unit := (tt, [call]).

(** [if (debug) { ... }]. *)
Definition when (debug : bool) (m : IO unit) : IO unit :=
  if debug then m else mret tt.

(** [for (const x of l) { ... }] over a state [S]. *)
Fixpoint forOf {A S} (body : A -> S -> IO S) (l : list A) (s : S) : IO S :=
  match l with
  | [] => mret s
  | x :: r => s' ← body x s; forOf body r s'
  end.

(** [l.forEach((x, index) => { ... })], from [index]. *)
Fixpoint forEach {A} (body : A -> nat -> IO unit) (l : list A) (index : nat)
  : IO unit :=
  match l with
  | [] => mret tt
  | x :: r => body x index;; forEach body r (S index)
  end.

(** ** What the program takes from its libraries

    Zod's checks of an email address and of a URL, the text of the
    [ZodError] a schema throws on a rejected object, and the text
    [JSON.stringify] gives for a block. *)
Record Externals := mkExternals {
  zod_email : string -> bool;
  zod_url : string -> bool;
  zod_event_message : IcsEvent.t -> string;
  zod_calendar_message : IcsCalendar.t -> string;
  JSON_stringify : ComponentBlock -> string
}.

(** ** The schemas of [src/types/IcsEvent.ts] and [IcsCalendar.ts] *)

(** [schema.optional()] and a required key. *)
Definition optional {A} (schema : A -> bool) (v : option A) : bool :=
  match v with Some a => schema a | None => true end.
Definition required {A} (schema : A -> bool) (v : option A) : bool :=
  match v with Some a => schema a | None => false end.

(** [z.string()], [z.string().min(1)], [z.enum([...])], [z.literal(s)]. *)
Definition z_string (s : string) : bool := true.
Definition z_string_min1 (s : string) : bool := negb (Js.isEmpty s).
Definition z_enum (values : list string) (s : string) : bool :=
  existsb (String.eqb s) values.
Definition z_literal (l s : string) : bool := String.eqb s l.

(** [z.number().int().min(lo)] and [.max(hi)]: [NaN] is not a number for
    Zod.  The numbers are those of [Js.number]: an integer beyond what a
    double holds exactly, and [Infinity], which Zod refuses, are not among
    them. *)
Definition z_int_min (lo : Z) (n : Js.number) : bool :=
  match n with Js.NaN => false | Js.Int z => (lo <=? z)%Z end.
Definition z_int_min_max (lo hi : Z) (n : Js.number) : bool :=
  match n with Js.NaN => false | Js.Int z => (lo <=? z)%Z && (z <=? hi)%Z end.

Fixpoint allDigits (s : string) : bool :=
  match s with
  | EmptyString => true
  | String c r => Js.isDigit c && allDigits r
  end.

(** [/^\d{n}/], with what follows the match. *)
Definition digitsExactly (n : nat) (s : string) : option string :=
  if (Js.length (Js.take n s) =? n) && allDigits (Js.take n s)
  then Some (Js.drop n s) else None.

(** [/^\d{8}T\d{6}Z?$/]. *)
Definition icsDateTimeSchema (s : string) : bool :=
  match digitsExactly 8 s with
  | Some (String "T"%char r) =>
      match digitsExactly 6 r with
      | Some EmptyString => true
      | Some (String "Z"%char EmptyString) => true
      | _ => false
      end
  | _ => false
  end.

(** [/^\d{8}$/]. *)
Definition icsDateSchema (s : string) : bool :=
  match digitsExactly 8 s with
  | Some EmptyString => true
  | _ => false
  end.

Definition icsDateOrDateTimeSchema (s : string) : bool :=
  icsDateSchema s || icsDateTimeSchema s.

(** [/^FREQ=/]. *)
Definition rruleSchema (s : string) : bool := Js.startsWith s "FREQ=".

Fixpoint skipDigits (s : string) : string :=
  match s with
  | EmptyString => EmptyString
  | String c r => if Js.isDigit c then skipDigits r else s
  end.

(** [/^-?\d+\.?\d*/], with what follows the longest match. *)
Definition matchCoordinate (s : string) : option string :=
  let s1 := match s with String "-"%char r => r | _ => s end in
  match s1 with
  | String c _ =>
      if Js.isDigit c then
        let s2 := skipDigits s1 in
        let s3 := match s2 with String "."%char r => r | _ => s2 end in
        Some (skipDigits s3)
      else None
  | EmptyString => None
  end.

(** [/^-?\d+\.?\d*;-?\d+\.?\d*$/]. *)
Definition geoSchema (s : string) : bool :=
  match matchCoordinate s with
  | Some (String ";"%char r) =>
      match matchCoordinate r with
      | Some EmptyString => true
      | _ => false
      end
  | _ => false
  end.

Definition prioritySchema : Js.number -> bool := z_int_min_max 0 9.
Definition eventStatusSchema : string -> bool :=
  z_enum ["TENTATIVE"; "CONFIRMED"; "CANCELLED"].
Definition classSchema : string -> bool :=
  z_enum ["PUBLIC"; "PRIVATE"; "CONFIDENTIAL"].
Definition transparencySchema : string -> bool :=
  z_enum ["OPAQUE"; "TRANSPARENT"].
Definition calscaleSchema : string -> bool := z_enum ["GREGORIAN"].
Definition methodSchema : string -> bool :=
  z_enum ["PUBLISH"; "REQUEST"; "REPLY"; "ADD"; "CANCEL"; "REFRESH";
          "COUNTER"; "DECLINECOUNTER"].
Definition versionSchema : string -> bool := z_literal "2.0".
Definition prodidSchema : string -> bool := z_string_min1.

Section Schemas.

Context (ext : Externals).

Definition attendeeSchema (p : Person) : bool :=
  zod_email ext (email p)
  && optional z_string (commonName p)
  && optional
       (z_enum ["CHAIR"; "REQ-PARTICIPANT"; "OPT-PARTICIPANT";
                "NON-PARTICIPANT"]) (role p)
  && optional
       (z_enum ["NEEDS-ACTION"; "ACCEPTED"; "DECLINED"; "TENTATIVE";
                "DELEGATED"]) (partstat p).

Definition organizerSchema (p : Person) : bool :=
  zod_email ext (email p) && optional z_string (commonName p).

(** The value of [organizerSchema]: an object schema that is not strict
    drops the keys it does not list. *)
Definition organizerValue (p : Person) : Person :=
  {| email := email p; commonName := commonName p;
     role := None; partstat := None; rsvp := None |}.

(** The object schema [icsEventSchema], before its refinement. *)
Definition icsEventObjectSchema (data : IcsEvent.t) : bool :=
  required z_string_min1 (IcsEvent.uid data)
  && required icsDateTimeSchema (IcsEvent.dtstamp data)
  && optional icsDateOrDateTimeSchema (IcsEvent.dtstart data)
  && optional classSchema (IcsEvent.class data)
  && optional icsDateTimeSchema (IcsEvent.created data)
  && optional z_string (IcsEvent.description data)
  && optional icsDateOrDateTimeSchema (IcsEvent.dtend data)
  && optional z_string (IcsEvent.duration data)
  && optional geoSchema (IcsEvent.geo data)
  && optional icsDateTimeSchema (IcsEvent.lastModified data)
  && optional z_string (IcsEvent.location data)
  && optional organizerSchema (IcsEvent.organizer data)
  && optional prioritySchema (IcsEvent.priority data)
  && optional (z_int_min 0) (IcsEvent.sequence data)
  && optional eventStatusSchema (IcsEvent.status data)
  && optional z_string (IcsEvent.summary data)
  && optional transparencySchema (IcsEvent.transp data)
  && optional (zod_url ext) (IcsEvent.url data)
  && optional icsDateOrDateTimeSchema (IcsEvent.recurid data)
  && optional rruleSchema (IcsEvent.rrule data)
  && optional (forallb z_string) (IcsEvent.attach data)
  && optional (forallb attendeeSchema) (IcsEvent.attendee data)
  && optional (forallb z_string) (IcsEvent.categories data)
  && optional (forallb z_string) (IcsEvent.comment data)
  && optional (forallb z_string) (IcsEvent.contact data)
  && optional (forallb icsDateOrDateTimeSchema) (IcsEvent.exdate data)
  && optional (forallb z_string) (IcsEvent.related data)
  && optional (forallb z_string) (IcsEvent.resources data)
  && optional (forallb icsDateOrDateTimeSchema) (IcsEvent.rdate data).

(** The refinement of [refinedIcsEventSchema]. *)
Definition notBothDtendAndDuration (data : IcsEvent.t) : bool :=
  let hasDtend := bool_decide (IcsEvent.dtend data <> None) in
  let hasDuration := bool_decide (IcsEvent.duration data <> None) in
  negb (hasDtend && hasDuration).

(** [refinedIcsEventSchema], exported as [icsEventSchema]. *)
Definition icsEventSchema (data : IcsEvent.t) : bool :=
  icsEventObjectSchema data && notBothDtendAndDuration data.

Definition icsEventValue (data : IcsEvent.t) : IcsEvent.t :=
  IcsEvent.set_organizer (organizerValue <$> IcsEvent.organizer data) data.

(** [icsEventSchema.parse(data)]. *)
Definition icsEventSchema_parse (data : IcsEvent.t) : Completion IcsEvent.t :=
  if icsEventSchema data then Return (icsEventValue data)
  else Throw (ZodError (zod_event_message ext data)).

Definition icsTodoSchema (data : IcsTodo.t) : bool :=
  required z_string (IcsTodo.uid data)
  && required z_string (IcsTodo.dtstamp data)
  && optional z_string (IcsTodo.summary data)
  && optional z_string (IcsTodo.description data)
  && optional (z_int_min_max 0 9) (IcsTodo.priority data)
  && optional (z_enum ["NEEDS-ACTION"; "COMPLETED"; "IN-PROCESS"; "CANCELLED"])
       (IcsTodo.status data)
  && optional z_string (IcsTodo.due data)
  && optional z_string (IcsTodo.completed data)
  && optional (z_int_min_max 0 100) (IcsTodo.percentComplete data).

Definition icsJournalSchema (data : IcsJournal.t) : bool :=
  required z_string (IcsJournal.uid data)
  && required z_string (IcsJournal.dtstamp data)
  && optional z_string (IcsJournal.summary data)
  && optional z_string (IcsJournal.description data)
  && optional z_string (IcsJournal.dtstart data).

Definition icsFreebusySchema (data : IcsFreeBusy.t) : bool :=
  required z_string (IcsFreeBusy.uid data)
  && required z_string (IcsFreeBusy.dtstamp data)
  && optional z_string (IcsFreeBusy.organizer data)
  && optional z_string (IcsFreeBusy.dtstart data)
  && optional z_string (IcsFreeBusy.dtend data)
  && optional (forallb z_string) (IcsFreeBusy.freebusy data).

Definition icsTimezoneSchema (data : IcsTimezone) : bool :=
  z_string (tzid data) && z_string (tz_rawData data).

Definition icsCalendarSchema (data : IcsCalendar.t) : bool :=
  required versionSchema (IcsCalendar.version data)
  && required prodidSchema (IcsCalendar.prodid data)
  && optional calscaleSchema (IcsCalendar.calscale data)
  && optional methodSchema (IcsCalendar.method data)
  && optional z_string (IcsCalendar.calname data)
  && optional z_string (IcsCalendar.caldesc data)
  && optional z_string (IcsCalendar.timezone data)
  && optional z_string (IcsCalendar.refreshInterval data)
  && forallb icsEventSchema (IcsCalendar.events data)
  && forallb icsTodoSchema (IcsCalendar.todos data)
  && forallb icsJournalSchema (IcsCalendar.journals data)
  && forallb icsFreebusySchema (IcsCalendar.freebusys data)
  && forallb icsTimezoneSchema (IcsCalendar.timezones data).

Definition icsCalendarValue (data : IcsCalendar.t) : IcsCalendar.t :=
  IcsCalendar.set_events (icsEventValue <$> IcsCalendar.events data) data.

(** [icsCalendarSchema.parse(data)]. *)
Definition icsCalendarSchema_parse (data : IcsCalendar.t)
  : Completion IcsCalendar.t :=
  if icsCalendarSchema data then Return (icsCalendarValue data)
  else Throw (ZodError (zod_calendar_message ext data)).

End Schemas.


(** ** The mappers of [src/parseIcsData.ts] *)

(** [switch (x) { case l: ...; break; ... default: ... }]: the first case
    whose label is [x], else the default. *)
Fixpoint switch {A} (x : string) (cases : list (string * A)) (default : A)
  : A :=
  match cases with
  | [] => default
  | (label, body) :: rest =>
      if String.eqb x label then body else switch x rest default
  end.

(** [array.push(x)] and [array.push(...xs)] on an optional array. *)
Definition push {A} (x : A) (array : option (list A)) : option (list A) :=
  (fun l => l ++ [x]) <$> array.
Definition pushAll {A} (xs : list A) (array : option (list A))
  : option (list A) :=
  (fun l => l ++ xs) <$> array.

(** [if (o.f?.length === 0) delete o.f]. *)
Definition deleteIfEmpty {A} (array : option (list A)) : option (list A) :=
  match array with
  | Some [] => None
  | _ => array
  end.

(** [if (Object.keys(o.customProperties || {}).length === 0)
    delete o.customProperties]. *)
Definition deleteIfNoKeys (m : option (gmap string string))
  : option (gmap string string) :=
  match m with
  | Some m' => if bool_decide (m' = ∅) then None else m
  | None => None
  end.

(** The cases of the switch of [parseEventBlock]. *)
Definition eventCases
  : list (string * (Property -> IcsEvent.t -> IcsEvent.t)) :=
  [ ("UID", fun prop => IcsEvent.set_uid (Some (value prop)));
    ("DTSTAMP", fun prop => IcsEvent.set_dtstamp (Some (value prop)));
    ("DTSTART", fun prop => IcsEvent.set_dtstart (Some (value prop)));
    ("DTEND", fun prop => IcsEvent.set_dtend (Some (value prop)));
    ("DURATION", fun prop => IcsEvent.set_duration (Some (value prop)));
    ("SUMMARY", fun prop => IcsEvent.set_summary (Some (value prop)));
    ("DESCRIPTION", fun prop => IcsEvent.set_description (Some (value prop)));
    ("LOCATION", fun prop => IcsEvent.set_location (Some (value prop)));
    ("STATUS", fun prop => IcsEvent.set_status (Some (value prop)));
    ("CLASS", fun prop => IcsEvent.set_class (Some (value prop)));
    ("TRANSP", fun prop => IcsEvent.set_transp (Some (value prop)));
    ("PRIORITY",
      fun prop => IcsEvent.set_priority (Some (Js.parseInt (value prop))));
    ("SEQUENCE",
      fun prop => IcsEvent.set_sequence (Some (Js.parseInt (value prop))));
    ("CREATED", fun prop => IcsEvent.set_created (Some (value prop)));
    ("LAST-MODIFIED",
      fun prop => IcsEvent.set_lastModified (Some (value prop)));
    ("URL", fun prop => IcsEvent.set_url (Some (value prop)));
    ("GEO", fun prop => IcsEvent.set_geo (Some (value prop)));
    ("RECURID", fun prop => IcsEvent.set_recurid (Some (value prop)));
    ("RRULE", fun prop => IcsEvent.set_rrule (Some (value prop)));
    ("ORGANIZER",
      fun prop =>
        IcsEvent.set_organizer
          (Some (parsePersonProperty (value prop) (parameters prop))));
    ("ATTENDEE",
      fun prop event =>
        let attendee := parsePersonProperty (value prop) (parameters prop) in
        IcsEvent.set_attendee (push attendee (IcsEvent.attendee event)) event);
    ("CATEGORIES",
      fun prop event =>
        let categories := splitCommaSeparated (value prop) in
        IcsEvent.set_categories
          (pushAll categories (IcsEvent.categories event)) event);
    ("COMMENT",
      fun prop event =>
        IcsEvent.set_comment (push (value prop) (IcsEvent.comment event))
          event);
    ("CONTACT",
      fun prop event =>
        IcsEvent.set_contact (push (value prop) (IcsEvent.contact event))
          event);
    ("ATTACH",
      fun prop event =>
        IcsEvent.set_attach (push (value prop) (IcsEvent.attach event)) event);
    ("EXDATE",
      fun prop event =>
        let exdates := splitCommaSeparated (value prop) in
        IcsEvent.set_exdate (pushAll exdates (IcsEvent.exdate event)) event);
    ("RELATED",
      fun prop event =>
        IcsEvent.set_related (push (value prop) (IcsEvent.related event))
          event);
    ("RESOURCES",
      fun prop event =>
        let resources := splitCommaSeparated (value prop) in
        IcsEvent.set_resources
          (pushAll resources (IcsEvent.resources event)) event);
    ("RDATE",
      fun prop event =>
        let rdates := splitCommaSeparated (value prop) in
        IcsEvent.set_rdate (pushAll rdates (IcsEvent.rdate event)) event) ].

(** The default of the switch of [parseEventBlock]. *)
Definition eventDefault (prop : Property) (event : IcsEvent.t) : IcsEvent.t :=
  if Js.startsWith (name prop) "X-" then
    IcsEvent.set_customProperties
      (<[name prop := value prop]> <$> IcsEvent.customProperties event) event
  else event.

(** The body of the loop of [parseEventBlock] over the properties. *)
Definition eventProperty (event : IcsEvent.t) (prop : Property) : IcsEvent.t :=
  switch (name prop) eventCases eventDefault prop event.

Definition eventInit : IcsEvent.t :=
  IcsEvent.mk None None None None None None None None None None None None
    None None None None None None None None
    (Some []) (Some []) (Some []) (Some []) (Some []) (Some []) (Some [])
    (Some []) (Some []) (Some ∅).

(** [// Clean up empty arrays]. *)
Definition eventCleanUp (event : IcsEvent.t) : IcsEvent.t :=
  let event :=
    IcsEvent.set_attendee (deleteIfEmpty (IcsEvent.attendee event)) event in
  let event :=
    IcsEvent.set_categories (deleteIfEmpty (IcsEvent.categories event)) event in
  let event :=
    IcsEvent.set_comment (deleteIfEmpty (IcsEvent.comment event)) event in
  let event :=
    IcsEvent.set_contact (deleteIfEmpty (IcsEvent.contact event)) event in
  let event :=
    IcsEvent.set_attach (deleteIfEmpty (IcsEvent.attach event)) event in
  let event :=
    IcsEvent.set_exdate (deleteIfEmpty (IcsEvent.exdate event)) event in
  let event :=
    IcsEvent.set_related (deleteIfEmpty (IcsEvent.related event)) event in
  let event :=
    IcsEvent.set_resources (deleteIfEmpty (IcsEvent.resources event)) event in
  let event :=
    IcsEvent.set_rdate (deleteIfEmpty (IcsEvent.rdate event)) event in
  IcsEvent.set_customProperties
    (deleteIfNoKeys (IcsEvent.customProperties event)) event.

(** The object [parseEventBlock] hands to the schema. *)
Definition eventCandidate (block : ComponentBlock) : IcsEvent.t :=
  eventCleanUp (foldl eventProperty eventInit (properties block)).

Definition parseEventBlock (ext : Externals) (block : ComponentBlock)
  : Completion IcsEvent.t :=
  icsEventSchema_parse ext (eventCandidate block).

Definition todoCases : list (string * (Property -> IcsTodo.t -> IcsTodo.t)) :=
  [ ("UID", fun prop => IcsTodo.set_uid (Some (value prop)));
    ("DTSTAMP", fun prop => IcsTodo.set_dtstamp (Some (value prop)));
    ("SUMMARY", fun prop => IcsTodo.set_summary (Some (value prop)));
    ("DESCRIPTION", fun prop => IcsTodo.set_description (Some (value prop)));
    ("PRIORITY",
      fun prop => IcsTodo.set_priority (Some (Js.parseInt (value prop))));
    ("STATUS", fun prop => IcsTodo.set_status (Some (value prop)));
    ("DUE", fun prop => IcsTodo.set_due (Some (value prop)));
    ("COMPLETED", fun prop => IcsTodo.set_completed (Some (value prop)));
    ("PERCENT-COMPLETE",
      fun prop =>
        IcsTodo.set_percentComplete (Some (Js.parseInt (value prop)))) ].

Definition todoDefault (prop : Property) (todo : IcsTodo.t) : IcsTodo.t :=
  if Js.startsWith (name prop) "X-" then
    IcsTodo.set_customProperties
      (<[name prop := value prop]> <$> IcsTodo.customProperties todo) todo
  else todo.

Definition todoProperty (todo : IcsTodo.t) (prop : Property) : IcsTodo.t :=
  switch (name prop) todoCases todoDefault prop todo.

(** [parseTodoBlock]: it validates nothing and throws nothing. *)
Definition parseTodoBlock (block : ComponentBlock) : IcsTodo.t :=
  let todo :=
    foldl todoProperty
      (IcsTodo.mk None None None None None None None None None (Some ∅))
      (properties block) in
  IcsTodo.set_customProperties
    (deleteIfNoKeys (IcsTodo.customProperties todo)) todo.

Definition journalCases
  : list (string * (Property -> IcsJournal.t -> IcsJournal.t)) :=
  [ ("UID", fun prop => IcsJournal.set_uid (Some (value prop)));
    ("DTSTAMP", fun prop => IcsJournal.set_dtstamp (Some (value prop)));
    ("SUMMARY", fun prop => IcsJournal.set_summary (Some (value prop)));
    ("DESCRIPTION",
      fun prop => IcsJournal.set_description (Some (value prop)));
    ("DTSTART", fun prop => IcsJournal.set_dtstart (Some (value prop))) ].

Definition journalDefault (prop : Property) (journal : IcsJournal.t)
  : IcsJournal.t :=
  if Js.startsWith (name prop) "X-" then
    IcsJournal.set_customProperties
      (<[name prop := value prop]> <$> IcsJournal.customProperties journal)
      journal
  else journal.

Definition journalProperty (journal : IcsJournal.t) (prop : Property)
  : IcsJournal.t :=
  switch (name prop) journalCases journalDefault prop journal.

Definition parseJournalBlock (block : ComponentBlock) : IcsJournal.t :=
  let journal :=
    foldl journalProperty
      (IcsJournal.mk None None None None None (Some ∅)) (properties block) in
  IcsJournal.set_customProperties
    (deleteIfNoKeys (IcsJournal.customProperties journal)) journal.

Definition freebusyCases
  : list (string * (Property -> IcsFreeBusy.t -> IcsFreeBusy.t)) :=
  [ ("UID", fun prop => IcsFreeBusy.set_uid (Some (value prop)));
    ("DTSTAMP", fun prop => IcsFreeBusy.set_dtstamp (Some (value prop)));
    ("ORGANIZER", fun prop => IcsFreeBusy.set_organizer (Some (value prop)));
    ("DTSTART", fun prop => IcsFreeBusy.set_dtstart (Some (value prop)));
    ("DTEND", fun prop => IcsFreeBusy.set_dtend (Some (value prop)));
    ("FREEBUSY",
      fun prop freebusy =>
        IcsFreeBusy.set_freebusy
          (push (value prop) (IcsFreeBusy.freebusy freebusy)) freebusy) ].

Definition freebusyDefault (prop : Property) (freebusy : IcsFreeBusy.t)
  : IcsFreeBusy.t :=
  if Js.startsWith (name prop) "X-" then
    IcsFreeBusy.set_customProperties
      (<[name prop := value prop]> <$> IcsFreeBusy.customProperties freebusy)
      freebusy
  else freebusy.

Definition freebusyProperty (freebusy : IcsFreeBusy.t) (prop : Property)
  : IcsFreeBusy.t :=
  switch (name prop) freebusyCases freebusyDefault prop freebusy.

Definition parseFreebusyBlock (block : ComponentBlock) : IcsFreeBusy.t :=
  let freebusy :=
    foldl freebusyProperty
      (IcsFreeBusy.mk None None None None None (Some []) (Some ∅))
      (properties block) in
  let freebusy :=
    IcsFreeBusy.set_customProperties
      (deleteIfNoKeys (IcsFreeBusy.customProperties freebusy)) freebusy in
  IcsFreeBusy.set_freebusy (deleteIfEmpty (IcsFreeBusy.freebusy freebusy))
    freebusy.

(** [`${prop.name}:${prop.value}`]. *)
Definition propertyLine (prop : Property) : string :=
  name prop +:+ ":" +:+ value prop.

(** The first loop of [parseTimezoneBlock]: the last TZID wins. *)
Definition timezoneTzid (props : list Property) : string :=
  foldl (fun tzid prop =>
           if String.eqb (name prop) "TZID" then value prop else tzid)
    "" props.

Definition parseTimezoneBlock (block : ComponentBlock) : IcsTimezone :=
  let properties1 := propertyLine <$> properties block in
  let properties2 :=
    foldl (fun lines subComp =>
             (lines ++ ["BEGIN:" +:+ type subComp])
               ++ (propertyLine <$> properties subComp)
               ++ ["END:" +:+ type subComp])
      properties1 (subComponents block) in
  {| tzid := timezoneTzid (properties block);
     tz_rawData := Js.join properties2 (String Js.LF EmptyString) |}.

(** The cases of the first switch of [parseCalendarBlock]. *)
Definition calendarCases
  : list (string * (Property -> IcsCalendar.t -> IcsCalendar.t)) :=
  [ ("VERSION", fun prop => IcsCalendar.set_version (Some (value prop)));
    ("PRODID", fun prop => IcsCalendar.set_prodid (Some (value prop)));
    ("CALSCALE", fun prop => IcsCalendar.set_calscale (Some (value prop)));
    ("METHOD", fun prop => IcsCalendar.set_method (Some (value prop)));
    ("X-WR-CALNAME", fun prop => IcsCalendar.set_calname (Some (value prop)));
    ("X-WR-CALDESC", fun prop => IcsCalendar.set_caldesc (Some (value prop)));
    ("X-WR-TIMEZONE",
      fun prop => IcsCalendar.set_timezone (Some (value prop)));
    ("X-PUBLISHED-TTL",
      fun prop => IcsCalendar.set_refreshInterval (Some (value prop)));
    ("REFRESH-INTERVAL",
      fun prop => IcsCalendar.set_refreshInterval (Some (value prop))) ].

Definition calendarDefault (prop : Property) (calendar : IcsCalendar.t)
  : IcsCalendar.t :=
  if Js.startsWith (name prop) "X-" then
    IcsCalendar.set_customProperties
      (<[name prop := value prop]> (IcsCalendar.customProperties calendar))
      calendar
  else calendar.

Definition calendarProperty (calendar : IcsCalendar.t) (prop : Property)
  : IcsCalendar.t :=
  switch (name prop) calendarCases calendarDefault prop calendar.

Definition calendarInit : IcsCalendar.t :=
  IcsCalendar.mk None None None None None None None None [] [] [] [] [] ∅ [].

Section Parser.

Context (ext : Externals).

(** The cases of the second switch of [parseCalendarBlock].  Of the five
    mappers only [parseEventBlock] can throw. *)
Definition subComponentCases (debug : bool)
  : list (string * (ComponentBlock -> IcsCalendar.t -> IO IcsCalendar.t)) :=
  [ ("VEVENT",
      fun subComponent calendar =>
        match parseEventBlock ext subComponent with
        | Return event =>
            mret (IcsCalendar.set_events
                    (IcsCalendar.events calendar ++ [event]) calendar)
        | Throw error =>
            when debug
              (print (console_warn
                        ("Failed to parse event: " +:+ errorMessage error)));;
            mret calendar
        end);
    ("VTODO",
      fun subComponent calendar =>
        let todo := parseTodoBlock subComponent in
        mret (IcsCalendar.set_todos
                (IcsCalendar.todos calendar ++ [todo]) calendar));
    ("VJOURNAL",
      fun subComponent calendar =>
        let journal := parseJournalBlock subComponent in
        mret (IcsCalendar.set_journals
                (IcsCalendar.journals calendar ++ [journal]) calendar));
    ("VFREEBUSY",
      fun subComponent calendar =>
        let freebusy := parseFreebusyBlock subComponent in
        mret (IcsCalendar.set_freebusys
                (IcsCalendar.freebusys calendar ++ [freebusy]) calendar));
    ("VTIMEZONE",
      fun subComponent calendar =>
        let timezone := parseTimezoneBlock subComponent in
        mret (IcsCalendar.set_timezones
                (IcsCalendar.timezones calendar ++ [timezone]) calendar)) ].

Definition subComponentDefault (subComponent : ComponentBlock)
    (calendar : IcsCalendar.t) : IO IcsCalendar.t :=
  mret (IcsCalendar.set_unparsedComponents
          (IcsCalendar.unparsedComponents calendar
             ++ [ {| unparsed_type := type subComponent;
                     unparsed_rawData := JSON_stringify ext subComponent |} ])
          calendar).

Definition calendarSubComponent (debug : bool) (subComponent : ComponentBlock)
    (calendar : IcsCalendar.t) : IO IcsCalendar.t :=
  switch (type subComponent) (subComponentCases debug) subComponentDefault
    subComponent calendar.

Definition parseCalendarBlock (block : ComponentBlock) (debug : bool)
  : IO (Completion IcsCalendar.t) :=
  let calendar := foldl calendarProperty calendarInit (properties block) in
  calendar ← forOf (calendarSubComponent debug) (subComponents block) calendar;
  mret (icsCalendarSchema_parse ext calendar).

End Parser.

(** *** [parseIntoBlocks]

    The blocks are objects: [blocks], [stack] and the [subComponents] of a
    parent hold references to them, and a block is filled after it was
    linked.  [store] holds the objects, a reference is an index into it. *)

Abbreviation ref := nat (only parsing).

Record BlockObject := mkBlockObject {
  obj_type : string;
  obj_properties : list Property;
  obj_subComponents : list ref
}.

Record Builder := mkBuilder {
  store : list BlockObject;
  blocks : list ref;
  stack : list ref
}.

Definition builderInit : Builder :=
  {| store := []; blocks := []; stack := [] |}.

(** [block.subComponents.push(newBlock)] and
    [block.properties.push(property)] on the object behind a reference. *)
Definition pushSubComponent (newBlock : ref) (o : BlockObject) : BlockObject :=
  {| obj_type := obj_type o; obj_properties := obj_properties o;
     obj_subComponents := obj_subComponents o ++ [newBlock] |}.
Definition pushProperty (property : Property) (o : BlockObject)
  : BlockObject :=
  {| obj_type := obj_type o;
     obj_properties := obj_properties o ++ [property];
     obj_subComponents := obj_subComponents o |}.

(** [block.type] through a reference; the references the builder holds
    are all allocated. *)
Definition typeOf (st : list BlockObject) (r : ref) : string :=
  match st !! r with Some o => obj_type o | None => "" end.

Definition getLastOnStack (b : Builder) : Completion ref :=
  match last (stack b) with
  | Some lastItem => Return lastItem
  | None => Throw (TypeError "Received falsy component block in stack!")
  end.

(** The [try] block of the loop of [parseIntoBlocks], for the trimmed
    [line] at index [i]. *)
Definition blockLine (i : nat) (line : string) (b : Builder)
  : Completion Builder :=
  if Js.startsWith line "BEGIN:" then
    let componentType := Js.substringFrom line 6 in
    let newBlock : ref := length (store b) in
    let store1 :=
      store b ++ [ {| obj_type := componentType; obj_properties := [];
                      obj_subComponents := [] |} ] in
    b1 ← (if bool_decide (length (stack b) = 0) then
             Return {| store := store1; blocks := blocks b ++ [newBlock];
                       stack := stack b |}
           else
             parent ← getLastOnStack b;
             Return {| store := alter (pushSubComponent newBlock) parent store1;
                       blocks := blocks b; stack := stack b |});
    Return {| store := store b1; blocks := blocks b1;
              stack := stack b1 ++ [newBlock] |}
  else if Js.startsWith line "END:" then
    let componentType := Js.substringFrom line 4 in
    if bool_decide (length (stack b) = 0) then
      Throw (Error ("Unexpected END:" +:+ componentType +:+ " at line "
                      +:+ Js.ofNat (i + 1)))
    else
      currentBlock ← getLastOnStack b;
      if negb (String.eqb (typeOf (store b) currentBlock) componentType) then
        Throw (Error ("Mismatched component: expected END:"
                        +:+ typeOf (store b) currentBlock +:+ ", got END:"
                        +:+ componentType +:+ " at line " +:+ Js.ofNat (i + 1)))
      else
        Return {| store := store b; blocks := blocks b;
                  stack := removelast (stack b) |}
  else
    if bool_decide (length (stack b) = 0) then
      Throw (Error ("Property outside of component at line "
                      +:+ Js.ofNat (i + 1) +:+ ": " +:+ line))
    else
      property ← parsePropertyLine line;
      top ← getLastOnStack b;
      Return {| store := alter (pushProperty property) top (store b);
                blocks := blocks b; stack := stack b |}.

(** The loop of [parseIntoBlocks] from index [i]: a line that throws is
    skipped and leaves the builder as it was. *)
Fixpoint blockLoop (debug : bool) (lines : list string) (i : nat) (b : Builder)
  : IO Builder :=
  match lines with
  | [] => mret b
  | raw_line :: rest =>
      if Js.isEmpty raw_line then blockLoop debug rest (S i) b
      else
        let line := Js.trim raw_line in
        if Js.isEmpty line then blockLoop debug rest (S i) b
        else
          match blockLine i line b with
          | Return b' => blockLoop debug rest (S i) b'
          | Throw error =>
              when debug
                (print (console_warn
                          ("Warning at line " +:+ Js.ofNat (i + 1) +:+ ": "
                             +:+ errorMessage error)));;
              blockLoop debug rest (S i) b
          end
  end.

(** The [ComponentBlock] behind a reference, read to the depth [fuel]. *)
Fixpoint readBlock (fuel : nat) (st : list BlockObject) (r : ref)
  : ComponentBlock :=
  match fuel, st !! r with
  | S fuel', Some o =>
      Block (obj_type o) (obj_properties o)
        (readBlock fuel' st <$> obj_subComponents o)
  | _, _ => Block "" [] []
  end.

Definition parseIntoBlocks (lines : list string) (debug : bool)
  : IO (Completion (list ComponentBlock)) :=
  b ← blockLoop debug lines 0 builderInit;
  if bool_decide (0 < length (stack b)) then
    mret (Throw (Error ("Unclosed components: "
                          +:+ Js.join (typeOf (store b) <$> stack b) ", ")))
  else
    mret (Return (readBlock (length (store b)) (store b) <$> blocks b)).

(** *** [formatEventSummary], for the trace *)

(** [if (s)] on an optional string: there and not empty. *)
Definition truthy (s : option string) : bool :=
  match s with
  | Some s' => negb (Js.isEmpty s')
  | None => false
  end.

(** [`${s}`] on an optional string. *)
Definition template (s : option string) : string := default "undefined" s.

Definition formatEventSummary (event : IcsEvent.t) : string :=
  let parts : list string := [] in
  let parts :=
    if truthy (IcsEvent.summary event)
    then parts ++ ["Title: " +:+ template (IcsEvent.summary event)]
    else parts in
  let parts :=
    if truthy (IcsEvent.dtstart event)
    then parts
           ++ ["Start: " +:+ formatIcsDate (template (IcsEvent.dtstart event))]
    else parts in
  let parts :=
    if truthy (IcsEvent.dtend event)
    then parts ++ ["End: " +:+ formatIcsDate (template (IcsEvent.dtend event))]
    else if truthy (IcsEvent.duration event)
    then parts ++ ["Duration: " +:+ template (IcsEvent.duration event)]
    else parts in
  let parts :=
    if truthy (IcsEvent.location event)
    then parts ++ ["Location: " +:+ template (IcsEvent.location event)]
    else parts in
  let parts :=
    if truthy (IcsEvent.description event) then
      let description := template (IcsEvent.description event) in
      let truncatedDesc :=
        if bool_decide (100 < Js.length description)
        then Js.substring description 0 100 +:+ "..."
        else description in
      parts ++ ["Description: " +:+ truncatedDesc]
    else parts in
  let parts :=
    match IcsEvent.organizer event with
    | Some organizer =>
        if negb (Js.isEmpty (email organizer)) then
          let organizerName :=
            if truthy (commonName organizer)
            then template (commonName organizer) else email organizer in
          parts ++ ["Organizer: " +:+ organizerName]
        else parts
    | None => parts
    end in
  let parts :=
    match IcsEvent.attendee event with
    | Some attendee =>
        if bool_decide (0 < length attendee)
        then parts ++ ["Attendees: " +:+ Js.ofNat (length attendee)]
        else parts
    | None => parts
    end in
  let parts :=
    if truthy (IcsEvent.status event)
    then parts ++ ["Status: " +:+ template (IcsEvent.status event)]
    else parts in
  let parts :=
    if truthy (IcsEvent.rrule event)
    then parts ++ ["Recurring: " +:+ template (IcsEvent.rrule event)]
    else parts in
  Js.join parts (String Js.LF "  ").

(** *** [parseIcsData] *)

(** ["\n" + "=".repeat(50) + "\n"]. *)
Definition separator : string :=
  String Js.LF (Js.repeat "=" 50 +:+ String Js.LF EmptyString).

(** The three arrays of [parseIcsData]. *)
Record Collected := mkCollected {
  col_calendars : list IcsCalendar.t;
  col_errors : list string;
  col_warnings : list string
}.

Section Main.

Context (ext : Externals).

(** [// Step 3: Process each VCALENDAR block], the body of the loop. *)
Definition rootBlock (debug : bool) (block : ComponentBlock) (c : Collected)
  : IO Collected :=
  if String.eqb (type block) "VCALENDAR" then
    r ← parseCalendarBlock ext block debug;
    match r with
    | Return calendar =>
        mret {| col_calendars := col_calendars c ++ [calendar];
                col_errors := col_errors c;
                col_warnings := col_warnings c |}
    | Throw error =>
        let errorMsg := "Failed to parse calendar: " +:+ errorMessage error in
        when debug (print (console_error errorMsg));;
        mret {| col_calendars := col_calendars c;
                col_errors := col_errors c ++ [errorMsg];
                col_warnings := col_warnings c |}
    end
  else
    mret {| col_calendars := col_calendars c;
            col_errors := col_errors c;
            col_warnings :=
              col_warnings c ++ ["Unexpected root component: " +:+ type block]
         |}.

(** [// Step 4: Calculate metadata]. *)
Definition calculateMetadata (c : Collected) : Metadata :=
  let calendars := col_calendars c in
  {| totalEvents :=
       foldl (fun sum cal => sum + length (IcsCalendar.events cal)) 0
         calendars;
     totalTodos :=
       foldl (fun sum cal => sum + length (IcsCalendar.todos cal)) 0 calendars;
     totalJournals :=
       foldl (fun sum cal => sum + length (IcsCalendar.journals cal)) 0
         calendars;
     totalFreebusys :=
       foldl (fun sum cal => sum + length (IcsCalendar.freebusys cal)) 0
         calendars;
     totalTimezones :=
       foldl (fun sum cal => sum + length (IcsCalendar.timezones cal)) 0
         calendars;
     parseErrors := col_errors c;
     parseWarnings := col_warnings c |}.

(** The trace [Human-readable events:]. *)
Definition printEvent (event : IcsEvent.t) (eventIndex : nat) : IO unit :=
  print (console_log
           (String Js.LF ("  Event " +:+ Js.ofNat (eventIndex + 1) +:+ ":")));;
  print (console_log ("    UID: " +:+ template (IcsEvent.uid event)));;
  print (console_log
           ("    " +:+ Js.join (Js.split (formatEventSummary event) Js.LF)
                         (String Js.LF "    "))).

Definition printCalendar (calendar : IcsCalendar.t) (calIndex : nat)
  : IO unit :=
  print (console_log
           (String Js.LF ("Calendar " +:+ Js.ofNat (calIndex + 1) +:+ ":")));;
  print (console_log
           ("  Product ID: " +:+ template (IcsCalendar.prodid calendar)));;
  print (console_log
           ("  Version: " +:+ template (IcsCalendar.version calendar)));;
  (if truthy (IcsCalendar.calname calendar)
   then print (console_log
                 ("  Name: " +:+ template (IcsCalendar.calname calendar)))
   else mret tt);;
  (if truthy (IcsCalendar.caldesc calendar)
   then print (console_log
                 ("  Description: "
                    +:+ template (IcsCalendar.caldesc calendar)))
   else mret tt);;
  print (console_log
           (String Js.LF
              ("Events (" +:+ Js.ofNat (length (IcsCalendar.events calendar))
                          +:+ "):")));;
  forEach printEvent (IcsCalendar.events calendar) 0.

(** [parseIcsData]: the promise it returns, settled.  In the [try] block
    only [parseIntoBlocks] can throw to the outer [catch], and it is called
    before anything is pushed on [errors] and [warnings]. *)
Definition parseIcsData (data : string) (debug : bool)
  : IO (Completion ParsedIcsData) :=
  let errors : list string := [] in
  let warnings : list string := [] in
  let calendars : list IcsCalendar.t := [] in
  when debug
    (print (console_log "Raw ICS data:");;
     print (console_log data);;
     print (console_log separator));;
  let lines := unfoldLines data in
  when debug
    (print (console_log "Unfolded lines:");;
     forEach (fun line index =>
                print (console_log (Js.ofNat (index + 1) +:+ ": " +:+ line)))
       lines 0;;
     print (console_log separator));;
  thrown ← parseIntoBlocks lines debug;
  match thrown with
  | Return rootBlocks =>
      when debug
        (print (console_log "Parsed component blocks:");;
         print (console_log_blocks rootBlocks);;
         print (console_log separator));;
      c ← forOf (rootBlock debug) rootBlocks
            {| col_calendars := calendars; col_errors := errors;
               col_warnings := warnings |};
      let metadata := calculateMetadata c in
      let result := {| calendars := col_calendars c; metadata := metadata |} in
      when debug
        (print (console_log "Final parsed result:");;
         print (console_log_result result);;
         print (console_log separator);;
         print (console_log "Human-readable events:");;
         forEach printCalendar (col_calendars c) 0);;
      mret (Return result)
  | Throw error =>
      let errorMsg := "Critical parsing error: " +:+ errorMessage error in
      let errors := errors ++ [errorMsg] in
      mret (Return {| calendars := [];
                      metadata :=
                        {| totalEvents := 0; totalTodos := 0;
                           totalJournals := 0; totalFreebusys := 0;
                           totalTimezones := 0; parseErrors := errors;
                           parseWarnings := warnings |} |})
  end.

End Main.

(** ** [src/utils/icsUtils.ts]: dates and formats *)

(** The calls that make the [Date] of [parseIcsDate]: [new Date(y, m, d)],
    [new Date(y, m, d, h, min, s)] and
    [new Date(Date.UTC(y, m, d, h, min, s))].  What the library makes of
    the numbers is not part of the program. *)
Inductive DateCall :=
| new_Date_3 (year month day : Js.number)
| new_Date_6 (year month day hour minute second : Js.number)
| new_Date_UTC (year month day hour minute second : Js.number).

(** [n - 1] on a number. *)
Definition minus1 (n : Js.number) : Js.number :=
  match n with
  | Js.NaN => Js.NaN
  | Js.Int z => Js.Int (z - 1)
  end.

Definition parseIcsDate (dateString : string) : Completion DateCall :=
  if Js.isEmpty dateString then Throw (Error "Empty date string")
  else if Js.length dateString =? 8 then
    let year := Js.parseInt (Js.substring dateString 0 4) in
    let month := minus1 (Js.parseInt (Js.substring dateString 4 6)) in
    let day := Js.parseInt (Js.substring dateString 6 8) in
    Return (new_Date_3 year month day)
  else if 15 <=? Js.length dateString then
    let year := Js.parseInt (Js.substring dateString 0 4) in
    let month := minus1 (Js.parseInt (Js.substring dateString 4 6)) in
    let day := Js.parseInt (Js.substring dateString 6 8) in
    let hour := Js.parseInt (Js.substring dateString 9 11) in
    let minute := Js.parseInt (Js.substring dateString 11 13) in
    let second := Js.parseInt (Js.substring dateString 13 15) in
    if Js.endsWithChar dateString "Z"%char then
      Return (new_Date_UTC year month day hour minute second)
    else
      Return (new_Date_6 year month day hour minute second)
  else Throw (Error ("Invalid date format: " +:+ dateString)).

(** [/^\d{8}(T\d{6}Z?)?$/.test(value)]. *)
Definition dateOrDateTimeFormat (value : string) : bool :=
  match digitsExactly 8 value with
  | Some EmptyString => true
  | Some (String "T"%char r) =>
      match digitsExactly 6 r with
      | Some EmptyString => true
      | Some (String "Z"%char EmptyString) => true
      | _ => false
      end
  | _ => false
  end.

(** [isNaN(n)], [n >= k] and [n <= k]: a comparison with [NaN] is false. *)
Definition isNaN (n : Js.number) : bool :=
  match n with Js.NaN => true | Js.Int _ => false end.
Definition atLeast (n : Js.number) (k : Z) : bool :=
  match n with Js.NaN => false | Js.Int z => (k <=? z)%Z end.
Definition atMost (n : Js.number) (k : Z) : bool :=
  match n with Js.NaN => false | Js.Int z => (z <=? k)%Z end.

(** [array.includes(value)] on an array of strings. *)
Definition includes (array : list string) (value : string) : bool :=
  existsb (String.eqb value) array.

Definition validatePropertyFormat (name value : string) : bool :=
  switch name
    [ ("DTSTART", dateOrDateTimeFormat value);
      ("DTEND", dateOrDateTimeFormat value);
      ("DTSTAMP", dateOrDateTimeFormat value);
      ("CREATED", dateOrDateTimeFormat value);
      ("LAST-MODIFIED", dateOrDateTimeFormat value);
      ("PRIORITY",
        let priority := Js.parseInt value in
        negb (isNaN priority) && atLeast priority 0 && atMost priority 9);
      ("SEQUENCE",
        let sequence := Js.parseInt value in
        negb (isNaN sequence) && atLeast sequence 0);
      ("STATUS", includes ["TENTATIVE"; "CONFIRMED"; "CANCELLED"] value);
      ("CLASS", includes ["PUBLIC"; "PRIVATE"; "CONFIDENTIAL"] value);
      ("TRANSP", includes ["OPAQUE"; "TRANSPARENT"] value) ]
    true.

(** ** [src/types/ParsedIcsData.ts] *)

(** A count, as a number. *)
Definition count (n : nat) : Js.number := Js.Int (Z.of_nat n).

Definition parsedIcsDataSchema (ext : Externals) (data : ParsedIcsData)
  : bool :=
  forallb (icsCalendarSchema ext) (calendars data)
  && z_int_min 0 (count (totalEvents (metadata data)))
  && z_int_min 0 (count (totalTodos (metadata data)))
  && z_int_min 0 (count (totalJournals (metadata data)))
  && z_int_min 0 (count (totalFreebusys (metadata data)))
  && z_int_min 0 (count (totalTimezones (metadata data)))
  && forallb z_string (parseErrors (metadata data))
  && forallb z_string (parseWarnings (metadata data)).

(** * The vocabulary of the properties *)

(** The code unit [c] occurs in [s]. *)
Definition occurs (c : ascii) (s : string) : Prop :=
  exists pre post, s = pre +:+ String c post.

(** Modelled from the spec: the encoding the round trip of C4 starts from
    (the repository has no encoder): newline, carriage return, tab,
    semicolon and comma are written as a backslash and [n], [r], [t], [;],
    [,], and a backslash is doubled. *)
Fixpoint escapeValue (value : string) : string :=
  match value with
  | EmptyString => EmptyString
  | String c rest =>
      (if Ascii.eqb c Js.LF then "\n"
       else if Ascii.eqb c Js.CR then "\r"
       else if Ascii.eqb c Js.TAB then "\t"
       else if Ascii.eqb c ";" then "\;"
       else if Ascii.eqb c "," then "\,"
       else if Ascii.eqb c Js.BACKSLASH then "\\"
       else String c EmptyString) +:+ escapeValue rest
  end.

(** The line [L] folded at the offset [i]: CR LF and a space are put in. *)
Definition foldAt (i : nat) (L : string) : string :=
  Js.take i L
    +:+ String Js.CR (String Js.LF (String Js.SP EmptyString))
    +:+ Js.drop i L.

(** The five counts of [r] are the sums, over its calendars, of the
    lengths of the five sequences. *)
Definition countsAreSums (r : ParsedIcsData) : Prop :=
  totalEvents (metadata r)
  = sum_list_with (fun cal => length (IcsCalendar.events cal)) (calendars r)
  /\ totalTodos (metadata r)
     = sum_list_with (fun cal => length (IcsCalendar.todos cal)) (calendars r)
  /\ totalJournals (metadata r)
     = sum_list_with (fun cal => length (IcsCalendar.journals cal))
         (calendars r)
  /\ totalFreebusys (metadata r)
     = sum_list_with (fun cal => length (IcsCalendar.freebusys cal))
         (calendars r)
  /\ totalTimezones (metadata r)
     = sum_list_with (fun cal => length (IcsCalendar.timezones cal))
         (calendars r).

(** The builder of [parseIntoBlocks] once the lines of [data] are read. *)
Definition builderAtEnd (data : string) : Builder :=
  fst (blockLoop false (unfoldLines data) 0 builderInit).

(** The types of the components [data] leaves open, outermost first. *)
Definition unclosedComponents (data : string) : list string :=
  typeOf (store (builderAtEnd data)) <$> stack (builderAtEnd data).

(** The line ending of a document. *)
Definition CRLF : string := String Js.CR (String Js.LF EmptyString).

(** One VCALENDAR with one VEVENT. *)
Definition teamMeetingDocument : string :=
  Js.join
    [ "BEGIN:VCALENDAR"; "VERSION:2.0"; "PRODID:-//example//calendar//EN";
      "BEGIN:VEVENT"; "UID:a@b"; "DTSTAMP:20231201T120000Z";
      "DTSTART:20231215T140000Z"; "DTEND:20231215T150000Z";
      "SUMMARY:Team Meeting"; "END:VEVENT"; "END:VCALENDAR" ] CRLF.

(** A VCALENDAR holding a VEVENT with no END:VEVENT. *)
Definition unclosedEventDocument : string :=
  Js.join
    [ "BEGIN:VCALENDAR"; "VERSION:2.0"; "PRODID:-//example//calendar//EN";
      "BEGIN:VEVENT"; "UID:a@b"; "DTSTAMP:20231201T120000Z";
      "SUMMARY:Team Meeting"; "END:VCALENDAR" ] CRLF.

(** The labels of the switch of [parseEventBlock]. *)
Definition eventFieldNames : list string := fst <$> eventCases.

(** The block has a property of the name [n]. *)
Definition hasProperty (n : string) (block : ComponentBlock) : Prop :=
  exists prop, prop ∈ properties block /\ name prop = n.

(** The value a completion returned, if it returned. *)
Definition returned {A} (c : Completion A) : option A :=
  match c with Return a => Some a | Throw _ => None end.

(** A warning of [parseIcsData]: the note on a root block that is not a
    VCALENDAR. *)
Definition rootWarning (w : string) : Prop :=
  exists t : string, w = "Unexpected root component: " +:+ t.

(** An event block with DTEND and DURATION. *)
Definition dtendAndDurationEvent : ComponentBlock :=
  Block "VEVENT"
    [ {| name := "UID"; parameters := ∅; value := "a@b" |};
      {| name := "DTSTAMP"; parameters := ∅; value := "20231201T120000Z" |};
      {| name := "DTEND"; parameters := ∅; value := "20231215T150000Z" |};
      {| name := "DURATION"; parameters := ∅; value := "PT1H" |} ]
    [].

(** A calendar of two events, the first with DTEND and DURATION. *)
Definition dtendAndDurationDocument : string :=
  Js.join
    [ "BEGIN:VCALENDAR"; "VERSION:2.0"; "PRODID:-//example//calendar//EN";
      "BEGIN:VEVENT"; "UID:a@b"; "DTSTAMP:20231201T120000Z";
      "DTEND:20231215T150000Z"; "DURATION:PT1H"; "END:VEVENT";
      "BEGIN:VEVENT"; "UID:c@d"; "DTSTAMP:20231201T120000Z"; "END:VEVENT";
      "END:VCALENDAR" ] CRLF.

(** A calendar of one event with the line [CATEGORIES:Work\,Fun,Travel]. *)
Definition categoriesDocument : string :=
  Js.join
    [ "BEGIN:VCALENDAR"; "VERSION:2.0"; "PRODID:-//example//calendar//EN";
      "BEGIN:VEVENT"; "UID:a@b"; "DTSTAMP:20231201T120000Z";
      "CATEGORIES:Work\,Fun,Travel"; "END:VEVENT"; "END:VCALENDAR" ] CRLF.

(** The references on the stack are allocated, and the sub-components of
    an object were allocated after it. *)
Definition wellFormed (b : Builder) : Prop :=
  Forall (fun r => r < length (store b)) (stack b)
  /\ forall r o, store b !! r = Some o ->
       Forall (fun k => r < k < length (store b)) (obj_subComponents o).

(** The properties of the name [n], in order. *)
Definition named (n : string) (props : list Property) : list Property :=
  filter (fun prop => name prop = n) props.

(** The value of the last property of the name [n], if there is one. *)
Definition lastValue (n : string) (props : list Property) : option string :=
  value <$> last (named n props).

(** [parsePersonProperty] on a property. *)
Definition personOf (prop : Property) : Person :=
  parsePersonProperty (value prop) (parameters prop).

(** An array as a mapper leaves it: absent when it would be empty. *)
Definition nonEmpty {A} (l : list A) : option (list A) :=
  match l with [] => None | _ => Some l end.

(** The values of a property that holds a comma-separated list. *)
Definition listValue (prop : Property) : list string :=
  splitCommaSeparated (value prop).

(** The entry of the key [k] in an optional dictionary. *)
Definition entry (k : string) (m : option (gmap string string))
  : option string :=
  m ≫= (fun m' => m' !! k).

(** The sub-components of the type [t], in order. *)
Definition ofType (t : string) (subs : list ComponentBlock)
  : list ComponentBlock :=
  filter (fun b => type b = t) subs.

(** The types the calendar mapper has a case for. *)
Definition knownTypes : list string :=
  ["VEVENT"; "VTODO"; "VJOURNAL"; "VFREEBUSY"; "VTIMEZONE"].

(** The record kept for a sub-component of another type. *)
Definition unparsedOf (ext : Externals) (b : ComponentBlock)
  : UnparsedComponent :=
  {| unparsed_type := type b; unparsed_rawData := JSON_stringify ext b |}.

(** The object [parseCalendarBlock] hands to the schema. *)
Definition calendarCandidate (ext : Externals) (debug : bool)
    (block : ComponentBlock) : IcsCalendar.t :=
  fst (forOf (calendarSubComponent ext debug) (subComponents block)
         (foldl calendarProperty calendarInit (properties block))).

(** The event of an event block, when the schema accepts it. *)
Definition eventOf (ext : Externals) (b : ComponentBlock)
  : option IcsEvent.t :=
  returned (parseEventBlock ext b).

(** The names of the two properties read as the refresh interval. *)
Definition isRefreshInterval (n : string) : bool :=
  String.eqb n "X-PUBLISHED-TTL" || String.eqb n "REFRESH-INTERVAL".

(** The names under which [parseCalendarBlock] keeps a custom property:
    they start with [X-] and are not the label of a case. *)
Definition isCalendarCustom (n : string) : bool :=
  Js.startsWith n "X-"
  && negb (existsb (String.eqb n) (fst <$> calendarCases)).

(** The last property whose name [own] picks. *)
Definition lastOwn (own : string -> bool) (props : list Property)
  : option Property :=
  last (filter (fun p => own (name p) = true) props).

(** What decides whether the calendar schema accepts a VCALENDAR block: its
    VERSION, PRODID, CALSCALE and METHOD, and its todos, journals and
    freebusys. *)
Definition calendarAccepted (block : ComponentBlock) : bool :=
  let props := properties block in
  let subs := subComponents block in
  required versionSchema (lastValue "VERSION" props)
  && required prodidSchema (lastValue "PRODID" props)
  && optional calscaleSchema (lastValue "CALSCALE" props)
  && optional methodSchema (lastValue "METHOD" props)
  && forallb icsTodoSchema (parseTodoBlock <$> ofType "VTODO" subs)
  && forallb icsJournalSchema (parseJournalBlock <$> ofType "VJOURNAL" subs)
  && forallb icsFreebusySchema
       (parseFreebusyBlock <$> ofType "VFREEBUSY" subs).

(** The objects the todo, journal and free/busy mappers start from. *)
Definition todoInit : IcsTodo.t :=
  IcsTodo.mk None None None None None None None None None (Some ∅).
Definition journalInit : IcsJournal.t :=
  IcsJournal.mk None None None None None (Some ∅).
Definition freebusyInit : IcsFreeBusy.t :=
  IcsFreeBusy.mk None None None None None (Some []) (Some ∅).

(** The calendar of a root block, when [parseCalendarBlock] returns one. *)
Definition calendarOf (ext : Externals) (debug : bool) (b : ComponentBlock)
  : option IcsCalendar.t :=
  returned (fst (parseCalendarBlock ext b debug)).

(** The error [parseIcsData] records for a root block on which
    [parseCalendarBlock] throws. *)
Definition calendarError (ext : Externals) (debug : bool)
    (b : ComponentBlock) : option string :=
  match fst (parseCalendarBlock ext b debug) with
  | Return _ => None
  | Throw error => Some ("Failed to parse calendar: " +:+ errorMessage error)
  end.

(** The warning [parseIcsData] records for a root block of another type. *)
Definition unexpectedRoot (b : ComponentBlock) : string :=
  "Unexpected root component: " +:+ type b.

(** The externals of the examples: every address and URL passes, and the
    texts are empty. *)
Definition plainExternals : Externals :=
  mkExternals (fun _ => true) (fun _ => true) (fun _ => EmptyString)
    (fun _ => EmptyString) (fun _ => EmptyString).

(** The completion is a thrown [TypeError]. *)
Definition isTypeError {A} (c : Completion A) : bool :=
  match c with Throw (TypeError _) => true | _ => false end.

(** The text of [lines], each one ended by [eol]. *)
Definition terminated (eol : string) (lines : list string) : string :=
  foldr (fun line rest => line +:+ eol +:+ rest) EmptyString lines.

(** A content line: it has no line-break character, it is not blank, and
    it does not start with a space or a tab. *)
Definition contentLine (line : string) : Prop :=
  ~ occurs Js.CR line /\ ~ occurs Js.LF line
  /\ Js.isEmpty (Js.trim line) = false
  /\ Js.startsWith line " " = false
  /\ Js.startsWith line (String Js.TAB EmptyString) = false.

(** The text starts with a space or a tab. *)
Definition startsFold (s : string) : bool :=
  match s with
  | String c _ => Ascii.eqb c Js.SP || Ascii.eqb c Js.TAB
  | EmptyString => false
  end.

(** The code unit [a] stands immediately before [b] somewhere in [s]. *)
Fixpoint follows (a b : ascii) (s : string) : bool :=
  match s with
  | EmptyString => false
  | String c rest =>
      (Ascii.eqb c a
       && match rest with
          | String d _ => Ascii.eqb d b
          | EmptyString => false
          end)
      || follows a b rest
  end.

(** The text of [value] with each code unit written as [enc] gives it. *)
Fixpoint encodeWith (enc : ascii -> string) (value : string) : string :=
  match value with
  | EmptyString => EmptyString
  | String c rest => enc c +:+ encodeWith enc rest
  end.

(** The encoding of [escapeValue] once the first [k] replacements of
    [unescapeValue] are made: line feed, carriage return, tab, semicolon
    and comma, in this order, are no longer escaped. *)
Definition encodeChar (k : nat) (c : ascii) : string :=
  if Ascii.eqb c Js.LF then (if k <? 1 then "\n" else String c EmptyString)
  else if Ascii.eqb c Js.CR then
    (if k <? 2 then "\r" else String c EmptyString)
  else if Ascii.eqb c Js.TAB then
    (if k <? 3 then "\t" else String c EmptyString)
  else if Ascii.eqb c ";" then
    (if k <? 4 then "\;" else String c EmptyString)
  else if Ascii.eqb c "," then
    (if k <? 5 then "\," else String c EmptyString)
  else if Ascii.eqb c Js.BACKSLASH then "\\"
  else String c EmptyString.

(** The segments between the commas of [value], each one trimmed. *)
Definition segments (value : string) : list string :=
  Js.trim <$> Js.split value ",".

(** The numbers of the call are integers: none is [NaN]. *)
Definition allIntegers (call : DateCall) : bool :=
  match call with
  | new_Date_3 y m d => negb (isNaN y) && negb (isNaN m) && negb (isNaN d)
  | new_Date_6 y m d h mi sec | new_Date_UTC y m d h mi sec =>
      negb (isNaN y) && negb (isNaN m) && negb (isNaN d)
      && negb (isNaN h) && negb (isNaN mi) && negb (isNaN sec)
  end.

(** The call reads the numbers as a time in UTC. *)
Definition isUTC (call : DateCall) : bool :=
  match call with new_Date_UTC _ _ _ _ _ _ => true | _ => false end.

(** The names of the properties that [validatePropertyFormat] checks as a
    date or a date-time. *)
Definition dateFormatNames : list string :=
  ["DTSTART"; "DTEND"; "DTSTAMP"; "CREATED"; "LAST-MODIFIED"].

(** The property without its parameters. *)
Definition bare (prop : Property) : Property :=
  {| name := name prop; parameters := ∅; value := value prop |}.

(** The block with the parameters of its properties and of those of its
    sub-components taken away, and nothing below its sub-components. *)
Definition shallow (block : ComponentBlock) : ComponentBlock :=
  Block (type block) (bare <$> properties block)
    ((fun sub => Block (type sub) (bare <$> properties sub) [])
       <$> subComponents block).

(** An event block with a summary given twice, two attendees, two lists
    of categories and a custom property given twice. *)
Definition sampleEvent : ComponentBlock :=
  Block "VEVENT"
    [ {| name := "UID"; parameters := ∅; value := "a@b" |};
      {| name := "DTSTAMP"; parameters := ∅; value := "20231201T120000Z" |};
      {| name := "SUMMARY"; parameters := ∅; value := "Draft" |};
      {| name := "SUMMARY"; parameters := ∅; value := "Team Meeting" |};
      {| name := "PRIORITY"; parameters := ∅; value := "5" |};
      {| name := "ATTENDEE"; parameters := {[ "CN" := "Ann" ]};
         value := "mailto:ann@example.com" |};
      {| name := "ATTENDEE"; parameters := ∅; value := "bob@example.com" |};
      {| name := "CATEGORIES"; parameters := ∅; value := "Work,Fun" |};
      {| name := "CATEGORIES"; parameters := ∅; value := "Travel" |};
      {| name := "X-COLOR"; parameters := ∅; value := "red" |};
      {| name := "X-COLOR"; parameters := ∅; value := "blue" |} ]
    [].

(** A todo block with no UID. *)
Definition bareTodo : ComponentBlock :=
  Block "VTODO"
    [ {| name := "SUMMARY"; parameters := ∅; value := "Buy milk" |} ] [].

(** A calendar block with two events, one of them without UID, a todo, a
    timezone and an alarm. *)
Definition sampleCalendar : ComponentBlock :=
  Block "VCALENDAR"
    [ {| name := "VERSION"; parameters := ∅; value := "1.0" |};
      {| name := "VERSION"; parameters := ∅; value := "2.0" |};
      {| name := "PRODID"; parameters := ∅; value := "-//example//EN" |};
      {| name := "X-PUBLISHED-TTL"; parameters := ∅; value := "PT1H" |};
      {| name := "REFRESH-INTERVAL"; parameters := ∅; value := "PT2H" |};
      {| name := "X-OWNER"; parameters := ∅; value := "ann" |} ]
    [ sampleEvent;
      Block "VEVENT"
        [ {| name := "SUMMARY"; parameters := ∅; value := "No uid" |} ] [];
      Block "VTODO"
        [ {| name := "UID"; parameters := ∅; value := "t1" |};
          {| name := "DTSTAMP"; parameters := ∅; value := "today" |} ] [];
      Block "VTIMEZONE"
        [ {| name := "TZID"; parameters := ∅; value := "Europe/Paris" |} ] [];
      Block "VALARM" [] [] ].

(** A document with a calendar, an event at the root, and a calendar with
    no VERSION. *)
Definition mixedRootsDocument : string :=
  terminated CRLF
    [ "BEGIN:VCALENDAR"; "VERSION:2.0"; "PRODID:-//example//calendar//EN";
      "END:VCALENDAR";
      "BEGIN:VEVENT"; "UID:a@b"; "END:VEVENT";
      "BEGIN:VCALENDAR"; "PRODID:-//example//calendar//EN";
      "END:VCALENDAR" ].

(** A component as text: its type and, in order, its property lines and
    its sub-components. *)
Inductive Component :=
| Comp (ctype : string) (content : list (string + Component)).

(** The lines of a component: BEGIN, the content in order, END. *)
Fixpoint render (c : Component) : list string :=
  match c with
  | Comp t items =>
      ("BEGIN:" +:+ t)
        :: (fix renderItems (items : list (string + Component))
              : list string :=
              match items with
              | [] => []
              | inl line :: rest => line :: renderItems rest
              | inr sub :: rest => render sub ++ renderItems rest
              end) items
        ++ ["END:" +:+ t]
  end.

Definition renderItems : list (string + Component) -> list string :=
  fix renderItems (items : list (string + Component)) : list string :=
    match items with
    | [] => []
    | inl line :: rest => line :: renderItems rest
    | inr sub :: rest => render sub ++ renderItems rest
    end.

(** The properties of the lines of a content: a line with no colon gives
    none. *)
Definition propertiesOf (items : list (string + Component))
  : list Property :=
  omap (fun item =>
          match item with
          | inl line => returned (parsePropertyLine line)
          | inr _ => None
          end) items.

(** The block a component stands for. *)
Fixpoint parsed (c : Component) : ComponentBlock :=
  match c with
  | Comp t items =>
      Block t (propertiesOf items)
        ((fix parsedItems (items : list (string + Component))
            : list ComponentBlock :=
            match items with
            | [] => []
            | inl _ :: rest => parsedItems rest
            | inr sub :: rest => parsed sub :: parsedItems rest
            end) items)
  end.

Definition parsedItems : list (string + Component) -> list ComponentBlock :=
  fix parsedItems (items : list (string + Component))
    : list ComponentBlock :=
    match items with
    | [] => []
    | inl _ :: rest => parsedItems rest
    | inr sub :: rest => parsed sub :: parsedItems rest
    end.

(** The number of components in a component, itself included. *)
Fixpoint size (c : Component) : nat :=
  match c with
  | Comp _ items =>
      S ((fix itemsSize (items : list (string + Component)) : nat :=
            match items with
            | [] => 0
            | inl _ :: rest => itemsSize rest
            | inr sub :: rest => size sub + itemsSize rest
            end) items)
  end.

Definition itemsSize : list (string + Component) -> nat :=
  fix itemsSize (items : list (string + Component)) : nat :=
    match items with
    | [] => 0
    | inl _ :: rest => itemsSize rest
    | inr sub :: rest => size sub + itemsSize rest
    end.

(** The references of the sub-components of a content whose objects are
    allocated from [m] on. *)
Fixpoint childRefs (m : nat) (items : list (string + Component))
  : list nat :=
  match items with
  | [] => []
  | inl _ :: rest => childRefs m rest
  | inr sub :: rest => m :: childRefs (m + size sub) rest
  end.

(** The objects [parseIntoBlocks] allocates for a component, the first one
    at [m]: the component, then its sub-components in order. *)
Fixpoint layout (c : Component) (m : nat) {struct c} : list BlockObject :=
  match c with
  | Comp t items =>
      {| obj_type := t; obj_properties := propertiesOf items;
         obj_subComponents := childRefs (S m) items |}
        :: (fix layoutItems (items : list (string + Component)) (m : nat)
              {struct items} : list BlockObject :=
              match items with
              | [] => []
              | inl _ :: rest => layoutItems rest m
              | inr sub :: rest =>
                  layout sub m ++ layoutItems rest (m + size sub)
              end) items (S m)
  end.

Definition layoutItems
  : list (string + Component) -> nat -> list BlockObject :=
  fix layoutItems (items : list (string + Component)) (m : nat)
    {struct items} : list BlockObject :=
    match items with
    | [] => []
    | inl _ :: rest => layoutItems rest m
    | inr sub :: rest => layout sub m ++ layoutItems rest (m + size sub)
    end.

(** A property line as [parseIntoBlocks] takes it: trimmed, not empty, and
    not a BEGIN or END line. *)
Definition cleanLine (line : string) : bool :=
  String.eqb (Js.trim line) line && negb (Js.isEmpty line)
  && negb (Js.startsWith line "BEGIN:") && negb (Js.startsWith line "END:").

(** A component whose types end in no white space and whose lines are
    property lines. *)
Fixpoint clean (c : Component) : bool :=
  match c with
  | Comp t items =>
      String.eqb (Js.trimEnd t) t
      && (fix cleanItems (items : list (string + Component)) : bool :=
            match items with
            | [] => true
            | inl line :: rest => cleanLine line && cleanItems rest
            | inr sub :: rest => clean sub && cleanItems rest
            end) items
  end.

Definition cleanItems : list (string + Component) -> bool :=
  fix cleanItems (items : list (string + Component)) : bool :=
    match items with
    | [] => true
    | inl line :: rest => cleanLine line && cleanItems rest
    | inr sub :: rest => clean sub && cleanItems rest
    end.

(** One turn of the loop of [parseIntoBlocks], without the console: a line
    that throws leaves the builder as it was. *)
Definition lineStep (b : Builder) (raw_line : string) : Builder :=
  if Js.isEmpty raw_line then b
  else
    let line := Js.trim raw_line in
    if Js.isEmpty line then b
    else match blockLine 0 line b with
         | Return b' => b'
         | Throw _ => b
         end.

(** The object of a component once a content is read into it, the
    sub-components allocated from [m] on. *)
Definition fillObj (m : nat) (items : list (string + Component))
    (o : BlockObject) : BlockObject :=
  {| obj_type := obj_type o;
     obj_properties := obj_properties o ++ propertiesOf items;
     obj_subComponents := obj_subComponents o ++ childRefs m items |}.

(** The builder once the lines of a component are read. *)
Definition attach (c : Component) (b : Builder) : Builder :=
  {| store :=
       match last (stack b) with
       | Some parent =>
           alter (pushSubComponent (length (store b))) parent (store b)
       | None => store b
       end ++ layout c (length (store b));
     blocks :=
       if bool_decide (length (stack b) = 0)
       then blocks b ++ [length (store b)] else blocks b;
     stack := stack b |}.

(** What reading a component does to a builder whose stack is empty or
    has an allocated top. *)
Definition attaches (c : Component) : Prop :=
  forall b : Builder,
    (stack b = [] \/ exists stk r, stack b = stk ++ [r] /\ r < length (store b)) ->
    foldl lineStep b (render c) = attach c b.

(** The name of a custom property. *)
Definition isCustom (n : string) : bool := Js.startsWith n "X-".

(** The code unit is an ASCII character. *)
Definition isAsciiChar (c : ascii) : bool := (nat_of_ascii c <? 128)%nat.

(** The text is ASCII: on such a text [Js.toUpperCase] is the case mapping
    of the program, which outside ASCII also maps the letters of Latin-1
    (to code units or pairs of code units that are not those the embedding
    gives). *)
Fixpoint isAscii (s : string) : bool :=
  match s with
  | EmptyString => true
  | String c rest => isAsciiChar c && isAscii rest
  end.

(** The text [parseParameters] puts in upper case is ASCII: in each pair,
    what stands before the first equals sign. *)
Definition asciiKeys (paramString : string) : bool :=
  forallb (fun pair =>
             match Js.indexOf pair "="%char with
             | Some equalIndex => isAscii (Js.substring pair 0 equalIndex)
             | None => true
             end)
    (Js.split paramString ";"%char).

(** The number is an integer below [10^15] in absolute value, or [NaN]:
    up to there a double of the program holds every integer exactly. *)
Definition exactNumber (n : Js.number) : bool :=
  match n with
  | Js.NaN => true
  | Js.Int z => (Z.abs z <? 10 ^ 15)%Z
  end.

(** * Properties *)

(** ** Strings *)

#[local] Arguments String.append !_ _ / : simpl nomatch.

Lemma append_assoc (a b c : string) : (a +:+ b) +:+ c = a +:+ (b +:+ c).
Proof. induction a as [|x a IH]; simpl; [reflexivity | now rewrite IH]. Qed.

Lemma append_empty_r (a : string) : a +:+ EmptyString = a.
Proof. induction a as [|x a IH]; simpl; [reflexivity | now rewrite IH]. Qed.

Lemma occurs_cons (c a : ascii) (s : string) :
  occurs c (String a s) <-> a = c \/ occurs c s.
Proof.
  split.
  - intros (pre & post & H). destruct pre as [|b pre]; simpl in H.
    + left. now injection H.
    + right. injection H as _ ->. now exists pre, post.
  - intros [->|(pre & post & ->)].
    + now exists EmptyString, s.
    + now exists (String a pre), post.
Qed.

Lemma not_occurs_empty (c : ascii) : ~ occurs c EmptyString.
Proof. intros (pre & post & H). destruct pre; discriminate H. Qed.

Lemma indexOf_None_iff (s : string) (c : ascii) :
  Js.indexOf s c = None <-> ~ occurs c s.
Proof.
  induction s as [|a s IH]; simpl.
  - split; [intros _; apply not_occurs_empty | reflexivity].
  - rewrite occurs_cons. destruct (Ascii.eqb_spec a c) as [->|Hne].
    + split; [discriminate | intros H; exfalso; apply H; now left].
    + destruct (Js.indexOf s c) as [n|]; simpl.
      * split; [discriminate | intros H; exfalso].
        destruct IH as [_ IH]. 
        assert (Hs : ~ occurs c s) by tauto. now specialize (IH Hs).
      * split; [|reflexivity]. intros _ [H|H]; [now apply Hne|].
        now apply IH.
Qed.

Lemma indexOf_first (pre post : string) (c : ascii) :
  ~ occurs c pre ->
  Js.indexOf (pre +:+ String c post) c = Some (Js.length pre).
Proof.
  induction pre as [|a pre IH]; simpl; intros H.
  - now rewrite Ascii.eqb_refl.
  - rewrite occurs_cons in H. destruct (Ascii.eqb_spec a c) as [->|Hne].
    + exfalso. apply H. now left.
    + rewrite IH by tauto. reflexivity.
Qed.

Lemma take_app_length (pre post : string) :
  Js.take (Js.length pre) (pre +:+ post) = pre.
Proof. induction pre as [|a pre IH]; simpl; [now destruct post | now rewrite IH]. Qed.

Lemma drop_app_length (pre post : string) :
  Js.drop (Js.length pre) (pre +:+ post) = post.
Proof. induction pre as [|a pre IH]; simpl; [now destruct post | apply IH]. Qed.

Lemma string_length_app (a b : string) :
  Js.length (a +:+ b) = Js.length a + Js.length b.
Proof. induction a as [|x a IH]; simpl; [reflexivity | now rewrite IH]. Qed.

Lemma substring_prefix (pre post : string) :
  Js.substring (pre +:+ post) 0 (Js.length pre) = pre.
Proof.
  unfold Js.substring. rewrite string_length_app.
  replace (0 `min` _) with 0 by lia.
  replace (Js.length pre `min` _) with (Js.length pre) by lia.
  replace (0 `max` Js.length pre - 0 `min` Js.length pre) with (Js.length pre) by lia.
  replace (0 `min` Js.length pre) with 0 by lia.
  simpl. replace (Js.drop 0 (pre +:+ post)) with (pre +:+ post) by now destruct (pre +:+ post).
  apply take_app_length.
Qed.

Lemma substringFrom_suffix (pre post : string) (c : ascii) :
  Js.substringFrom (pre +:+ String c post) (Js.length pre + 1) = post.
Proof.
  unfold Js.substringFrom.
  replace (pre +:+ String c post) with ((pre +:+ String c EmptyString) +:+ post)
    by now rewrite append_assoc.
  replace (Js.length pre + 1) with (Js.length (pre +:+ String c EmptyString))
    by (rewrite string_length_app; reflexivity).
  apply drop_app_length.
Qed.

(** ** [parsePropertyLine] *)

(** C3, the claim as stated fails: the line [A\:B] has no colon but the
    escaped one and is parsed, split at that colon; the line [A\:B:C] is
    split at the escaped colon, not at the one after [B]. *)
Lemma C3_escaped_colon_is_split_point :
  parsePropertyLine "A\:B"
  = Return {| name := "A\"; parameters := ∅; value := "B" |}
  /\ parsePropertyLine "A\:B:C"
     = Return {| name := "A\"; parameters := ∅; value := "B:C" |}.
Proof. split; reflexivity. Qed.

(** C3, as amended: [parsePropertyLine] splits the line at its first colon,
    escaped or not: what stands before it is the name;params segment, what
    stands after it is the raw value (then unescaped), and the line is
    refused, as an invalid property line, exactly when it has no colon. *)
Theorem C3_split_at_first_colon (line : string) :
  (~ occurs ":" line
   <-> parsePropertyLine line
       = Throw (Error ("Invalid property line: " +:+ line)))
  /\ (forall pre post : string,
        line = pre +:+ String ":" post -> ~ occurs ":" pre ->
        parsePropertyLine line
        = Return {| name := Js.toUpperCase (fst (nameAndParameters pre));
                    parameters := snd (nameAndParameters pre);
                    value := unescapeValue post |}).
Proof.
  split.
  - rewrite <- indexOf_None_iff. unfold parsePropertyLine.
    destruct (Js.indexOf line ":") as [n|]; [|tauto].
    split; [discriminate|].
    destruct (nameAndParameters _); discriminate.
  - intros pre post -> Hpre. unfold parsePropertyLine.
    rewrite indexOf_first by assumption.
    rewrite substring_prefix, substringFrom_suffix.
    now destruct (nameAndParameters pre).
Qed.

Lemma C3_split_at_first_colon_witness :
  parsePropertyLine "SUMMARY;LANGUAGE=en:Team: Meeting"
  = Return {| name := "SUMMARY";
              parameters := {[ "LANGUAGE" := "en" ]};
              value := "Team: Meeting" |}.
Proof.
  destruct (C3_split_at_first_colon "SUMMARY;LANGUAGE=en:Team: Meeting")
    as [_ H].
  rewrite (H "SUMMARY;LANGUAGE=en" "Team: Meeting" eq_refl).
  - vm_compute. reflexivity.
  - apply indexOf_None_iff. reflexivity.
Defined.

(** ** [parsePersonProperty] *)

(** C10: the [rsvp] of the person [parsePersonProperty] returns is never
    [false]: it is [true] exactly when the RSVP parameter is the string
    [TRUE], and undefined for an absent parameter and any other value. *)
Theorem C10_rsvp_true_or_undefined (value : string)
    (parameters : gmap string string) :
  let person := parsePersonProperty value parameters in
  rsvp person <> Some false
  /\ (rsvp person = Some true <-> parameters !! "RSVP" = Some "TRUE")
  /\ (parameters !! "RSVP" <> Some "TRUE" <-> rsvp person = None).
Proof.
  simpl. case_bool_decide as H; repeat split; try congruence; try tauto.
Qed.

(** ** [unescapeValue] *)

Lemma replace2_absent (a b : ascii) (r s : string) :
  ~ occurs a s -> Js.replace2 a b r s = s.
Proof.
  induction s as [|c s IH]; [reflexivity|].
  rewrite occurs_cons. intros H. simpl.
  destruct s as [|d s']; [reflexivity|].
  destruct (Ascii.eqb_spec c a) as [->|Hne]; [tauto|].
  simpl. f_equal. apply IH. tauto.
Qed.

(** The first half of C4: a value with no backslash is left as it is. *)
Lemma unescapeValue_no_backslash (value : string) :
  ~ occurs Js.BACKSLASH value -> unescapeValue value = value.
Proof.
  intros H. unfold unescapeValue.
  do 6 rewrite (replace2_absent Js.BACKSLASH _ _ value H). reflexivity.
Qed.

(** C4, where the code leaves the claim: a backslash followed by the
    letter n is escaped as two backslashes and n, and [unescapeValue] gives
    a backslash followed by a newline for it, not the value escaped.  The
    first replacement reads the second backslash and the n as an escaped
    newline. *)
Theorem C4_unescape_rereads_escaped_backslash :
  escapeValue "\n" = "\\n"
  /\ unescapeValue (escapeValue "\n")
     = String Js.BACKSLASH (String Js.LF EmptyString)
  /\ unescapeValue (escapeValue "\n") <> "\n".
Proof. repeat split. discriminate. Qed.

(** ** [unfoldLines] *)

Lemma removeCRLFFolds_cons (c : ascii) (s : string) :
  c <> Js.CR -> removeCRLFFolds (String c s) = String c (removeCRLFFolds s).
Proof.
  intros Hne. apply Ascii.eqb_neq in Hne.
  destruct s as [|c2 [|c3 s]]; simpl; now rewrite ?Hne.
Qed.

Lemma removeCRLFFolds_absent (s : string) :
  ~ occurs Js.CR s -> removeCRLFFolds s = s.
Proof.
  induction s as [|c s IH]; [reflexivity|].
  rewrite occurs_cons. intros H.
  rewrite removeCRLFFolds_cons by tauto. f_equal. apply IH. tauto.
Qed.

Lemma removeLFFolds_absent (s : string) :
  ~ occurs Js.LF s -> removeLFFolds s = s.
Proof.
  induction s as [|c s IH]; [reflexivity|].
  rewrite occurs_cons. intros H. simpl.
  destruct s as [|d s']; [reflexivity|].
  destruct (Ascii.eqb_spec c Js.LF) as [->|Hne]; [tauto|].
  simpl. f_equal. apply IH. tauto.
Qed.

Lemma split_absent (s : string) (c : ascii) :
  ~ occurs c s -> Js.split s c = [s].
Proof.
  induction s as [|a s IH]; [reflexivity|].
  rewrite occurs_cons. intros H. simpl.
  destruct (Ascii.eqb_spec a c) as [->|Hne]; [tauto|].
  rewrite IH by tauto. reflexivity.
Qed.

Lemma occurs_app (c : ascii) (a b : string) :
  occurs c (a +:+ b) <-> occurs c a \/ occurs c b.
Proof.
  induction a as [|x a IH]; simpl.
  - split; [now right | intros [H|H]; [now apply not_occurs_empty in H | easy]].
  - rewrite !occurs_cons, IH. tauto.
Qed.

Lemma take_drop (n : nat) (s : string) : Js.take n s +:+ Js.drop n s = s.
Proof.
  revert s. induction n as [|n IH]; intros [|c s]; simpl; try reflexivity.
  now rewrite IH.
Qed.

Lemma removeCRLFFolds_fold (pre post : string) :
  ~ occurs Js.CR pre -> ~ occurs Js.CR post ->
  removeCRLFFolds
    (pre +:+ String Js.CR (String Js.LF (String Js.SP EmptyString)) +:+ post)
  = pre +:+ post.
Proof.
  intros Hpre Hpost. induction pre as [|c pre IH]; cbn [String.append].
  - simpl. now apply removeCRLFFolds_absent.
  - rewrite occurs_cons in Hpre.
    rewrite removeCRLFFolds_cons by tauto. f_equal. apply IH. tauto.
Qed.

(** C7, the claim as stated fails: a line of one space, folded at its
    start, unfolds to no line at all. *)
Lemma C7_blank_line_is_dropped :
  ~ occurs Js.CR " " /\ ~ occurs Js.LF " "
  /\ unfoldLines (foldAt 0 " ") = []
  /\ unfoldLines (foldAt 0 " ") <> [" "].
Proof.
  repeat split; try discriminate;
    rewrite <- indexOf_None_iff; reflexivity.
Qed.

(** C7, as amended: for every line [L] with no line-break character and
    every offset [i], [unfoldLines] of [L] folded at [i] by CR LF and a
    space is the single line [L] when [L] has a character that is not
    white space, and no line at all when [L] is empty or blank. *)
Theorem C7_unfold_folded_line (L : string) (i : nat) :
  ~ occurs Js.CR L -> ~ occurs Js.LF L ->
  unfoldLines (foldAt i L)
  = if bool_decide (0 < Js.length (Js.trim L)) then [L] else [].
Proof.
  intros HCR HLF. unfold unfoldLines, foldAt.
  pose proof HCR as Hparts.
  rewrite <- (take_drop i L), occurs_app in Hparts.
  rewrite removeCRLFFolds_fold, take_drop by tauto.
  rewrite removeLFFolds_absent by assumption.
  unfold normalizeLineEndings.
  rewrite replace2_absent by assumption.
  rewrite split_absent by assumption.
  rewrite filter_cons, filter_nil.
  case_decide; case_bool_decide; tauto.
Qed.

Lemma C7_unfold_folded_line_witness :
  unfoldLines
    ("DESCRIPTION:Team"
       +:+ String Js.CR (String Js.LF (String Js.SP EmptyString))
       +:+ " Meeting")
  = ["DESCRIPTION:Team Meeting"].
Proof.
  apply (C7_unfold_folded_line "DESCRIPTION:Team Meeting" 16);
    apply indexOf_None_iff; reflexivity.
Defined.

(** ** The console does not steer the program *)

Lemma fst_bind {A B} (m : IO A) (k : A -> IO B) :
  fst (m ≫= k) = fst (k (fst m)).
Proof. reflexivity. Qed.

Lemma forOf_fst_ext {A S} (body1 body2 : A -> S -> IO S) (l : list A) (s : S) :
  (forall x s', fst (body1 x s') = fst (body2 x s')) ->
  fst (forOf body1 l s) = fst (forOf body2 l s).
Proof.
  intros H. revert s. induction l as [|x l IH]; intros s; cbn [forOf].
  - reflexivity.
  - rewrite !fst_bind, H. apply IH.
Qed.

Lemma forOf_app {A S} (body : A -> S -> IO S) (l1 l2 : list A) (s : S) :
  fst (forOf body (l1 ++ l2) s) = fst (forOf body l2 (fst (forOf body l1 s))).
Proof.
  revert s. induction l1 as [|x l1 IH]; intros s; cbn [forOf app].
  - reflexivity.
  - rewrite !fst_bind. apply IH.
Qed.

Lemma blockLoop_debug (lines : list string) (i : nat) (b : Builder) :
  fst (blockLoop true lines i b) = fst (blockLoop false lines i b).
Proof.
  revert i b. induction lines as [|raw_line lines IH]; intros i b;
    cbn [blockLoop].
  - reflexivity.
  - destruct (Js.isEmpty raw_line); [apply IH|].
    destruct (Js.isEmpty (Js.trim raw_line)); [apply IH|].
    destruct (blockLine i (Js.trim raw_line) b); [apply IH|].
    rewrite !fst_bind. apply IH.
Qed.

Lemma parseIntoBlocks_debug (lines : list string) :
  fst (parseIntoBlocks lines true) = fst (parseIntoBlocks lines false).
Proof.
  unfold parseIntoBlocks. rewrite !fst_bind, blockLoop_debug.
  reflexivity.
Qed.

Section DebugParser.

Context (ext : Externals).

Lemma calendarSubComponent_debug (subComponent : ComponentBlock)
    (calendar : IcsCalendar.t) :
  fst (calendarSubComponent ext true subComponent calendar)
  = fst (calendarSubComponent ext false subComponent calendar).
Proof.
  unfold calendarSubComponent, subComponentCases. cbn [switch].
  repeat (destruct (String.eqb _ _); [try reflexivity|]); [|reflexivity].
  destruct (parseEventBlock ext subComponent); reflexivity.
Qed.

Lemma parseCalendarBlock_debug (block : ComponentBlock) :
  fst (parseCalendarBlock ext block true)
  = fst (parseCalendarBlock ext block false).
Proof.
  unfold parseCalendarBlock. rewrite !fst_bind.
  rewrite (forOf_fst_ext _ (calendarSubComponent ext false));
    [reflexivity | apply calendarSubComponent_debug].
Qed.

Lemma rootBlock_debug (block : ComponentBlock) (c : Collected) :
  fst (rootBlock ext true block c) = fst (rootBlock ext false block c).
Proof.
  unfold rootBlock. destruct (String.eqb _ _); [|reflexivity].
  rewrite !fst_bind, parseCalendarBlock_debug.
  destruct (fst (parseCalendarBlock ext block false)); reflexivity.
Qed.

(** C8: for every input, the value [parseIcsData] returns with the debug
    toggle on is the value it returns with the toggle off: calendars,
    counts, errors and warnings.  The toggle only adds to the console. *)
Theorem C8_debug_does_not_change_result (data : string) :
  fst (parseIcsData ext data true) = fst (parseIcsData ext data false).
Proof.
  unfold parseIcsData. rewrite !fst_bind, parseIntoBlocks_debug.
  destruct (fst (parseIntoBlocks (unfoldLines data) false)); [|reflexivity].
  rewrite !fst_bind.
  rewrite (forOf_fst_ext _ (rootBlock ext false));
    [reflexivity | apply rootBlock_debug].
Qed.

End DebugParser.

(** ** The counts *)

Lemma reduce_sum {A} (f : A -> nat) (l : list A) (n : nat) :
  foldl (fun sum x => sum + f x) n l = n + sum_list_with f l.
Proof.
  revert n. induction l as [|x l IH]; intros n; simpl.
  - lia.
  - rewrite IH. lia.
Qed.

(** C2: for every input, [parseIcsData] returns a result whose
    [totalEvents] is the sum over its calendars of the number of events,
    and likewise for todos, journals, freebusys and timezones. *)
Theorem C2_totals_are_sums (ext : Externals) (data : string) (debug : bool) :
  exists r : ParsedIcsData,
    fst (parseIcsData ext data debug) = Return r /\ countsAreSums r.
Proof.
  unfold parseIcsData. rewrite !fst_bind.
  destruct (fst (parseIntoBlocks (unfoldLines data) debug)) as [rootBlocks|e].
  - rewrite !fst_bind. eexists. split; [reflexivity|].
    unfold countsAreSums, calculateMetadata. simpl.
    rewrite !reduce_sum. repeat split; reflexivity.
  - eexists. split; [reflexivity|]. repeat split; reflexivity.
Qed.

(** ** Unclosed components *)

(** C1: when the blocks of the input leave a component open at the end,
    [parseIcsData] throws nothing: it returns a result with no calendar,
    the five counts at zero, no warning, and one error, the critical
    parsing error that lists the open components. *)
Theorem C1_unclosed_component_result (ext : Externals) (data : string)
    (debug : bool) :
  unclosedComponents data <> [] ->
  fst (parseIcsData ext data debug)
  = Return
      {| calendars := [];
         metadata :=
           {| totalEvents := 0; totalTodos := 0; totalJournals := 0;
              totalFreebusys := 0; totalTimezones := 0;
              parseErrors :=
                ["Critical parsing error: Unclosed components: "
                   +:+ Js.join (unclosedComponents data) ", "];
              parseWarnings := [] |} |}.
Proof.
  intros Hopen. unfold parseIcsData. rewrite !fst_bind.
  assert (Hthrow :
    fst (parseIntoBlocks (unfoldLines data) debug)
    = Throw (Error ("Unclosed components: "
                      +:+ Js.join (unclosedComponents data) ", "))).
  { unfold parseIntoBlocks. rewrite fst_bind.
    replace (fst (blockLoop debug (unfoldLines data) 0 builderInit))
      with (builderAtEnd data)
      by (destruct debug; [symmetry; apply blockLoop_debug | reflexivity]).
    unfold unclosedComponents in *.
    case_bool_decide as Hlen; [reflexivity|].
    destruct (stack (builderAtEnd data)); [now contradict Hopen|].
    simpl in Hlen. lia. }
  rewrite Hthrow. reflexivity.
Qed.

Lemma C1_unclosed_component_result_witness :
  unclosedComponents unclosedEventDocument = ["VCALENDAR"; "VEVENT"]
  /\ forall ext debug,
       fst (parseIcsData ext unclosedEventDocument debug)
       = Return
           {| calendars := [];
              metadata :=
                {| totalEvents := 0; totalTodos := 0; totalJournals := 0;
                   totalFreebusys := 0; totalTimezones := 0;
                   parseErrors :=
                     ["Critical parsing error: Unclosed components: VCALENDAR, VEVENT"];
                   parseWarnings := [] |} |}.
Proof.
  split; [vm_compute; reflexivity|]. intros ext debug.
  rewrite (C1_unclosed_component_result ext unclosedEventDocument debug).
  - vm_compute. reflexivity.
  - vm_compute. discriminate.
Defined.

(** ** The event mapper *)

Lemma switch_default {A} (x : string) (cases : list (string * A)) (d : A) :
  x ∉ (fst <$> cases) -> switch x cases d = d.
Proof.
  induction cases as [|[label body] cases IH]; simpl; [reflexivity|].
  rewrite not_elem_of_cons. intros [Hne Hrest].
  destruct (String.eqb_spec x label); [contradiction | now apply IH].
Qed.

Lemma switch_head {A} (x : string) (body : A) (rest : list (string * A))
    (d : A) :
  switch x ((x, body) :: rest) d = body.
Proof. cbn [switch]. now rewrite String.eqb_refl. Qed.

(** What holds of every case and of the default holds of the switch. *)
Lemma switch_all {A} (P : A -> Prop) (x : string) (cases : list (string * A))
    (d : A) :
  Forall (fun c => P (snd c)) cases -> P d -> P (switch x cases d).
Proof.
  intros Hcases Hd. induction Hcases as [|[label body] cases Hc _ IH]; simpl.
  - exact Hd.
  - destruct (String.eqb x label); [exact Hc | exact IH].
Qed.

Lemma eventFieldNames_eq :
  eventFieldNames
  = [ "UID"; "DTSTAMP"; "DTSTART"; "DTEND"; "DURATION"; "SUMMARY";
      "DESCRIPTION"; "LOCATION"; "STATUS"; "CLASS"; "TRANSP"; "PRIORITY";
      "SEQUENCE"; "CREATED"; "LAST-MODIFIED"; "URL"; "GEO"; "RECURID";
      "RRULE"; "ORGANIZER"; "ATTENDEE"; "CATEGORIES"; "COMMENT"; "CONTACT";
      "ATTACH"; "EXDATE"; "RELATED"; "RESOURCES"; "RDATE" ].
Proof. reflexivity. Qed.

Lemma eventProperty_unrecognized (event : IcsEvent.t) (prop : Property) :
  name prop ∉ eventFieldNames -> Js.startsWith (name prop) "X-" = false ->
  eventProperty event prop = event.
Proof.
  intros Hname HX. unfold eventProperty.
  rewrite switch_default by exact Hname.
  unfold eventDefault. now rewrite HX.
Qed.

(** C9: in a VEVENT block, a property whose name is none of the names the
    event mapper knows and does not start with [X-] is dropped in silence:
    the mapper leaves the event it builds as it is at that property, so the
    block gives what it gives without the property, be it an event (with
    the same fields, custom properties included) or the same error. *)
Theorem C9_unrecognized_property_is_discarded (ext : Externals)
    (before after : list Property) (prop : Property)
    (subs : list ComponentBlock) (event : IcsEvent.t) :
  name prop ∉ eventFieldNames -> Js.startsWith (name prop) "X-" = false ->
  eventProperty event prop = event
  /\ parseEventBlock ext (Block "VEVENT" (before ++ prop :: after) subs)
     = parseEventBlock ext (Block "VEVENT" (before ++ after) subs).
Proof.
  intros Hname HX. split; [now apply eventProperty_unrecognized|].
  unfold parseEventBlock, eventCandidate. simpl.
  rewrite !foldl_app. simpl.
  now rewrite eventProperty_unrecognized.
Qed.

Lemma C9_unrecognized_property_is_discarded_witness :
  ("COLOR" ∉ eventFieldNames)
  /\ Js.startsWith "COLOR" "X-" = false
  /\ forall ext : Externals,
       parseEventBlock ext
         (Block "VEVENT"
            [ {| name := "UID"; parameters := ∅; value := "a@b" |};
              {| name := "COLOR"; parameters := ∅; value := "red" |};
              {| name := "DTSTAMP"; parameters := ∅;
                 value := "20231201T120000Z" |} ]
            [])
       = parseEventBlock ext
           (Block "VEVENT"
              [ {| name := "UID"; parameters := ∅; value := "a@b" |};
                {| name := "DTSTAMP"; parameters := ∅;
                   value := "20231201T120000Z" |} ]
              []).
Proof.
  assert (Hname : "COLOR" ∉ eventFieldNames).
  { apply (bool_decide_unpack _). vm_compute. exact I. }
  split; [exact Hname|]. split; [reflexivity|]. intros ext.
  apply (C9_unrecognized_property_is_discarded ext
           [ {| name := "UID"; parameters := ∅; value := "a@b" |} ]
           [ {| name := "DTSTAMP"; parameters := ∅;
                value := "20231201T120000Z" |} ]
           {| name := "COLOR"; parameters := ∅; value := "red" |} []
           eventInit Hname eq_refl).
Defined.

(** ** DTEND with DURATION *)

Lemma eventProperty_keeps_dtend (event : IcsEvent.t) (prop : Property) :
  IcsEvent.dtend event <> None ->
  IcsEvent.dtend (eventProperty event prop) <> None.
Proof.
  intros H. unfold eventProperty.
  apply (switch_all
           (fun act => IcsEvent.dtend (act prop event) <> None)).
  - unfold eventCases. repeat constructor; simpl; (exact H || discriminate).
  - unfold eventDefault. now destruct (Js.startsWith _ _).
Qed.

Lemma eventProperty_keeps_duration (event : IcsEvent.t) (prop : Property) :
  IcsEvent.duration event <> None ->
  IcsEvent.duration (eventProperty event prop) <> None.
Proof.
  intros H. unfold eventProperty.
  apply (switch_all
           (fun act => IcsEvent.duration (act prop event) <> None)).
  - unfold eventCases. repeat constructor; simpl; (exact H || discriminate).
  - unfold eventDefault. now destruct (Js.startsWith _ _).
Qed.

Lemma eventProperty_sets_dtend (event : IcsEvent.t) (prop : Property) :
  name prop = "DTEND" -> IcsEvent.dtend (eventProperty event prop) <> None.
Proof. intros H. unfold eventProperty. rewrite H. discriminate. Qed.

Lemma eventProperty_sets_duration (event : IcsEvent.t) (prop : Property) :
  name prop = "DURATION" ->
  IcsEvent.duration (eventProperty event prop) <> None.
Proof. intros H. unfold eventProperty. rewrite H. discriminate. Qed.

Lemma foldl_eventProperty_dtend (props : list Property) (event : IcsEvent.t) :
  IcsEvent.dtend event <> None
  \/ (exists prop, prop ∈ props /\ name prop = "DTEND") ->
  IcsEvent.dtend (foldl eventProperty event props) <> None.
Proof.
  revert event. induction props as [|p props IH]; intros event; simpl.
  - intros [H|(prop & Hin & _)]; [exact H | now apply elem_of_nil in Hin].
  - intros [H|(prop & Hin & Hname)]; apply IH.
    + left. now apply eventProperty_keeps_dtend.
    + apply elem_of_cons in Hin as [->|Hin].
      * left. now apply eventProperty_sets_dtend.
      * right. now exists prop.
Qed.

Lemma foldl_eventProperty_duration (props : list Property)
    (event : IcsEvent.t) :
  IcsEvent.duration event <> None
  \/ (exists prop, prop ∈ props /\ name prop = "DURATION") ->
  IcsEvent.duration (foldl eventProperty event props) <> None.
Proof.
  revert event. induction props as [|p props IH]; intros event; simpl.
  - intros [H|(prop & Hin & _)]; [exact H | now apply elem_of_nil in Hin].
  - intros [H|(prop & Hin & Hname)]; apply IH.
    + left. now apply eventProperty_keeps_duration.
    + apply elem_of_cons in Hin as [->|Hin].
      * left. now apply eventProperty_sets_duration.
      * right. now exists prop.
Qed.

Section DtendAndDuration.

Context (ext : Externals).

(** The schema refuses an event block that has DTEND and DURATION. *)
Lemma parseEventBlock_dtend_duration (block : ComponentBlock) :
  hasProperty "DTEND" block -> hasProperty "DURATION" block ->
  parseEventBlock ext block
  = Throw (ZodError (zod_event_message ext (eventCandidate block))).
Proof.
  intros Hdtend Hduration. unfold parseEventBlock, icsEventSchema_parse.
  assert (Hrefine : notBothDtendAndDuration (eventCandidate block) = false).
  { unfold notBothDtendAndDuration, eventCandidate.
    change (IcsEvent.dtend (eventCleanUp ?e)) with (IcsEvent.dtend e).
    change (IcsEvent.duration (eventCleanUp ?e)) with (IcsEvent.duration e).
    rewrite !bool_decide_eq_true_2; [reflexivity | |].
    - apply foldl_eventProperty_duration. now right.
    - apply foldl_eventProperty_dtend. now right. }
  unfold icsEventSchema. rewrite Hrefine, andb_false_r. reflexivity.
Qed.

Lemma calendarSubComponent_dtend_duration (debug : bool)
    (event : ComponentBlock) (calendar : IcsCalendar.t) :
  type event = "VEVENT" ->
  hasProperty "DTEND" event -> hasProperty "DURATION" event ->
  fst (calendarSubComponent ext debug event calendar) = calendar.
Proof.
  intros Htype Hdtend Hduration. unfold calendarSubComponent.
  rewrite Htype. unfold subComponentCases. rewrite switch_head.
  now rewrite parseEventBlock_dtend_duration.
Qed.

(** What the turn of the loop for such an event writes: one warning with
    the debug toggle on, nothing with the toggle off. *)
Lemma calendarSubComponent_dtend_duration_console (debug : bool)
    (event : ComponentBlock) (calendar : IcsCalendar.t) :
  type event = "VEVENT" ->
  hasProperty "DTEND" event -> hasProperty "DURATION" event ->
  snd (calendarSubComponent ext debug event calendar)
  = if debug
    then [console_warn
            ("Failed to parse event: "
               +:+ zod_event_message ext (eventCandidate event))]
    else [].
Proof.
  intros Htype Hdtend Hduration. unfold calendarSubComponent.
  rewrite Htype. unfold subComponentCases. rewrite switch_head.
  rewrite parseEventBlock_dtend_duration by assumption.
  now destruct debug.
Qed.
End DtendAndDuration.

Section Warnings.

Context (ext : Externals) (debug : bool).

Lemma rootBlock_warnings (block : ComponentBlock) (c : Collected) :
  Forall rootWarning (col_warnings c) ->
  Forall rootWarning (col_warnings (fst (rootBlock ext debug block c))).
Proof.
  intros H. unfold rootBlock. destruct (String.eqb _ _).
  - rewrite fst_bind.
    destruct (fst (parseCalendarBlock ext block debug)); exact H.
  - simpl. apply Forall_app. split; [exact H|].
    repeat constructor. now exists (type block).
Qed.

Lemma forOf_rootBlock_warnings (rootBlocks : list ComponentBlock)
    (c : Collected) :
  Forall rootWarning (col_warnings c) ->
  Forall rootWarning
    (col_warnings (fst (forOf (rootBlock ext debug) rootBlocks c))).
Proof.
  revert c. induction rootBlocks as [|block rootBlocks IH]; intros c H;
    cbn [forOf].
  - exact H.
  - rewrite fst_bind. apply IH. now apply rootBlock_warnings.
Qed.

(** The only warnings [parseIcsData] records are on root blocks. *)
Lemma parseIcsData_warnings (data : string) (r : ParsedIcsData) :
  fst (parseIcsData ext data debug) = Return r ->
  Forall rootWarning (parseWarnings (metadata r)).
Proof.
  unfold parseIcsData. rewrite !fst_bind.
  destruct (fst (parseIntoBlocks (unfoldLines data) debug)) as [rootBlocks|e].
  - rewrite !fst_bind. intros [= <-]. simpl.
    apply forOf_rootBlock_warnings. constructor.
  - intros [= <-]. constructor.
Qed.

Lemma parseCalendarBlock_drops_event (event : ComponentBlock)
    (t : string) (props : list Property) (before after : list ComponentBlock) :
  type event = "VEVENT" ->
  hasProperty "DTEND" event -> hasProperty "DURATION" event ->
  fst (parseCalendarBlock ext (Block t props (before ++ event :: after)) debug)
  = fst (parseCalendarBlock ext (Block t props (before ++ after)) debug).
Proof.
  intros Htype Hdtend Hduration. unfold parseCalendarBlock.
  cbn [properties subComponents].
  rewrite !fst_bind, !forOf_app. cbn [forOf].
  rewrite fst_bind, calendarSubComponent_dtend_duration by assumption.
  reflexivity.
Qed.

(** C6, as amended: an event block with both DTEND and DURATION is refused
    by the event schema and dropped from the events of its calendar: the
    calendar block gives the calendar, the errors and the warnings it gives
    without that event block, so the other components are parsed as they
    would be.  No warning is recorded for the dropped event: the warnings
    of a result are the notes on unexpected root components only.  The
    failure is only written on the console, and only when the debug toggle
    is on: the turn of the loop for the event writes the one line
    [Failed to parse event: ...] of [console.warn] with the toggle on, and
    nothing with the toggle off. *)
Theorem C6_event_with_dtend_and_duration_is_dropped
    (event : ComponentBlock) :
  type event = "VEVENT" ->
  hasProperty "DTEND" event -> hasProperty "DURATION" event ->
  (exists message, parseEventBlock ext event = Throw (ZodError message))
  /\ (forall props before after c,
        fst (rootBlock ext debug
               (Block "VCALENDAR" props (before ++ event :: after)) c)
        = fst (rootBlock ext debug
                 (Block "VCALENDAR" props (before ++ after)) c))
  /\ (forall data r,
        fst (parseIcsData ext data debug) = Return r ->
        Forall rootWarning (parseWarnings (metadata r)))
  /\ (forall calendar,
        snd (calendarSubComponent ext debug event calendar)
        = if debug
          then [console_warn
                  ("Failed to parse event: "
                     +:+ zod_event_message ext (eventCandidate event))]
          else []).
Proof.
  intros Htype Hdtend Hduration. repeat split.
  - eexists. now apply parseEventBlock_dtend_duration.
  - intros props before after c. unfold rootBlock.
    cbn [type]. rewrite String.eqb_refl, !fst_bind.
    now rewrite parseCalendarBlock_drops_event.
  - apply parseIcsData_warnings.
  - intros calendar.
    now apply calendarSubComponent_dtend_duration_console.
Qed.

End Warnings.

Lemma C6_event_with_dtend_and_duration_is_dropped_witness :
  hasProperty "DTEND" dtendAndDurationEvent
  /\ hasProperty "DURATION" dtendAndDurationEvent
  /\ forall ext : Externals,
       (exists message,
          parseEventBlock ext dtendAndDurationEvent
          = Throw (ZodError message))
       /\ (forall calendar,
             snd (calendarSubComponent ext true dtendAndDurationEvent
                    calendar)
             = [console_warn
                  ("Failed to parse event: "
                     +:+ zod_event_message ext
                           (eventCandidate dtendAndDurationEvent))])
       /\ (forall calendar,
             snd (calendarSubComponent ext false dtendAndDurationEvent
                    calendar)
             = []).
Proof.
  assert (Hdtend : hasProperty "DTEND" dtendAndDurationEvent).
  { exists {| name := "DTEND"; parameters := ∅;
              value := "20231215T150000Z" |}.
    split; [|reflexivity]. apply list_elem_of_In. simpl. tauto. }
  assert (Hduration : hasProperty "DURATION" dtendAndDurationEvent).
  { exists {| name := "DURATION"; parameters := ∅; value := "PT1H" |}.
    split; [|reflexivity]. apply list_elem_of_In. simpl. tauto. }
  split; [exact Hdtend|]. split; [exact Hduration|]. intros ext.
  destruct (C6_event_with_dtend_and_duration_is_dropped ext true
              dtendAndDurationEvent eq_refl Hdtend Hduration)
    as (Hthrow & _ & _ & Hon).
  destruct (C6_event_with_dtend_and_duration_is_dropped ext false
              dtendAndDurationEvent eq_refl Hdtend Hduration)
    as (_ & _ & _ & Hoff).
  split; [exact Hthrow|]. split; [exact Hon | exact Hoff].
Defined.

(** C6, the claim as stated fails: the document is parsed to one calendar
    with the second event only, and the result has no warning (and no
    error), whatever the debug toggle. *)
Lemma C6_dropped_event_leaves_no_warning :
  (forall ext debug,
     (fun r => (fun cal => IcsEvent.uid <$> IcsCalendar.events cal)
                 <$> calendars r)
       <$> returned (fst (parseIcsData ext dtendAndDurationDocument debug))
     = Some [[Some "c@d"]])
  /\ (forall ext debug,
        (fun r => (parseWarnings (metadata r), parseErrors (metadata r)))
          <$> returned (fst (parseIcsData ext dtendAndDurationDocument debug))
        = Some ([], [])).
Proof.
  split; intros ext [|]; vm_compute; reflexivity.
Qed.

(** ** CATEGORIES *)

(** [splitCommaSeparated] on the text of the line does what its comment
    says: the escaped comma separates nothing. *)
Lemma splitCommaSeparated_escaped_comma :
  splitCommaSeparated "Work\,Fun,Travel" = ["Work,Fun"; "Travel"].
Proof. reflexivity. Qed.

(** C5, where the code leaves the claim: [parsePropertyLine] has unescaped
    the value before [parseEventBlock] splits it, so the escaped comma
    separates like the other one and the event has three categories. *)
Theorem C5_escaped_comma_splits_categories :
  parsePropertyLine "CATEGORIES:Work\,Fun,Travel"
  = Return {| name := "CATEGORIES"; parameters := ∅;
              value := "Work,Fun,Travel" |}
  /\ forall ext debug,
       (fun r => (fun cal => IcsEvent.categories <$> IcsCalendar.events cal)
                   <$> calendars r)
         <$> returned (fst (parseIcsData ext categoriesDocument debug))
       = Some [[Some ["Work"; "Fun"; "Travel"]]].
Proof.
  split; [reflexivity|]. intros ext [|]; vm_compute; reflexivity.
Qed.

(** ** The store of [parseIntoBlocks] *)

Lemma wellFormed_init : wellFormed builderInit.
Proof. split; [constructor | intros r o H; discriminate H]. Qed.

Lemma getLastOnStack_Return (b : Builder) (r : ref) :
  getLastOnStack b = Return r -> r ∈ stack b.
Proof.
  unfold getLastOnStack. destruct (last (stack b)) as [x|] eqn:E; [|discriminate].
  intros [= <-]. apply last_Some in E as [l ->]. set_solver.
Qed.

Lemma wellFormed_alloc (st : list BlockObject) (o : BlockObject) :
  obj_subComponents o = [] ->
  (forall r o', st !! r = Some o' ->
     Forall (fun k => r < k < length st) (obj_subComponents o')) ->
  forall r o', (st ++ [o]) !! r = Some o' ->
    Forall (fun k => r < k < length (st ++ [o])) (obj_subComponents o').
Proof.
  intros Ho Hsubs r o' Hr. rewrite length_app. cbn [length].
  apply lookup_app_Some in Hr as [Hr|[Hlen Hr]].
  - eapply Forall_impl; [exact (Hsubs r o' Hr)|]. cbn beta. lia.
  - apply list_lookup_singleton_Some in Hr as [_ <-]. rewrite Ho. constructor.
Qed.

Lemma wellFormed_alter (f : BlockObject -> BlockObject) (top : ref)
    (st : list BlockObject) :
  (forall o, Forall (fun k => top < k < length st) (obj_subComponents o) ->
     Forall (fun k => top < k < length st) (obj_subComponents (f o))) ->
  (forall r o, st !! r = Some o ->
     Forall (fun k => r < k < length st) (obj_subComponents o)) ->
  forall r o, alter f top st !! r = Some o ->
    Forall (fun k => r < k < length (alter f top st)) (obj_subComponents o).
Proof.
  intros Hf Hsubs r o Hr. rewrite length_alter.
  destruct (decide (r = top)) as [->|Hne].
  - rewrite list_lookup_alter_eq in Hr.
    apply fmap_Some in Hr as (o' & Ho' & ->). apply Hf. now apply Hsubs.
  - rewrite list_lookup_alter_ne in Hr by congruence. now apply Hsubs.
Qed.

Lemma Forall_lt_weaken (l : list nat) (n m : nat) :
  n <= m -> Forall (fun r => r < n) l -> Forall (fun r => r < m) l.
Proof.
  intros Hle H. eapply Forall_impl; [exact H|]. cbn beta. lia.
Qed.

Lemma blockLine_wellFormed (i : nat) (line : string) (b b' : Builder) :
  wellFormed b -> blockLine i line b = Return b' -> wellFormed b'.
Proof.
  intros [Hstack Hsubs]. unfold blockLine.
  destruct (Js.startsWith line "BEGIN:").
  - case_bool_decide as Hempty.
    + intros [= <-]. split; cbn [store stack].
      * apply Forall_app. split.
        -- eapply Forall_lt_weaken; [|exact Hstack].
           rewrite length_app. lia.
        -- constructor; [|constructor]. rewrite length_app. cbn [length]. lia.
      * now apply wellFormed_alloc.
    + destruct (getLastOnStack b) as [parent|e] eqn:Hparent; [|discriminate].
      intros [= <-]. apply getLastOnStack_Return in Hparent.
      pose proof (proj1 (Forall_forall _ _) Hstack parent Hparent) as Hlt.
      cbn beta in Hlt. split; cbn [store stack].
      * rewrite length_alter, length_app. cbn [length].
        apply Forall_app. split.
        -- eapply Forall_lt_weaken; [|exact Hstack]. lia.
        -- constructor; [lia|constructor].
      * apply wellFormed_alter; [|now apply wellFormed_alloc].
        intros o Ho. cbn [pushSubComponent obj_subComponents].
        apply Forall_app. split; [exact Ho|].
        constructor; [|constructor]. rewrite length_app. cbn [length]. lia.
  - destruct (Js.startsWith line "END:").
    + case_bool_decide; [discriminate|].
      destruct (getLastOnStack b) as [currentBlock|e]; [|discriminate].
      cbn [mbind Completion_bind cbind_flip].
      destruct (negb _); [discriminate|].
      intros [= <-]. split; cbn [store stack]; [|exact Hsubs].
      destruct (stack b) as [|x l _] using rev_ind; [constructor|].
      rewrite removelast_last. now apply Forall_app in Hstack as [H' _].
    + case_bool_decide; [discriminate|].
      destruct (parsePropertyLine line) as [property|e]; [|discriminate].
      destruct (getLastOnStack b) as [top|e]; [|discriminate].
      intros [= <-]. split; cbn [store stack].
      * now rewrite length_alter.
      * apply wellFormed_alter; [|exact Hsubs]. intros o Ho. exact Ho.
Qed.

Lemma blockLoop_wellFormed (debug : bool) (lines : list string) (i : nat)
    (b : Builder) :
  wellFormed b -> wellFormed (fst (blockLoop debug lines i b)).
Proof.
  revert i b. induction lines as [|raw_line lines IH]; intros i b Hb;
    cbn [blockLoop].
  - exact Hb.
  - destruct (Js.isEmpty raw_line); [now apply IH|].
    destruct (Js.isEmpty (Js.trim raw_line)); [now apply IH|].
    destruct (blockLine i (Js.trim raw_line) b) as [b'|e] eqn:E.
    + apply IH. eapply blockLine_wellFormed; eassumption.
    + rewrite fst_bind. now apply IH.
Qed.

Lemma readBlock_S (fuel : nat) (st : list BlockObject) (r : ref) :
  readBlock (S fuel) st r
  = match st !! r with
    | Some o =>
        Block (obj_type o) (obj_properties o)
          (readBlock fuel st <$> obj_subComponents o)
    | None => Block "" [] []
    end.
Proof. reflexivity. Qed.

Lemma readBlock_unallocated (fuel : nat) (st : list BlockObject) (r : ref) :
  st !! r = None -> readBlock fuel st r = Block "" [] [].
Proof.
  intros Hr. destruct fuel; [reflexivity|]. now rewrite readBlock_S, Hr.
Qed.

(** The depth to which [parseIntoBlocks] reads a block is enough: reading
    deeper gives the same block. *)
Lemma readBlock_fuel (st : list BlockObject) :
  (forall r o, st !! r = Some o ->
     Forall (fun k => r < k < length st) (obj_subComponents o)) ->
  forall fuel r, length st - r <= fuel ->
    readBlock fuel st r = readBlock (length st - r) st r.
Proof.
  intros Hsubs fuel.
  induction fuel as [fuel IH] using lt_wf_ind. intros r Hfuel.
  destruct (st !! r) as [o|] eqn:Hr.
  - pose proof (lookup_lt_Some _ _ _ Hr) as Hlt.
    destruct fuel as [|fuel]; [lia|].
    destruct (length st - r) as [|m] eqn:Hm; [lia|].
    rewrite !readBlock_S, Hr. f_equal.
    apply Forall_fmap_ext_1.
    eapply Forall_impl; [exact (Hsubs r o Hr)|]. intros k Hbound.
    cbn beta in Hbound.
    rewrite (IH fuel) by lia. rewrite (IH m) by lia. reflexivity.
  - now rewrite !readBlock_unallocated.
Qed.

Lemma parseIntoBlocks_fuel (debug : bool) (lines : list string) (fuel : nat) :
  let b := fst (blockLoop debug lines 0 builderInit) in
  forall r, length (store b) <= fuel ->
    readBlock fuel (store b) r = readBlock (length (store b)) (store b) r.
Proof.
  intros b r Hfuel.
  destruct (blockLoop_wellFormed debug lines 0 builderInit wellFormed_init)
    as [_ Hsubs].
  fold b in Hsubs.
  rewrite (readBlock_fuel _ Hsubs fuel) by lia.
  rewrite (readBlock_fuel _ Hsubs (length (store b))) by lia.
  reflexivity.
Qed.

(** ** With the toggle off the console stays empty *)

Lemma snd_bind {A B} (m : IO A) (k : A -> IO B) :
  snd (m ≫= k) = snd m ++ snd (k (fst m)).
Proof. reflexivity. Qed.

Lemma forOf_silent {A S} (body : A -> S -> IO S) (l : list A) (s : S) :
  (forall x s', snd (body x s') = []) -> snd (forOf body l s) = [].
Proof.
  intros H. revert s. induction l as [|x l IH]; intros s; cbn [forOf].
  - reflexivity.
  - now rewrite snd_bind, H, IH.
Qed.

Lemma blockLoop_silent (lines : list string) (i : nat) (b : Builder) :
  snd (blockLoop false lines i b) = [].
Proof.
  revert i b. induction lines as [|raw_line lines IH]; intros i b;
    cbn [blockLoop].
  - reflexivity.
  - destruct (Js.isEmpty raw_line); [apply IH|].
    destruct (Js.isEmpty (Js.trim raw_line)); [apply IH|].
    destruct (blockLine i (Js.trim raw_line) b); [apply IH|].
    rewrite snd_bind, IH. reflexivity.
Qed.

Lemma parseIntoBlocks_silent (lines : list string) :
  snd (parseIntoBlocks lines false) = [].
Proof.
  unfold parseIntoBlocks. rewrite snd_bind, blockLoop_silent.
  now case_bool_decide.
Qed.

Section Silent.

Context (ext : Externals).

Lemma calendarSubComponent_silent (subComponent : ComponentBlock)
    (calendar : IcsCalendar.t) :
  snd (calendarSubComponent ext false subComponent calendar) = [].
Proof.
  unfold calendarSubComponent, subComponentCases. cbn [switch].
  repeat (destruct (String.eqb _ _); [try reflexivity|]); [|reflexivity].
  destruct (parseEventBlock ext subComponent); reflexivity.
Qed.

Lemma parseCalendarBlock_silent (block : ComponentBlock) :
  snd (parseCalendarBlock ext block false) = [].
Proof.
  unfold parseCalendarBlock. rewrite snd_bind.
  rewrite forOf_silent by apply calendarSubComponent_silent. reflexivity.
Qed.

Lemma rootBlock_silent (block : ComponentBlock) (c : Collected) :
  snd (rootBlock ext false block c) = [].
Proof.
  unfold rootBlock. destruct (String.eqb _ _); [|reflexivity].
  rewrite snd_bind, parseCalendarBlock_silent.
  destruct (fst (parseCalendarBlock ext block false)); reflexivity.
Qed.

(** X24: without the debug toggle [parseIcsData] writes nothing to the
    console, whatever the input. *)
Lemma parseIcsData_silent (data : string) :
  snd (parseIcsData ext data false) = [].
Proof.
  unfold parseIcsData. rewrite !snd_bind, parseIntoBlocks_silent.
  destruct (fst (parseIntoBlocks (unfoldLines data) false)); [|reflexivity].
  rewrite !snd_bind.
  rewrite forOf_silent by apply rootBlock_silent. reflexivity.
Qed.

End Silent.

(** ** The scenario of the documentation *)

(** One VCALENDAR with one VEVENT parses to one calendar with that event,
    [totalEvents] is 1, and there is no error and no warning. *)
Lemma teamMeeting_scenario (ext : Externals) (debug : bool) :
  (fun r =>
     ((fun cal =>
         (fun event => (IcsEvent.uid event, IcsEvent.summary event))
           <$> IcsCalendar.events cal) <$> calendars r,
      totalEvents (metadata r),
      parseErrors (metadata r), parseWarnings (metadata r)))
    <$> returned (fst (parseIcsData ext teamMeetingDocument debug))
  = Some ([[(Some "a@b", Some "Team Meeting")]], 1, [], []).
Proof. destruct debug; vm_compute; reflexivity. Qed.

(** * More of the program *)

(** ** The mappers, field by field *)

(** A field that only the properties of one name write is the fold of
    these properties alone. *)
Lemma foldl_own_name {E V} (step : E -> Property -> E) (get : E -> V)
    (n : string) (u : Property -> V -> V) :
  (forall e p, name p = n -> get (step e p) = u p (get e)) ->
  (forall e p, name p <> n -> get (step e p) = get e) ->
  forall props e,
    get (foldl step e props)
    = foldl (fun v p => u p v) (get e) (named n props).
Proof.
  intros Hown Hother. unfold named.
  induction props as [|p props IH]; intros e; [reflexivity|].
  cbn [foldl]. rewrite IH, filter_cons.
  destruct (decide (name p = n)) as [Hn|Hn].
  - cbn [foldl]. now rewrite Hown.
  - now rewrite Hother.
Qed.

Lemma foldl_assign {A} (f : Property -> A) (props : list Property)
    (v : option A) :
  foldl (fun _ p => Some (f p)) v props
  = match last props with Some p => Some (f p) | None => v end.
Proof.
  revert v. induction props as [|p props IH]; intros v; [reflexivity|].
  cbn [foldl]. rewrite IH. destruct props as [|q props]; [reflexivity|].
  rewrite last_cons_cons.
  destruct (last (q :: props)) eqn:E; [reflexivity|].
  apply last_None in E. discriminate E.
Qed.

Lemma foldl_push {A} (f : Property -> A) (props : list Property)
    (l : list A) :
  foldl (fun array p => push (f p) array) (Some l) props
  = Some (l ++ (f <$> props)).
Proof.
  revert l. induction props as [|p props IH]; intros l; cbn [foldl fmap].
  - now rewrite app_nil_r.
  - unfold push at 2. cbn. rewrite IH, <- app_assoc. reflexivity.
Qed.

Lemma foldl_pushAll {A} (f : Property -> list A) (props : list Property)
    (l : list A) :
  foldl (fun array p => pushAll (f p) array) (Some l) props
  = Some (l ++ mjoin (f <$> props)).
Proof.
  revert l. induction props as [|p props IH]; intros l; cbn [foldl fmap].
  - cbn. now rewrite app_nil_r.
  - unfold pushAll at 2. cbn. rewrite IH, <- app_assoc. reflexivity.
Qed.

Ltac switch_frame p :=
  repeat match goal with
         | |- context [String.eqb (name p) ?l] =>
             destruct (String.eqb_spec (name p) l);
             [try reflexivity; congruence|]
         end.

Ltac event_own :=
  let e := fresh "e" in let p := fresh "p" in let H := fresh "H" in
  intros e p H; unfold eventProperty; rewrite H; reflexivity.
Ltac event_other :=
  let e := fresh "e" in let p := fresh "p" in let H := fresh "H" in
  intros e p H; unfold eventProperty, eventCases, eventDefault;
  cbn [switch]; switch_frame p;
  destruct (Js.startsWith (name p) "X-"); reflexivity.

(** A field the mapper assigns holds what the last property of its name
    gives, and nothing when there is none. *)
Lemma event_assigned {A} (get : IcsEvent.t -> option A) (n : string)
    (f : Property -> A) :
  (forall e p, name p = n -> get (eventProperty e p) = Some (f p)) ->
  (forall e p, name p <> n -> get (eventProperty e p) = get e) ->
  get eventInit = None ->
  forall props,
    get (foldl eventProperty eventInit props) = f <$> last (named n props).
Proof.
  intros Hown Hother Hinit props.
  rewrite (foldl_own_name eventProperty get n (fun p _ => Some (f p)))
    by assumption.
  rewrite foldl_assign, Hinit. now destruct (last (named n props)).
Qed.

(** An array the mapper pushes on holds what the properties of its name
    give, in their order. *)
Lemma event_pushed {A} (get : IcsEvent.t -> option (list A)) (n : string)
    (f : Property -> A) :
  (forall e p, name p = n -> get (eventProperty e p) = push (f p) (get e)) ->
  (forall e p, name p <> n -> get (eventProperty e p) = get e) ->
  get eventInit = Some [] ->
  forall props,
    get (foldl eventProperty eventInit props) = Some (f <$> named n props).
Proof.
  intros Hown Hother Hinit props.
  rewrite (foldl_own_name eventProperty get n (fun p => push (f p)))
    by assumption.
  now rewrite Hinit, foldl_push.
Qed.

Lemma event_pushedAll {A} (get : IcsEvent.t -> option (list A)) (n : string)
    (f : Property -> list A) :
  (forall e p, name p = n ->
     get (eventProperty e p) = pushAll (f p) (get e)) ->
  (forall e p, name p <> n -> get (eventProperty e p) = get e) ->
  get eventInit = Some [] ->
  forall props,
    get (foldl eventProperty eventInit props)
    = Some (mjoin (f <$> named n props)).
Proof.
  intros Hown Hother Hinit props.
  rewrite (foldl_own_name eventProperty get n (fun p => pushAll (f p)))
    by assumption.
  now rewrite Hinit, foldl_pushAll.
Qed.

Ltac event_field lem :=
  intros; unfold lastValue; apply lem; [event_own | event_other | reflexivity].

Lemma event_uid_last (props : list Property) :
  IcsEvent.uid (foldl eventProperty eventInit props) = lastValue "UID" props.
Proof. event_field (event_assigned IcsEvent.uid "UID" value). Qed.

Lemma event_dtstamp_last (props : list Property) :
  IcsEvent.dtstamp (foldl eventProperty eventInit props) = lastValue "DTSTAMP" props.
Proof. event_field (event_assigned IcsEvent.dtstamp "DTSTAMP" value). Qed.

Lemma event_dtstart_last (props : list Property) :
  IcsEvent.dtstart (foldl eventProperty eventInit props) = lastValue "DTSTART" props.
Proof. event_field (event_assigned IcsEvent.dtstart "DTSTART" value). Qed.

Lemma event_dtend_last (props : list Property) :
  IcsEvent.dtend (foldl eventProperty eventInit props) = lastValue "DTEND" props.
Proof. event_field (event_assigned IcsEvent.dtend "DTEND" value). Qed.

Lemma event_duration_last (props : list Property) :
  IcsEvent.duration (foldl eventProperty eventInit props) = lastValue "DURATION" props.
Proof. event_field (event_assigned IcsEvent.duration "DURATION" value). Qed.

Lemma event_summary_last (props : list Property) :
  IcsEvent.summary (foldl eventProperty eventInit props) = lastValue "SUMMARY" props.
Proof. event_field (event_assigned IcsEvent.summary "SUMMARY" value). Qed.

Lemma event_description_last (props : list Property) :
  IcsEvent.description (foldl eventProperty eventInit props) = lastValue "DESCRIPTION" props.
Proof. event_field (event_assigned IcsEvent.description "DESCRIPTION" value). Qed.

Lemma event_location_last (props : list Property) :
  IcsEvent.location (foldl eventProperty eventInit props) = lastValue "LOCATION" props.
Proof. event_field (event_assigned IcsEvent.location "LOCATION" value). Qed.

Lemma event_status_last (props : list Property) :
  IcsEvent.status (foldl eventProperty eventInit props) = lastValue "STATUS" props.
Proof. event_field (event_assigned IcsEvent.status "STATUS" value). Qed.

Lemma event_class_last (props : list Property) :
  IcsEvent.class (foldl eventProperty eventInit props) = lastValue "CLASS" props.
Proof. event_field (event_assigned IcsEvent.class "CLASS" value). Qed.

Lemma event_transp_last (props : list Property) :
  IcsEvent.transp (foldl eventProperty eventInit props) = lastValue "TRANSP" props.
Proof. event_field (event_assigned IcsEvent.transp "TRANSP" value). Qed.

Lemma event_created_last (props : list Property) :
  IcsEvent.created (foldl eventProperty eventInit props) = lastValue "CREATED" props.
Proof. event_field (event_assigned IcsEvent.created "CREATED" value). Qed.

Lemma event_lastModified_last (props : list Property) :
  IcsEvent.lastModified (foldl eventProperty eventInit props) = lastValue "LAST-MODIFIED" props.
Proof. event_field (event_assigned IcsEvent.lastModified "LAST-MODIFIED" value). Qed.

Lemma event_url_last (props : list Property) :
  IcsEvent.url (foldl eventProperty eventInit props) = lastValue "URL" props.
Proof. event_field (event_assigned IcsEvent.url "URL" value). Qed.

Lemma event_geo_last (props : list Property) :
  IcsEvent.geo (foldl eventProperty eventInit props) = lastValue "GEO" props.
Proof. event_field (event_assigned IcsEvent.geo "GEO" value). Qed.

Lemma event_recurid_last (props : list Property) :
  IcsEvent.recurid (foldl eventProperty eventInit props) = lastValue "RECURID" props.
Proof. event_field (event_assigned IcsEvent.recurid "RECURID" value). Qed.

Lemma event_rrule_last (props : list Property) :
  IcsEvent.rrule (foldl eventProperty eventInit props) = lastValue "RRULE" props.
Proof. event_field (event_assigned IcsEvent.rrule "RRULE" value). Qed.

Lemma event_priority_last (props : list Property) :
  IcsEvent.priority (foldl eventProperty eventInit props)
  = Js.parseInt <$> lastValue "PRIORITY" props.
Proof.
  unfold lastValue. rewrite <- option_fmap_compose.
  apply (event_assigned IcsEvent.priority "PRIORITY");
    [event_own | event_other | reflexivity].
Qed.

Lemma event_sequence_last (props : list Property) :
  IcsEvent.sequence (foldl eventProperty eventInit props)
  = Js.parseInt <$> lastValue "SEQUENCE" props.
Proof.
  unfold lastValue. rewrite <- option_fmap_compose.
  apply (event_assigned IcsEvent.sequence "SEQUENCE");
    [event_own | event_other | reflexivity].
Qed.

Lemma event_organizer_last (props : list Property) :
  IcsEvent.organizer (foldl eventProperty eventInit props)
  = personOf <$> last (named "ORGANIZER" props).
Proof. event_field (event_assigned IcsEvent.organizer "ORGANIZER" personOf). Qed.

Lemma event_attendee_all (props : list Property) :
  IcsEvent.attendee (foldl eventProperty eventInit props)
  = Some (personOf <$> named "ATTENDEE" props).
Proof. event_field (event_pushed IcsEvent.attendee "ATTENDEE" personOf). Qed.

Lemma event_comment_all (props : list Property) :
  IcsEvent.comment (foldl eventProperty eventInit props)
  = Some (value <$> named "COMMENT" props).
Proof. event_field (event_pushed IcsEvent.comment "COMMENT" value). Qed.

Lemma event_contact_all (props : list Property) :
  IcsEvent.contact (foldl eventProperty eventInit props)
  = Some (value <$> named "CONTACT" props).
Proof. event_field (event_pushed IcsEvent.contact "CONTACT" value). Qed.

Lemma event_attach_all (props : list Property) :
  IcsEvent.attach (foldl eventProperty eventInit props)
  = Some (value <$> named "ATTACH" props).
Proof. event_field (event_pushed IcsEvent.attach "ATTACH" value). Qed.

Lemma event_related_all (props : list Property) :
  IcsEvent.related (foldl eventProperty eventInit props)
  = Some (value <$> named "RELATED" props).
Proof. event_field (event_pushed IcsEvent.related "RELATED" value). Qed.

Lemma event_categories_all (props : list Property) :
  IcsEvent.categories (foldl eventProperty eventInit props)
  = Some (mjoin (listValue <$> named "CATEGORIES" props)).
Proof.
  event_field (event_pushedAll IcsEvent.categories "CATEGORIES"
                 listValue).
Qed.

Lemma event_exdate_all (props : list Property) :
  IcsEvent.exdate (foldl eventProperty eventInit props)
  = Some (mjoin (listValue <$> named "EXDATE" props)).
Proof.
  event_field (event_pushedAll IcsEvent.exdate "EXDATE"
                 listValue).
Qed.

Lemma event_resources_all (props : list Property) :
  IcsEvent.resources (foldl eventProperty eventInit props)
  = Some (mjoin (listValue <$> named "RESOURCES" props)).
Proof.
  event_field (event_pushedAll IcsEvent.resources "RESOURCES"
                 listValue).
Qed.

Lemma event_rdate_all (props : list Property) :
  IcsEvent.rdate (foldl eventProperty eventInit props)
  = Some (mjoin (listValue <$> named "RDATE" props)).
Proof.
  event_field (event_pushedAll IcsEvent.rdate "RDATE"
                 listValue).
Qed.


Lemma parseEventBlock_Return (ext : Externals) (block : ComponentBlock)
    (e : IcsEvent.t) :
  parseEventBlock ext block = Return e ->
  e = icsEventValue (eventCandidate block)
  /\ icsEventSchema ext (eventCandidate block) = true.
Proof.
  unfold parseEventBlock, icsEventSchema_parse.
  destruct (icsEventSchema ext (eventCandidate block)); [|discriminate].
  intros [= <-]. now split.
Qed.

Lemma deleteIfEmpty_Some {A} (l : list A) :
  deleteIfEmpty (Some l) = nonEmpty l.
Proof. now destruct l. Qed.

(** X1: in the event [parseEventBlock] returns, each field the mapper
    assigns ([uid], [dtstamp], [summary], ...) holds the value of the last
    property of its name in the block, and is absent when the block has no
    such property; [priority] and [sequence] hold [parseInt] of that value
    and [organizer] the person read from that property, with the email and
    the common name only. *)
Theorem event_assigned_fields_hold_last_property (ext : Externals)
    (block : ComponentBlock) (e : IcsEvent.t) :
  parseEventBlock ext block = Return e ->
  let props := properties block in
  IcsEvent.uid e = lastValue "UID" props
  /\ IcsEvent.dtstamp e = lastValue "DTSTAMP" props
  /\ IcsEvent.dtstart e = lastValue "DTSTART" props
  /\ IcsEvent.dtend e = lastValue "DTEND" props
  /\ IcsEvent.duration e = lastValue "DURATION" props
  /\ IcsEvent.summary e = lastValue "SUMMARY" props
  /\ IcsEvent.description e = lastValue "DESCRIPTION" props
  /\ IcsEvent.location e = lastValue "LOCATION" props
  /\ IcsEvent.status e = lastValue "STATUS" props
  /\ IcsEvent.class e = lastValue "CLASS" props
  /\ IcsEvent.transp e = lastValue "TRANSP" props
  /\ IcsEvent.priority e = Js.parseInt <$> lastValue "PRIORITY" props
  /\ IcsEvent.sequence e = Js.parseInt <$> lastValue "SEQUENCE" props
  /\ IcsEvent.created e = lastValue "CREATED" props
  /\ IcsEvent.lastModified e = lastValue "LAST-MODIFIED" props
  /\ IcsEvent.url e = lastValue "URL" props
  /\ IcsEvent.geo e = lastValue "GEO" props
  /\ IcsEvent.recurid e = lastValue "RECURID" props
  /\ IcsEvent.rrule e = lastValue "RRULE" props
  /\ IcsEvent.organizer e
     = (fun p => organizerValue (personOf p))
         <$> last (named "ORGANIZER" props).
Proof.
  intros He props. apply parseEventBlock_Return in He as [-> _].
  unfold eventCandidate. fold props.
  repeat split;
    [ apply event_uid_last | apply event_dtstamp_last
    | apply event_dtstart_last | apply event_dtend_last
    | apply event_duration_last | apply event_summary_last
    | apply event_description_last | apply event_location_last
    | apply event_status_last | apply event_class_last
    | apply event_transp_last | apply event_priority_last
    | apply event_sequence_last | apply event_created_last
    | apply event_lastModified_last | apply event_url_last
    | apply event_geo_last | apply event_recurid_last
    | apply event_rrule_last | ].
  change (IcsEvent.organizer (icsEventValue (eventCleanUp ?x)))
    with (organizerValue <$> IcsEvent.organizer x).
  rewrite event_organizer_last. now destruct (last (named "ORGANIZER" props)).
Qed.

Lemma event_assigned_fields_hold_last_property_witness :
  match parseEventBlock plainExternals sampleEvent with
  | Return e =>
      IcsEvent.summary e = Some "Team Meeting"
      /\ IcsEvent.priority e = Some (Js.Int 5)
      /\ IcsEvent.location e = None
  | Throw _ => False
  end.
Proof.
  destruct (parseEventBlock plainExternals sampleEvent) as [e|error] eqn:He.
  - pose proof (event_assigned_fields_hold_last_property _ _ _ He) as H.
    cbv zeta in H.
    destruct H as (_ & _ & _ & _ & _ & Hsummary & _ & Hlocation & _ & _ & _
                   & Hpriority & _).
    rewrite Hsummary, Hlocation, Hpriority. repeat split.
  - vm_compute in He. discriminate He.
Defined.

(** X2: in the event [parseEventBlock] returns, each array holds what the
    properties of its name give, in the order of the block: the persons of
    the ATTENDEE properties, the values of the COMMENT, CONTACT, ATTACH and
    RELATED properties, and the comma-separated values of the CATEGORIES,
    EXDATE, RESOURCES and RDATE properties, one after the other.  An array
    that would be empty is absent. *)
Theorem event_arrays_hold_all_properties (ext : Externals)
    (block : ComponentBlock) (e : IcsEvent.t) :
  parseEventBlock ext block = Return e ->
  let props := properties block in
  IcsEvent.attendee e = nonEmpty (personOf <$> named "ATTENDEE" props)
  /\ IcsEvent.comment e = nonEmpty (value <$> named "COMMENT" props)
  /\ IcsEvent.contact e = nonEmpty (value <$> named "CONTACT" props)
  /\ IcsEvent.attach e = nonEmpty (value <$> named "ATTACH" props)
  /\ IcsEvent.related e = nonEmpty (value <$> named "RELATED" props)
  /\ IcsEvent.categories e
     = nonEmpty (mjoin (listValue <$> named "CATEGORIES" props))
  /\ IcsEvent.exdate e
     = nonEmpty (mjoin (listValue <$> named "EXDATE" props))
  /\ IcsEvent.resources e
     = nonEmpty (mjoin (listValue <$> named "RESOURCES" props))
  /\ IcsEvent.rdate e
     = nonEmpty (mjoin (listValue <$> named "RDATE" props)).
Proof.
  intros He props. apply parseEventBlock_Return in He as [-> _].
  unfold eventCandidate. fold props.
  repeat split.
  - change (IcsEvent.attendee (icsEventValue (eventCleanUp ?x)))
      with (deleteIfEmpty (IcsEvent.attendee x)).
    now rewrite event_attendee_all, deleteIfEmpty_Some.
  - change (IcsEvent.comment (icsEventValue (eventCleanUp ?x)))
      with (deleteIfEmpty (IcsEvent.comment x)).
    now rewrite event_comment_all, deleteIfEmpty_Some.
  - change (IcsEvent.contact (icsEventValue (eventCleanUp ?x)))
      with (deleteIfEmpty (IcsEvent.contact x)).
    now rewrite event_contact_all, deleteIfEmpty_Some.
  - change (IcsEvent.attach (icsEventValue (eventCleanUp ?x)))
      with (deleteIfEmpty (IcsEvent.attach x)).
    now rewrite event_attach_all, deleteIfEmpty_Some.
  - change (IcsEvent.related (icsEventValue (eventCleanUp ?x)))
      with (deleteIfEmpty (IcsEvent.related x)).
    now rewrite event_related_all, deleteIfEmpty_Some.
  - change (IcsEvent.categories (icsEventValue (eventCleanUp ?x)))
      with (deleteIfEmpty (IcsEvent.categories x)).
    now rewrite event_categories_all, deleteIfEmpty_Some.
  - change (IcsEvent.exdate (icsEventValue (eventCleanUp ?x)))
      with (deleteIfEmpty (IcsEvent.exdate x)).
    now rewrite event_exdate_all, deleteIfEmpty_Some.
  - change (IcsEvent.resources (icsEventValue (eventCleanUp ?x)))
      with (deleteIfEmpty (IcsEvent.resources x)).
    now rewrite event_resources_all, deleteIfEmpty_Some.
  - change (IcsEvent.rdate (icsEventValue (eventCleanUp ?x)))
      with (deleteIfEmpty (IcsEvent.rdate x)).
    now rewrite event_rdate_all, deleteIfEmpty_Some.
Qed.

Lemma event_arrays_hold_all_properties_witness :
  match parseEventBlock plainExternals sampleEvent with
  | Return e =>
      (fun people : list Person => email <$> people) <$> IcsEvent.attendee e
      = Some ["ann@example.com"; "bob@example.com"]
      /\ IcsEvent.categories e = Some ["Work"; "Fun"; "Travel"]
      /\ IcsEvent.comment e = None
  | Throw _ => False
  end.
Proof.
  destruct (parseEventBlock plainExternals sampleEvent) as [e|error] eqn:He.
  - pose proof (event_arrays_hold_all_properties _ _ _ He) as H.
    cbv zeta in H.
    destruct H as (Hattendee & Hcomment & _ & _ & _ & Hcategories & _).
    rewrite Hattendee, Hcomment, Hcategories. repeat split.
  - vm_compute in He. discriminate He.
Defined.

(** *** Custom properties *)

(** A field that only the properties picked by [own] write. *)
Lemma foldl_own {E V} (step : E -> Property -> E) (get : E -> V)
    (own : string -> bool) (u : Property -> V -> V) :
  (forall e p, own (name p) = true -> get (step e p) = u p (get e)) ->
  (forall e p, own (name p) = false -> get (step e p) = get e) ->
  forall props e,
    get (foldl step e props)
    = foldl (fun v p => u p v) (get e)
        (filter (fun p => own (name p) = true) props).
Proof.
  intros Hown Hother.
  induction props as [|p props IH]; intros e; [reflexivity|].
  cbn [foldl]. rewrite IH, filter_cons.
  destruct (decide (own (name p) = true)) as [Hn|Hn].
  - cbn [foldl]. now rewrite Hown.
  - rewrite Hother; [reflexivity | now destruct (own (name p))].
Qed.

Lemma foldl_insert_lookup (props : list Property) (m : gmap string string)
    (k : string) :
  foldl (fun m' p => <[name p := value p]> m') m props !! k
  = match last (named k props) with
    | Some p => Some (value p)
    | None => m !! k
    end.
Proof.
  revert m. unfold named.
  induction props as [|p props IH]; intros m; [reflexivity|].
  cbn [foldl]. rewrite IH, filter_cons.
  destruct (decide (name p = k)) as [<-|Hne].
  - destruct (filter _ props) as [|q l] eqn:E.
    + cbn. apply lookup_insert_eq.
    + rewrite last_cons_cons.
      destruct (last (q :: l)) eqn:E'; [reflexivity|].
      apply last_None in E'. discriminate E'.
  - destruct (last (filter _ props)); [reflexivity|].
    now apply lookup_insert_ne.
Qed.

Lemma foldl_insert_Some (props : list Property)
    (m : gmap string string) :
  foldl (fun m' p => (fun d => <[name p := value p]> d) <$> m') (Some m) props
  = Some (foldl (fun m' p => <[name p := value p]> m') m props).
Proof.
  revert m. induction props as [|p props IH]; intros m; [reflexivity|].
  cbn [foldl]. cbn. apply IH.
Qed.

Lemma named_custom (k : string) (props : list Property) :
  named k (filter (fun p => isCustom (name p) = true) props)
  = if isCustom k then named k props else [].
Proof.
  unfold named. induction props as [|p props IH]; [now destruct (isCustom k)|].
  rewrite !filter_cons.
  destruct (decide (isCustom (name p) = true)) as [Hc|Hc];
    destruct (decide (name p = k)) as [<-|Hne].
  - rewrite filter_cons, decide_True, IH, Hc by reflexivity. reflexivity.
  - rewrite filter_cons, decide_False, IH by assumption. reflexivity.
  - rewrite IH. now destruct (isCustom (name p)).
  - exact IH.
Qed.

Lemma event_customProperties_all (props : list Property) :
  IcsEvent.customProperties (foldl eventProperty eventInit props)
  = Some (foldl (fun m p => <[name p := value p]> m) ∅
            (filter (fun p => isCustom (name p) = true) props)).
Proof.
  rewrite (foldl_own eventProperty IcsEvent.customProperties isCustom
             (fun p m => (fun d => <[name p := value p]> d) <$> m)).
  - apply foldl_insert_Some.
  - intros e p H. unfold eventProperty, eventCases. cbn [switch].
    repeat match goal with
           | |- context [String.eqb (name p) ?l] =>
               destruct (String.eqb_spec (name p) l) as [Hl|_];
               [rewrite Hl in H; discriminate H|]
           end.
    unfold eventDefault. unfold isCustom in H. now rewrite H.
  - intros e p H. unfold eventProperty, eventCases.
    cbn [switch]. unfold isCustom in H.
    repeat match goal with
           | |- context [String.eqb (name p) ?l] =>
               destruct (String.eqb (name p) l); [reflexivity|]
           end.
    unfold eventDefault. now rewrite H.
Qed.

(** X3: in the event [parseEventBlock] returns, the custom properties
    hold, under each name that starts with [X-], the value of the last
    property of that name in the block, and nothing under any other name;
    the dictionary is absent, not empty, when the block has no such
    property. *)
Theorem event_customProperties_hold_last_property (ext : Externals)
    (block : ComponentBlock) (e : IcsEvent.t) :
  parseEventBlock ext block = Return e ->
  (forall k : string,
     entry k (IcsEvent.customProperties e)
     = if isCustom k then lastValue k (properties block) else None)
  /\ IcsEvent.customProperties e <> Some ∅.
Proof.
  intros He. apply parseEventBlock_Return in He as [-> _].
  unfold eventCandidate.
  change (IcsEvent.customProperties (icsEventValue (eventCleanUp ?x)))
    with (deleteIfNoKeys (IcsEvent.customProperties x)).
  rewrite event_customProperties_all. cbn [deleteIfNoKeys].
  split.
  - intros k. unfold entry, lastValue.
    case_bool_decide as Hempty; cbn.
    + pose proof (foldl_insert_lookup
                    (filter (fun p => isCustom (name p) = true)
                       (properties block)) ∅ k) as Hk.
      rewrite Hempty, lookup_empty, named_custom in Hk.
      destruct (isCustom k); [|reflexivity].
      now destruct (last (named k (properties block))).
    + rewrite foldl_insert_lookup, named_custom, lookup_empty.
      destruct (isCustom k); [|reflexivity].
      now destruct (last (named k (properties block))).
  - case_bool_decide; congruence.
Qed.

Lemma event_customProperties_hold_last_property_witness :
  match parseEventBlock plainExternals sampleEvent with
  | Return e =>
      entry "X-COLOR" (IcsEvent.customProperties e) = Some "blue"
      /\ entry "SUMMARY" (IcsEvent.customProperties e) = None
  | Throw _ => False
  end.
Proof.
  destruct (parseEventBlock plainExternals sampleEvent) as [e|error] eqn:He.
  - destruct (event_customProperties_hold_last_property _ _ _ He)
      as [Hentry _].
    rewrite !Hentry. split; reflexivity.
  - vm_compute in He. discriminate He.
Defined.

(** *** What a returned event satisfies *)

Lemma icsEventValue_idempotent (data : IcsEvent.t) :
  icsEventValue (icsEventValue data) = icsEventValue data.
Proof.
  unfold icsEventValue. destruct data; cbn.
  now destruct organizer.
Qed.

Lemma icsEventSchema_value (ext : Externals) (data : IcsEvent.t) :
  icsEventSchema ext (icsEventValue data) = icsEventSchema ext data.
Proof.
  unfold icsEventSchema, icsEventObjectSchema, notBothDtendAndDuration,
    icsEventValue.
  destruct data; cbn. now destruct organizer.
Qed.

(** X4: an event [parseEventBlock] returns passes the event schema again
    and is the value the schema gives for it, so the second validation,
    inside the calendar schema, changes nothing.  In particular it has a
    [uid] that is not empty, a [dtstamp] that is a date-time, and not both
    [dtend] and [duration]. *)
Theorem returned_event_is_valid (ext : Externals) (block : ComponentBlock)
    (e : IcsEvent.t) :
  parseEventBlock ext block = Return e ->
  icsEventSchema ext e = true
  /\ icsEventSchema_parse ext e = Return e
  /\ (exists uid, IcsEvent.uid e = Some uid /\ uid <> "")
  /\ (exists dtstamp,
        IcsEvent.dtstamp e = Some dtstamp
        /\ icsDateTimeSchema dtstamp = true)
  /\ ~ (IcsEvent.dtend e <> None /\ IcsEvent.duration e <> None).
Proof.
  intros He. apply parseEventBlock_Return in He as [-> Hvalid].
  rewrite <- icsEventSchema_value in Hvalid.
  pose proof (icsEventValue_idempotent (eventCandidate block)) as Hidem.
  revert Hvalid Hidem.
  generalize (icsEventValue (eventCandidate block)). intros e Hvalid Hidem.
  split; [exact Hvalid|]. split.
  { unfold icsEventSchema_parse. now rewrite Hvalid, Hidem. }
  clear Hidem. unfold icsEventSchema in Hvalid.
  apply andb_prop in Hvalid as [Hobject Hrefine].
  destruct e as [uid dtstamp]. cbn [IcsEvent.uid IcsEvent.dtstamp
    IcsEvent.dtend IcsEvent.duration] in *.
  unfold icsEventObjectSchema in Hobject.
  cbn [IcsEvent.uid IcsEvent.dtstamp] in Hobject.
  destruct uid as [uid|]; [|discriminate Hobject].
  destruct dtstamp as [dtstamp|];
    [|cbn in Hobject; rewrite andb_false_r in Hobject; discriminate Hobject].
  cbn [required] in Hobject.
  destruct (z_string_min1 uid) eqn:Huid; [|discriminate Hobject].
  destruct (icsDateTimeSchema dtstamp) eqn:Hstamp; [|discriminate Hobject].
  clear Hobject. repeat split.
  - exists uid. split; [reflexivity|]. intros ->. discriminate Huid.
  - exists dtstamp. split; [reflexivity | exact Hstamp].
  - intros [Hdtend Hduration]. unfold notBothDtendAndDuration in Hrefine.
    cbn [IcsEvent.dtend IcsEvent.duration] in Hrefine.
    rewrite !bool_decide_eq_true_2 in Hrefine by assumption.
    discriminate Hrefine.
Qed.

Lemma returned_event_is_valid_witness :
  match parseEventBlock plainExternals sampleEvent with
  | Return e => icsEventSchema_parse plainExternals e = Return e
  | Throw _ => False
  end.
Proof.
  destruct (parseEventBlock plainExternals sampleEvent) as [e|error] eqn:He.
  - now destruct (returned_event_is_valid _ _ _ He) as (_ & Hparse & _).
  - vm_compute in He. discriminate He.
Defined.

Lemma eventCandidate_uid (block : ComponentBlock) :
  IcsEvent.uid (eventCandidate block) = lastValue "UID" (properties block).
Proof. apply event_uid_last. Qed.

Lemma eventCandidate_dtstamp (block : ComponentBlock) :
  IcsEvent.dtstamp (eventCandidate block)
  = lastValue "DTSTAMP" (properties block).
Proof. apply event_dtstamp_last. Qed.

(** X5: an event block with no UID property, or with no DTSTAMP property,
    is refused by the event schema: [parseEventBlock] throws a
    [ZodError]. *)
Theorem event_without_uid_or_dtstamp_is_rejected (ext : Externals)
    (block : ComponentBlock) :
  named "UID" (properties block) = []
  \/ named "DTSTAMP" (properties block) = [] ->
  parseEventBlock ext block
  = Throw (ZodError (zod_event_message ext (eventCandidate block))).
Proof.
  intros H. unfold parseEventBlock, icsEventSchema_parse.
  assert (Hschema : icsEventSchema ext (eventCandidate block) = false).
  { unfold icsEventSchema.
    assert (Hobject : icsEventObjectSchema ext (eventCandidate block) = false);
      [|now rewrite Hobject].
    unfold icsEventObjectSchema.
    rewrite eventCandidate_uid, eventCandidate_dtstamp. unfold lastValue.
    destruct H as [-> | ->]; cbn [last fmap option_fmap option_map required].
    - reflexivity.
    - rewrite andb_false_r. reflexivity. }
  now rewrite Hschema.
Qed.

Lemma event_without_uid_or_dtstamp_is_rejected_witness :
  named "UID"
    [ {| name := "DTSTAMP"; parameters := ∅; value := "20231201T120000Z" |};
      {| name := "SUMMARY"; parameters := ∅; value := "No uid" |} ] = []
  /\ forall ext,
       exists message,
         parseEventBlock ext
           (Block "VEVENT"
              [ {| name := "DTSTAMP"; parameters := ∅;
                   value := "20231201T120000Z" |};
                {| name := "SUMMARY"; parameters := ∅; value := "No uid" |} ]
              [])
         = Throw (ZodError message).
Proof.
  split; [reflexivity|]. intros ext. eexists.
  apply (event_without_uid_or_dtstamp_is_rejected ext
           (Block "VEVENT"
              [ {| name := "DTSTAMP"; parameters := ∅;
                   value := "20231201T120000Z" |};
                {| name := "SUMMARY"; parameters := ∅; value := "No uid" |} ]
              [])).
  left. reflexivity.
Defined.

(** ** The calendar mapper *)

Lemma forOf_collect {A S B} (body : A -> S -> IO S) (get : S -> list B)
    (f : A -> list B) :
  (forall x s, get (fst (body x s)) = get s ++ f x) ->
  forall l s, get (fst (forOf body l s)) = get s ++ mjoin (f <$> l).
Proof.
  intros Hstep. induction l as [|x l IH]; intros s; cbn [forOf].
  - cbn. now rewrite app_nil_r.
  - rewrite fst_bind, IH, Hstep, <- app_assoc. reflexivity.
Qed.

Lemma forOf_frame {A S B} (body : A -> S -> IO S) (get : S -> B) :
  (forall x s, get (fst (body x s)) = get s) ->
  forall l s, get (fst (forOf body l s)) = get s.
Proof.
  intros Hstep. induction l as [|x l IH]; intros s; cbn [forOf].
  - reflexivity.
  - now rewrite fst_bind, IH, Hstep.
Qed.

Lemma mjoin_filter_omap {A B} (P : A -> Prop) `{!forall x, Decision (P x)}
    (h : A -> option B) (l : list A) :
  mjoin ((fun x => if decide (P x) then option_list (h x) else []) <$> l)
  = omap h (filter P l).
Proof.
  induction l as [|x l IH]; [reflexivity|].
  cbn [fmap list_fmap mjoin list_join]. rewrite filter_cons.
  fold (@fmap list _ A (list B)). 
  change (mjoin ?x) with (mjoin x) in IH.
  destruct (decide (P x)).
  - cbn [omap list_omap]. fold (@omap list _ A B).
    destruct (h x); cbn; now f_equal.
  - exact IH.
Qed.

Section CalendarLoop.

Context (ext : Externals) (debug : bool).

Ltac sub_finish :=
  first
    [ reflexivity
    | rewrite app_nil_r; reflexivity
    | destruct (parseEventBlock ext _);
      first [reflexivity | rewrite app_nil_r; reflexivity] ].

Ltac sub_step :=
  intros; unfold calendarSubComponent, subComponentCases, subComponentDefault;
  cbn [switch];
  repeat match goal with
         | |- context [String.eqb (type ?s) ?l] =>
             let Ht := fresh "Ht" in
             destruct (String.eqb_spec (type s) l) as [Ht|Ht];
             [rewrite ?Ht; sub_finish|]
         end;
  first
    [ rewrite decide_False by assumption; sub_finish
    | rewrite decide_True
        by (unfold knownTypes; rewrite !not_elem_of_cons;
            repeat split; auto using not_elem_of_nil);
      sub_finish
    | sub_finish ].

Lemma step_events (sub : ComponentBlock) (cal : IcsCalendar.t) :
  IcsCalendar.events (fst (calendarSubComponent ext debug sub cal))
  = IcsCalendar.events cal
      ++ (if decide (type sub = "VEVENT")
          then option_list (returned (parseEventBlock ext sub)) else []).
Proof. sub_step. Qed.

Lemma step_todos (sub : ComponentBlock) (cal : IcsCalendar.t) :
  IcsCalendar.todos (fst (calendarSubComponent ext debug sub cal))
  = IcsCalendar.todos cal
      ++ (if decide (type sub = "VTODO")
          then option_list (Some (parseTodoBlock sub)) else []).
Proof. sub_step. Qed.

Lemma step_journals (sub : ComponentBlock) (cal : IcsCalendar.t) :
  IcsCalendar.journals (fst (calendarSubComponent ext debug sub cal))
  = IcsCalendar.journals cal
      ++ (if decide (type sub = "VJOURNAL")
          then option_list (Some (parseJournalBlock sub)) else []).
Proof. sub_step. Qed.

Lemma step_freebusys (sub : ComponentBlock) (cal : IcsCalendar.t) :
  IcsCalendar.freebusys (fst (calendarSubComponent ext debug sub cal))
  = IcsCalendar.freebusys cal
      ++ (if decide (type sub = "VFREEBUSY")
          then option_list (Some (parseFreebusyBlock sub)) else []).
Proof. sub_step. Qed.

Lemma step_timezones (sub : ComponentBlock) (cal : IcsCalendar.t) :
  IcsCalendar.timezones (fst (calendarSubComponent ext debug sub cal))
  = IcsCalendar.timezones cal
      ++ (if decide (type sub = "VTIMEZONE")
          then option_list (Some (parseTimezoneBlock sub)) else []).
Proof. sub_step. Qed.

Lemma step_unparsed (sub : ComponentBlock) (cal : IcsCalendar.t) :
  IcsCalendar.unparsedComponents
    (fst (calendarSubComponent ext debug sub cal))
  = IcsCalendar.unparsedComponents cal
      ++ (if decide (type sub ∉ knownTypes)
          then option_list (Some (unparsedOf ext sub)) else []).
Proof. sub_step. Qed.

End CalendarLoop.

Lemma omap_total {A B} (f : A -> B) (l : list A) :
  omap (fun x => Some (f x)) l = f <$> l.
Proof. induction l as [|x l IH]; [reflexivity|]. cbn. now f_equal. Qed.

Lemma fmap_omap_fixed {A B} (g : B -> B) (h : A -> option B) (l : list A) :
  (forall x y, h x = Some y -> g y = y) -> g <$> omap h l = omap h l.
Proof.
  intros Hfix. induction l as [|x l IH]; [reflexivity|]. cbn.
  destruct (h x) as [y|] eqn:Hx; [|exact IH].
  cbn. f_equal; [now apply (Hfix x) | exact IH].
Qed.

Lemma eventOf_fixed (ext : Externals) (b : ComponentBlock) (e : IcsEvent.t) :
  eventOf ext b = Some e -> icsEventValue e = e.
Proof.
  unfold eventOf. destruct (parseEventBlock ext b) as [e'|] eqn:He;
    [|discriminate].
  intros [= <-]. apply parseEventBlock_Return in He as [-> _].
  apply icsEventValue_idempotent.
Qed.

Lemma parseCalendarBlock_Return (ext : Externals) (debug : bool)
    (block : ComponentBlock) (cal : IcsCalendar.t) :
  fst (parseCalendarBlock ext block debug) = Return cal ->
  cal = icsCalendarValue (calendarCandidate ext debug block)
  /\ icsCalendarSchema ext (calendarCandidate ext debug block) = true.
Proof.
  unfold parseCalendarBlock. rewrite fst_bind.
  fold (calendarCandidate ext debug block).
  cbn [mret IO_ret fst]. unfold icsCalendarSchema_parse.
  destruct (icsCalendarSchema ext _); [|discriminate].
  intros [= <-]. now split.
Qed.

Lemma foldl_frame {E V} (step : E -> Property -> E) (get : E -> V) :
  (forall e p, get (step e p) = get e) ->
  forall props e, get (foldl step e props) = get e.
Proof.
  intros Hstep. induction props as [|p props IH]; intros e; [reflexivity|].
  cbn [foldl]. now rewrite IH, Hstep.
Qed.

Ltac calendar_property_frame :=
  let e := fresh "e" in let p := fresh "p" in
  intros e p; unfold calendarProperty, calendarCases, calendarDefault;
  cbn [switch];
  repeat match goal with
         | |- context [String.eqb (name p) ?l] =>
             destruct (String.eqb (name p) l); [reflexivity|]
         end;
  destruct (Js.startsWith (name p) "X-"); reflexivity.

Ltac calendar_sub_frame ext :=
  let x := fresh "x" in let c := fresh "c" in
  intros x c;
  unfold calendarSubComponent, subComponentCases, subComponentDefault;
  cbn [switch];
  repeat match goal with
         | |- context [String.eqb (type x) ?l] =>
             destruct (String.eqb (type x) l);
             [first [reflexivity
                    | destruct (parseEventBlock ext x); reflexivity]|]
         end;
  reflexivity.

Section CalendarCandidate.

Context (ext : Externals) (debug : bool) (block : ComponentBlock).

Lemma candidate_events :
  IcsCalendar.events (calendarCandidate ext debug block)
  = omap (eventOf ext) (ofType "VEVENT" (subComponents block)).
Proof.
  unfold calendarCandidate.
  rewrite (forOf_collect _ IcsCalendar.events _ (step_events ext debug)).
  rewrite (mjoin_filter_omap (fun b => type b = "VEVENT")).
  rewrite (foldl_frame calendarProperty IcsCalendar.events)
    by calendar_property_frame.
  unfold ofType, eventOf. reflexivity.
Qed.

Lemma candidate_todos :
  IcsCalendar.todos (calendarCandidate ext debug block)
  = parseTodoBlock <$> ofType "VTODO" (subComponents block).
Proof.
  unfold calendarCandidate.
  rewrite (forOf_collect _ IcsCalendar.todos _ (step_todos ext debug)).
  rewrite (mjoin_filter_omap (fun b => type b = "VTODO")), omap_total.
  rewrite (foldl_frame calendarProperty IcsCalendar.todos)
    by calendar_property_frame.
  reflexivity.
Qed.

Lemma candidate_journals :
  IcsCalendar.journals (calendarCandidate ext debug block)
  = parseJournalBlock <$> ofType "VJOURNAL" (subComponents block).
Proof.
  unfold calendarCandidate.
  rewrite (forOf_collect _ IcsCalendar.journals _ (step_journals ext debug)).
  rewrite (mjoin_filter_omap (fun b => type b = "VJOURNAL")), omap_total.
  rewrite (foldl_frame calendarProperty IcsCalendar.journals)
    by calendar_property_frame.
  reflexivity.
Qed.

Lemma candidate_freebusys :
  IcsCalendar.freebusys (calendarCandidate ext debug block)
  = parseFreebusyBlock <$> ofType "VFREEBUSY" (subComponents block).
Proof.
  unfold calendarCandidate.
  rewrite (forOf_collect _ IcsCalendar.freebusys _
             (step_freebusys ext debug)).
  rewrite (mjoin_filter_omap (fun b => type b = "VFREEBUSY")), omap_total.
  rewrite (foldl_frame calendarProperty IcsCalendar.freebusys)
    by calendar_property_frame.
  reflexivity.
Qed.

Lemma candidate_timezones :
  IcsCalendar.timezones (calendarCandidate ext debug block)
  = parseTimezoneBlock <$> ofType "VTIMEZONE" (subComponents block).
Proof.
  unfold calendarCandidate.
  rewrite (forOf_collect _ IcsCalendar.timezones _
             (step_timezones ext debug)).
  rewrite (mjoin_filter_omap (fun b => type b = "VTIMEZONE")), omap_total.
  rewrite (foldl_frame calendarProperty IcsCalendar.timezones)
    by calendar_property_frame.
  reflexivity.
Qed.

Lemma candidate_unparsed :
  IcsCalendar.unparsedComponents (calendarCandidate ext debug block)
  = unparsedOf ext
      <$> filter (fun b => type b ∉ knownTypes) (subComponents block).
Proof.
  unfold calendarCandidate.
  rewrite (forOf_collect _ IcsCalendar.unparsedComponents _
             (step_unparsed ext debug)).
  rewrite (mjoin_filter_omap (fun b => type b ∉ knownTypes)), omap_total.
  rewrite (foldl_frame calendarProperty IcsCalendar.unparsedComponents)
    by calendar_property_frame.
  reflexivity.
Qed.

(** A field the loop over the sub-components leaves alone is the one the
    loop over the properties made. *)
Lemma candidate_head {V} (get : IcsCalendar.t -> V) :
  (forall x c, get (fst (calendarSubComponent ext debug x c)) = get c) ->
  get (calendarCandidate ext debug block)
  = get (foldl calendarProperty calendarInit (properties block)).
Proof. intros H. unfold calendarCandidate. now apply forOf_frame. Qed.

End CalendarCandidate.

(** X6: in the calendar [parseCalendarBlock] returns, the events are the
    events of the VEVENT sub-components that the event schema accepts, in
    their order; the todos, journals, freebusys and timezones are what the
    mappers give for the VTODO, VJOURNAL, VFREEBUSY and VTIMEZONE
    sub-components, one each and in their order; and every sub-component
    of another type is kept, with its type, among the unparsed
    components. *)
Theorem calendar_holds_its_sub_components (ext : Externals) (debug : bool)
    (block : ComponentBlock) (cal : IcsCalendar.t) :
  fst (parseCalendarBlock ext block debug) = Return cal ->
  let subs := subComponents block in
  IcsCalendar.events cal = omap (eventOf ext) (ofType "VEVENT" subs)
  /\ IcsCalendar.todos cal = parseTodoBlock <$> ofType "VTODO" subs
  /\ IcsCalendar.journals cal = parseJournalBlock <$> ofType "VJOURNAL" subs
  /\ IcsCalendar.freebusys cal
     = parseFreebusyBlock <$> ofType "VFREEBUSY" subs
  /\ IcsCalendar.timezones cal
     = parseTimezoneBlock <$> ofType "VTIMEZONE" subs
  /\ IcsCalendar.unparsedComponents cal
     = unparsedOf ext <$> filter (fun b => type b ∉ knownTypes) subs.
Proof.
  intros Hcal subs. apply parseCalendarBlock_Return in Hcal as [-> _].
  repeat split.
  - change (IcsCalendar.events (icsCalendarValue ?c))
      with (icsEventValue <$> IcsCalendar.events c).
    rewrite candidate_events.
    apply fmap_omap_fixed, eventOf_fixed.
  - apply candidate_todos.
  - apply candidate_journals.
  - apply candidate_freebusys.
  - apply candidate_timezones.
  - apply candidate_unparsed.
Qed.

Lemma calendar_holds_its_sub_components_witness :
  match fst (parseCalendarBlock plainExternals sampleCalendar false) with
  | Return cal =>
      IcsEvent.uid <$> IcsCalendar.events cal = [Some "a@b"]
      /\ IcsTodo.uid <$> IcsCalendar.todos cal = [Some "t1"]
      /\ tzid <$> IcsCalendar.timezones cal = ["Europe/Paris"]
      /\ unparsed_type <$> IcsCalendar.unparsedComponents cal = ["VALARM"]
  | Throw _ => False
  end.
Proof.
  destruct (fst (parseCalendarBlock plainExternals sampleCalendar false))
    as [cal|error] eqn:Hcal.
  - pose proof (calendar_holds_its_sub_components _ _ _ _ Hcal) as H.
    cbv zeta in H.
    destruct H as (Hevents & Htodos & _ & _ & Htimezones & Hunparsed).
    rewrite Hevents, Htodos, Htimezones, Hunparsed.
    repeat split; vm_compute; reflexivity.
  - vm_compute in Hcal. discriminate Hcal.
Defined.

(** *** The fields of the calendar *)

Lemma mapper_assigned {E A} (step : E -> Property -> E) (init : E)
    (get : E -> option A) (n : string) (f : Property -> A) :
  (forall e p, name p = n -> get (step e p) = Some (f p)) ->
  (forall e p, name p <> n -> get (step e p) = get e) ->
  get init = None ->
  forall props, get (foldl step init props) = f <$> last (named n props).
Proof.
  intros Hown Hother Hinit props.
  rewrite (foldl_own_name step get n (fun p _ => Some (f p))) by assumption.
  rewrite foldl_assign, Hinit. now destruct (last (named n props)).
Qed.

Lemma mapper_pushed {E A} (step : E -> Property -> E) (init : E)
    (get : E -> option (list A)) (n : string) (f : Property -> A) :
  (forall e p, name p = n -> get (step e p) = push (f p) (get e)) ->
  (forall e p, name p <> n -> get (step e p) = get e) ->
  get init = Some [] ->
  forall props, get (foldl step init props) = Some (f <$> named n props).
Proof.
  intros Hown Hother Hinit props.
  rewrite (foldl_own_name step get n (fun p => push (f p))) by assumption.
  now rewrite Hinit, foldl_push.
Qed.

Lemma named_own (own : string -> bool) (k : string) (props : list Property) :
  named k (filter (fun p => own (name p) = true) props)
  = if own k then named k props else [].
Proof.
  unfold named. induction props as [|p props IH]; [now destruct (own k)|].
  rewrite !filter_cons.
  destruct (decide (own (name p) = true)) as [Hc|Hc];
    destruct (decide (name p = k)) as [<-|Hne].
  - rewrite filter_cons, decide_True, IH, Hc by reflexivity. reflexivity.
  - rewrite filter_cons, decide_False, IH by assumption. reflexivity.
  - rewrite IH. now destruct (own (name p)).
  - exact IH.
Qed.

Ltac mapper_own step :=
  let e := fresh "e" in let p := fresh "p" in let H := fresh "H" in
  intros e p H; unfold step; rewrite H; reflexivity.
Ltac mapper_other step cases dflt :=
  let e := fresh "e" in let p := fresh "p" in let H := fresh "H" in
  intros e p H; unfold step, cases, dflt;
  cbn [switch]; switch_frame p;
  destruct (Js.startsWith (name p) "X-"); reflexivity.
Ltac calendar_field get n :=
  intros; unfold lastValue;
  apply (mapper_assigned calendarProperty calendarInit get n value);
  [ mapper_own calendarProperty
  | mapper_other calendarProperty calendarCases calendarDefault
  | reflexivity ].

Section CalendarFields.

Context (props : list Property).

Let c := foldl calendarProperty calendarInit props.

Lemma calendar_version_last : IcsCalendar.version c = lastValue "VERSION" props.
Proof. calendar_field IcsCalendar.version "VERSION". Qed.

Lemma calendar_prodid_last : IcsCalendar.prodid c = lastValue "PRODID" props.
Proof. calendar_field IcsCalendar.prodid "PRODID". Qed.

Lemma calendar_calscale_last :
  IcsCalendar.calscale c = lastValue "CALSCALE" props.
Proof. calendar_field IcsCalendar.calscale "CALSCALE". Qed.

Lemma calendar_method_last : IcsCalendar.method c = lastValue "METHOD" props.
Proof. calendar_field IcsCalendar.method "METHOD". Qed.

Lemma calendar_calname_last :
  IcsCalendar.calname c = lastValue "X-WR-CALNAME" props.
Proof. calendar_field IcsCalendar.calname "X-WR-CALNAME". Qed.

Lemma calendar_caldesc_last :
  IcsCalendar.caldesc c = lastValue "X-WR-CALDESC" props.
Proof. calendar_field IcsCalendar.caldesc "X-WR-CALDESC". Qed.

Lemma calendar_timezone_last :
  IcsCalendar.timezone c = lastValue "X-WR-TIMEZONE" props.
Proof. calendar_field IcsCalendar.timezone "X-WR-TIMEZONE". Qed.

Lemma calendar_refreshInterval_last :
  IcsCalendar.refreshInterval c = value <$> lastOwn isRefreshInterval props.
Proof.
  unfold c, lastOwn.
  rewrite (foldl_own calendarProperty IcsCalendar.refreshInterval
             isRefreshInterval (fun p _ => Some (value p))).
  - rewrite foldl_assign. now destruct (last _).
  - intros e p H. unfold isRefreshInterval in H.
    unfold calendarProperty, calendarCases. cbn [switch].
    repeat match goal with
           | |- context [String.eqb (name p) ?l] =>
               destruct (String.eqb_spec (name p) l) as [Hl|_];
               [first [reflexivity | rewrite Hl in H; discriminate H]|]
           end.
    cbn in H. discriminate H.
  - intros e p H. unfold isRefreshInterval in H.
    apply orb_false_elim in H as [H1 H2].
    unfold calendarProperty, calendarCases, calendarDefault. cbn [switch].
    rewrite H1, H2.
    repeat match goal with
           | |- context [String.eqb (name p) ?l] =>
               destruct (String.eqb (name p) l); [reflexivity|]
           end.
    destruct (Js.startsWith (name p) "X-"); reflexivity.
Qed.

Lemma calendar_customProperties_all :
  IcsCalendar.customProperties c
  = foldl (fun m p => <[name p := value p]> m) ∅
      (filter (fun p => isCalendarCustom (name p) = true) props).
Proof.
  unfold c.
  rewrite (foldl_own calendarProperty IcsCalendar.customProperties
             isCalendarCustom (fun p m => <[name p := value p]> m)).
  - reflexivity.
  - intros e p H. unfold calendarProperty, calendarCases. cbn [switch].
    repeat match goal with
           | |- context [String.eqb (name p) ?l] =>
               destruct (String.eqb_spec (name p) l) as [Hl|_];
               [rewrite Hl in H; discriminate H|]
           end.
    unfold calendarDefault. unfold isCalendarCustom in H.
    apply andb_prop in H as [H _]. now rewrite H.
  - intros e p H. unfold isCalendarCustom, calendarCases in H.
    cbn [existsb fmap list_fmap fst] in H.
    unfold calendarProperty, calendarCases. cbn [switch].
    repeat match goal with
           | |- context [String.eqb (name p) ?l] =>
               destruct (String.eqb (name p) l); [reflexivity|]
           end.
    unfold calendarDefault.
    destruct (Js.startsWith (name p) "X-"); [|reflexivity].
    cbn in H. discriminate H.
Qed.

End CalendarFields.

(** *** The todo, journal and free/busy mappers *)

Lemma entry_custom (own : string -> bool) (props : list Property)
    (k : string) :
  entry k
    (deleteIfNoKeys
       (Some (foldl (fun m p => <[name p := value p]> m) ∅
                (filter (fun p => own (name p) = true) props))))
  = if own k then lastValue k props else None.
Proof.
  pose proof (foldl_insert_lookup
                (filter (fun p => own (name p) = true) props) ∅ k) as Hk.
  rewrite named_own, lookup_empty in Hk.
  unfold entry, lastValue. cbn [deleteIfNoKeys].
  case_bool_decide as Hempty; cbn.
  - rewrite Hempty, lookup_empty in Hk.
    destruct (own k); [|reflexivity].
    now destruct (last (named k props)).
  - rewrite Hk. destruct (own k); [|reflexivity].
    now destruct (last (named k props)).
Qed.

Ltac custom_own step cases dflt :=
  let e := fresh "e" in let p := fresh "p" in let H := fresh "H" in
  intros e p H; unfold step, cases; cbn [switch];
  repeat match goal with
         | |- context [String.eqb (name p) ?l] =>
             let Hl := fresh "Hl" in
             destruct (String.eqb_spec (name p) l) as [Hl|_];
             [rewrite Hl in H; discriminate H|]
         end;
  unfold dflt; unfold isCustom in H; rewrite H; reflexivity.
Ltac custom_other step cases dflt :=
  let e := fresh "e" in let p := fresh "p" in let H := fresh "H" in
  intros e p H; unfold step, cases; cbn [switch]; unfold isCustom in H;
  repeat match goal with
         | |- context [String.eqb (name p) ?l] =>
             destruct (String.eqb (name p) l); [reflexivity|]
         end;
  unfold dflt; rewrite H; reflexivity.

Lemma mapper_custom {E} (step : E -> Property -> E) (init : E)
    (get : E -> option (gmap string string)) :
  (forall e p, isCustom (name p) = true ->
     get (step e p) = (fun d => <[name p := value p]> d) <$> get e) ->
  (forall e p, isCustom (name p) = false -> get (step e p) = get e) ->
  get init = Some ∅ ->
  forall props,
    get (foldl step init props)
    = Some (foldl (fun m p => <[name p := value p]> m) ∅
              (filter (fun p => isCustom (name p) = true) props)).
Proof.
  intros Hown Hother Hinit props.
  rewrite (foldl_own step get isCustom
             (fun p m => (fun d => <[name p := value p]> d) <$> m))
    by assumption.
  rewrite Hinit. apply foldl_insert_Some.
Qed.

Lemma todo_uid_last (props : list Property) :
  IcsTodo.uid (foldl todoProperty todoInit props) = lastValue "UID" props.
Proof.
  unfold lastValue.
  apply (mapper_assigned todoProperty todoInit IcsTodo.uid "UID" value);
    [ mapper_own todoProperty | mapper_other todoProperty todoCases todoDefault
    | reflexivity ].
Qed.

Lemma todo_dtstamp_last (props : list Property) :
  IcsTodo.dtstamp (foldl todoProperty todoInit props) = lastValue "DTSTAMP" props.
Proof.
  unfold lastValue.
  apply (mapper_assigned todoProperty todoInit IcsTodo.dtstamp "DTSTAMP" value);
    [ mapper_own todoProperty | mapper_other todoProperty todoCases todoDefault
    | reflexivity ].
Qed.

Lemma todo_summary_last (props : list Property) :
  IcsTodo.summary (foldl todoProperty todoInit props) = lastValue "SUMMARY" props.
Proof.
  unfold lastValue.
  apply (mapper_assigned todoProperty todoInit IcsTodo.summary "SUMMARY" value);
    [ mapper_own todoProperty | mapper_other todoProperty todoCases todoDefault
    | reflexivity ].
Qed.

Lemma todo_description_last (props : list Property) :
  IcsTodo.description (foldl todoProperty todoInit props) = lastValue "DESCRIPTION" props.
Proof.
  unfold lastValue.
  apply (mapper_assigned todoProperty todoInit IcsTodo.description "DESCRIPTION" value);
    [ mapper_own todoProperty | mapper_other todoProperty todoCases todoDefault
    | reflexivity ].
Qed.

Lemma todo_status_last (props : list Property) :
  IcsTodo.status (foldl todoProperty todoInit props) = lastValue "STATUS" props.
Proof.
  unfold lastValue.
  apply (mapper_assigned todoProperty todoInit IcsTodo.status "STATUS" value);
    [ mapper_own todoProperty | mapper_other todoProperty todoCases todoDefault
    | reflexivity ].
Qed.

Lemma todo_due_last (props : list Property) :
  IcsTodo.due (foldl todoProperty todoInit props) = lastValue "DUE" props.
Proof.
  unfold lastValue.
  apply (mapper_assigned todoProperty todoInit IcsTodo.due "DUE" value);
    [ mapper_own todoProperty | mapper_other todoProperty todoCases todoDefault
    | reflexivity ].
Qed.

Lemma todo_completed_last (props : list Property) :
  IcsTodo.completed (foldl todoProperty todoInit props) = lastValue "COMPLETED" props.
Proof.
  unfold lastValue.
  apply (mapper_assigned todoProperty todoInit IcsTodo.completed "COMPLETED" value);
    [ mapper_own todoProperty | mapper_other todoProperty todoCases todoDefault
    | reflexivity ].
Qed.

Lemma todo_priority_last (props : list Property) :
  IcsTodo.priority (foldl todoProperty todoInit props)
  = Js.parseInt <$> lastValue "PRIORITY" props.
Proof.
  unfold lastValue. rewrite <- option_fmap_compose.
  apply (mapper_assigned todoProperty todoInit IcsTodo.priority "PRIORITY");
    [ mapper_own todoProperty | mapper_other todoProperty todoCases todoDefault
    | reflexivity ].
Qed.

Lemma todo_percentComplete_last (props : list Property) :
  IcsTodo.percentComplete (foldl todoProperty todoInit props)
  = Js.parseInt <$> lastValue "PERCENT-COMPLETE" props.
Proof.
  unfold lastValue. rewrite <- option_fmap_compose.
  apply (mapper_assigned todoProperty todoInit IcsTodo.percentComplete "PERCENT-COMPLETE");
    [ mapper_own todoProperty | mapper_other todoProperty todoCases todoDefault
    | reflexivity ].
Qed.

Lemma todo_customProperties_all (props : list Property) :
  IcsTodo.customProperties (foldl todoProperty todoInit props)
  = Some (foldl (fun m p => <[name p := value p]> m) ∅
            (filter (fun p => isCustom (name p) = true) props)).
Proof.
  apply (mapper_custom todoProperty todoInit IcsTodo.customProperties);
    [ custom_own todoProperty todoCases todoDefault
    | custom_other todoProperty todoCases todoDefault | reflexivity ].
Qed.

Lemma journal_uid_last (props : list Property) :
  IcsJournal.uid (foldl journalProperty journalInit props) = lastValue "UID" props.
Proof.
  unfold lastValue.
  apply (mapper_assigned journalProperty journalInit IcsJournal.uid "UID" value);
    [ mapper_own journalProperty | mapper_other journalProperty journalCases journalDefault
    | reflexivity ].
Qed.

Lemma journal_dtstamp_last (props : list Property) :
  IcsJournal.dtstamp (foldl journalProperty journalInit props) = lastValue "DTSTAMP" props.
Proof.
  unfold lastValue.
  apply (mapper_assigned journalProperty journalInit IcsJournal.dtstamp "DTSTAMP" value);
    [ mapper_own journalProperty | mapper_other journalProperty journalCases journalDefault
    | reflexivity ].
Qed.

Lemma journal_summary_last (props : list Property) :
  IcsJournal.summary (foldl journalProperty journalInit props) = lastValue "SUMMARY" props.
Proof.
  unfold lastValue.
  apply (mapper_assigned journalProperty journalInit IcsJournal.summary "SUMMARY" value);
    [ mapper_own journalProperty | mapper_other journalProperty journalCases journalDefault
    | reflexivity ].
Qed.

Lemma journal_description_last (props : list Property) :
  IcsJournal.description (foldl journalProperty journalInit props) = lastValue "DESCRIPTION" props.
Proof.
  unfold lastValue.
  apply (mapper_assigned journalProperty journalInit IcsJournal.description "DESCRIPTION" value);
    [ mapper_own journalProperty | mapper_other journalProperty journalCases journalDefault
    | reflexivity ].
Qed.

Lemma journal_dtstart_last (props : list Property) :
  IcsJournal.dtstart (foldl journalProperty journalInit props) = lastValue "DTSTART" props.
Proof.
  unfold lastValue.
  apply (mapper_assigned journalProperty journalInit IcsJournal.dtstart "DTSTART" value);
    [ mapper_own journalProperty | mapper_other journalProperty journalCases journalDefault
    | reflexivity ].
Qed.

Lemma journal_customProperties_all (props : list Property) :
  IcsJournal.customProperties (foldl journalProperty journalInit props)
  = Some (foldl (fun m p => <[name p := value p]> m) ∅
            (filter (fun p => isCustom (name p) = true) props)).
Proof.
  apply (mapper_custom journalProperty journalInit IcsJournal.customProperties);
    [ custom_own journalProperty journalCases journalDefault
    | custom_other journalProperty journalCases journalDefault | reflexivity ].
Qed.

Lemma freebusy_uid_last (props : list Property) :
  IcsFreeBusy.uid (foldl freebusyProperty freebusyInit props) = lastValue "UID" props.
Proof.
  unfold lastValue.
  apply (mapper_assigned freebusyProperty freebusyInit IcsFreeBusy.uid "UID" value);
    [ mapper_own freebusyProperty | mapper_other freebusyProperty freebusyCases freebusyDefault
    | reflexivity ].
Qed.

Lemma freebusy_dtstamp_last (props : list Property) :
  IcsFreeBusy.dtstamp (foldl freebusyProperty freebusyInit props) = lastValue "DTSTAMP" props.
Proof.
  unfold lastValue.
  apply (mapper_assigned freebusyProperty freebusyInit IcsFreeBusy.dtstamp "DTSTAMP" value);
    [ mapper_own freebusyProperty | mapper_other freebusyProperty freebusyCases freebusyDefault
    | reflexivity ].
Qed.

Lemma freebusy_organizer_last (props : list Property) :
  IcsFreeBusy.organizer (foldl freebusyProperty freebusyInit props) = lastValue "ORGANIZER" props.
Proof.
  unfold lastValue.
  apply (mapper_assigned freebusyProperty freebusyInit IcsFreeBusy.organizer "ORGANIZER" value);
    [ mapper_own freebusyProperty | mapper_other freebusyProperty freebusyCases freebusyDefault
    | reflexivity ].
Qed.

Lemma freebusy_dtstart_last (props : list Property) :
  IcsFreeBusy.dtstart (foldl freebusyProperty freebusyInit props) = lastValue "DTSTART" props.
Proof.
  unfold lastValue.
  apply (mapper_assigned freebusyProperty freebusyInit IcsFreeBusy.dtstart "DTSTART" value);
    [ mapper_own freebusyProperty | mapper_other freebusyProperty freebusyCases freebusyDefault
    | reflexivity ].
Qed.

Lemma freebusy_dtend_last (props : list Property) :
  IcsFreeBusy.dtend (foldl freebusyProperty freebusyInit props) = lastValue "DTEND" props.
Proof.
  unfold lastValue.
  apply (mapper_assigned freebusyProperty freebusyInit IcsFreeBusy.dtend "DTEND" value);
    [ mapper_own freebusyProperty | mapper_other freebusyProperty freebusyCases freebusyDefault
    | reflexivity ].
Qed.

Lemma freebusy_freebusy_all (props : list Property) :
  IcsFreeBusy.freebusy (foldl freebusyProperty freebusyInit props) = Some (value <$> named "FREEBUSY" props).
Proof.
  apply (mapper_pushed freebusyProperty freebusyInit IcsFreeBusy.freebusy "FREEBUSY" value);
    [ mapper_own freebusyProperty | mapper_other freebusyProperty freebusyCases freebusyDefault
    | reflexivity ].
Qed.

Lemma freebusy_customProperties_all (props : list Property) :
  IcsFreeBusy.customProperties (foldl freebusyProperty freebusyInit props)
  = Some (foldl (fun m p => <[name p := value p]> m) ∅
            (filter (fun p => isCustom (name p) = true) props)).
Proof.
  apply (mapper_custom freebusyProperty freebusyInit IcsFreeBusy.customProperties);
    [ custom_own freebusyProperty freebusyCases freebusyDefault
    | custom_other freebusyProperty freebusyCases freebusyDefault | reflexivity ].
Qed.

(** X7: in the todo [parseTodoBlock] gives, [uid], [dtstamp], [summary],
    [description], [status], [due] and [completed] hold the value of the
    last property of their name in the block and are absent without one,
    [priority] and [percentComplete] hold [parseInt] of it, and the custom
    properties hold the last value under each name that starts with [X-]
    and nothing under another name.  Nothing is validated or refused
    here. *)
Theorem todo_fields_hold_last_property (block : ComponentBlock) :
  let props := properties block in
  IcsTodo.uid (parseTodoBlock block) = lastValue "UID" props
  /\ IcsTodo.dtstamp (parseTodoBlock block) = lastValue "DTSTAMP" props
  /\ IcsTodo.summary (parseTodoBlock block) = lastValue "SUMMARY" props
  /\ IcsTodo.description (parseTodoBlock block) = lastValue "DESCRIPTION" props
  /\ IcsTodo.status (parseTodoBlock block) = lastValue "STATUS" props
  /\ IcsTodo.due (parseTodoBlock block) = lastValue "DUE" props
  /\ IcsTodo.completed (parseTodoBlock block) = lastValue "COMPLETED" props
  /\ IcsTodo.priority (parseTodoBlock block) = Js.parseInt <$> lastValue "PRIORITY" props
  /\ IcsTodo.percentComplete (parseTodoBlock block) = Js.parseInt <$> lastValue "PERCENT-COMPLETE" props
  /\ (forall k : string,
        entry k (IcsTodo.customProperties (parseTodoBlock block))
        = if isCustom k then lastValue k props else None).
Proof.
  intros props. unfold parseTodoBlock. fold props.
  repeat split.
  - apply todo_uid_last.
  - apply todo_dtstamp_last.
  - apply todo_summary_last.
  - apply todo_description_last.
  - apply todo_status_last.
  - apply todo_due_last.
  - apply todo_completed_last.
  - apply todo_priority_last.
  - apply todo_percentComplete_last.
  - intros k.
    change (entry k
              (deleteIfNoKeys
                 (IcsTodo.customProperties
                    (foldl todoProperty todoInit props)))
            = if isCustom k then lastValue k props else None).
    rewrite todo_customProperties_all. apply entry_custom.
Qed.

(** X8: in the journal [parseJournalBlock] gives, [uid], [dtstamp],
    [summary], [description] and [dtstart] hold the value of the last
    property of their name in the block and are absent without one, and
    the custom properties hold the last value under each name that starts
    with [X-]. *)
Theorem journal_fields_hold_last_property (block : ComponentBlock) :
  let props := properties block in
  IcsJournal.uid (parseJournalBlock block) = lastValue "UID" props
  /\ IcsJournal.dtstamp (parseJournalBlock block) = lastValue "DTSTAMP" props
  /\ IcsJournal.summary (parseJournalBlock block) = lastValue "SUMMARY" props
  /\ IcsJournal.description (parseJournalBlock block) = lastValue "DESCRIPTION" props
  /\ IcsJournal.dtstart (parseJournalBlock block) = lastValue "DTSTART" props
  /\ (forall k : string,
        entry k (IcsJournal.customProperties (parseJournalBlock block))
        = if isCustom k then lastValue k props else None).
Proof.
  intros props. unfold parseJournalBlock. fold props.
  repeat split.
  - apply journal_uid_last.
  - apply journal_dtstamp_last.
  - apply journal_summary_last.
  - apply journal_description_last.
  - apply journal_dtstart_last.
  - intros k.
    change (entry k
              (deleteIfNoKeys
                 (IcsJournal.customProperties
                    (foldl journalProperty journalInit props)))
            = if isCustom k then lastValue k props else None).
    rewrite journal_customProperties_all. apply entry_custom.
Qed.

(** X9: in the free/busy object [parseFreebusyBlock] gives, [uid],
    [dtstamp], [organizer] (the raw value, not a person), [dtstart] and
    [dtend] hold the value of the last property of their name and are
    absent without one, [freebusy] holds the values of all the FREEBUSY
    properties in their order and is absent when there is none, and the
    custom properties hold the last value under each name that starts with
    [X-]. *)
Theorem freebusy_fields_hold_last_property (block : ComponentBlock) :
  let props := properties block in
  IcsFreeBusy.uid (parseFreebusyBlock block) = lastValue "UID" props
  /\ IcsFreeBusy.dtstamp (parseFreebusyBlock block) = lastValue "DTSTAMP" props
  /\ IcsFreeBusy.organizer (parseFreebusyBlock block) = lastValue "ORGANIZER" props
  /\ IcsFreeBusy.dtstart (parseFreebusyBlock block) = lastValue "DTSTART" props
  /\ IcsFreeBusy.dtend (parseFreebusyBlock block) = lastValue "DTEND" props
  /\ IcsFreeBusy.freebusy (parseFreebusyBlock block)
     = nonEmpty (value <$> named "FREEBUSY" props)
  /\ (forall k : string,
        entry k (IcsFreeBusy.customProperties (parseFreebusyBlock block))
        = if isCustom k then lastValue k props else None).
Proof.
  intros props. unfold parseFreebusyBlock. fold props.
  repeat split.
  - apply freebusy_uid_last.
  - apply freebusy_dtstamp_last.
  - apply freebusy_organizer_last.
  - apply freebusy_dtstart_last.
  - apply freebusy_dtend_last.
  - change (deleteIfEmpty
              (IcsFreeBusy.freebusy
                 (foldl freebusyProperty freebusyInit props))
            = nonEmpty (value <$> named "FREEBUSY" props)).
    now rewrite freebusy_freebusy_all, deleteIfEmpty_Some.
  - intros k.
    change (entry k
              (deleteIfNoKeys
                 (IcsFreeBusy.customProperties
                    (foldl freebusyProperty freebusyInit props)))
            = if isCustom k then lastValue k props else None).
    rewrite freebusy_customProperties_all. apply entry_custom.
Qed.

(** *** The calendar [parseCalendarBlock] returns *)

Lemma optional_z_string (v : option string) : optional z_string v = true.
Proof. now destruct v. Qed.

Lemma forallb_eventOf (ext : Externals) (l : list ComponentBlock) :
  forallb (icsEventSchema ext) (omap (eventOf ext) l) = true.
Proof.
  induction l as [|b l IH]; [reflexivity|]. cbn [omap list_omap].
  fold (@omap list _ ComponentBlock IcsEvent.t).
  unfold eventOf at 1.
  destruct (parseEventBlock ext b) as [e|] eqn:He; cbn [returned]; [|exact IH].
  apply parseEventBlock_Return in He as [-> Hvalid].
  cbn [forallb]. now rewrite icsEventSchema_value, Hvalid.
Qed.

Lemma forallb_timezones (l : list IcsTimezone) :
  forallb icsTimezoneSchema l = true.
Proof. now induction l. Qed.

Section CalendarAccepted.

Context (ext : Externals) (debug : bool) (block : ComponentBlock).

Lemma candidate_version :
  IcsCalendar.version (calendarCandidate ext debug block)
  = lastValue "VERSION" (properties block).
Proof.
  rewrite (candidate_head ext debug block IcsCalendar.version)
    by calendar_sub_frame ext.
  apply calendar_version_last.
Qed.

Lemma candidate_prodid :
  IcsCalendar.prodid (calendarCandidate ext debug block)
  = lastValue "PRODID" (properties block).
Proof.
  rewrite (candidate_head ext debug block IcsCalendar.prodid)
    by calendar_sub_frame ext.
  apply calendar_prodid_last.
Qed.

Lemma candidate_calscale :
  IcsCalendar.calscale (calendarCandidate ext debug block)
  = lastValue "CALSCALE" (properties block).
Proof.
  rewrite (candidate_head ext debug block IcsCalendar.calscale)
    by calendar_sub_frame ext.
  apply calendar_calscale_last.
Qed.

Lemma candidate_method :
  IcsCalendar.method (calendarCandidate ext debug block)
  = lastValue "METHOD" (properties block).
Proof.
  rewrite (candidate_head ext debug block IcsCalendar.method)
    by calendar_sub_frame ext.
  apply calendar_method_last.
Qed.

Lemma candidate_calname :
  IcsCalendar.calname (calendarCandidate ext debug block)
  = lastValue "X-WR-CALNAME" (properties block).
Proof.
  rewrite (candidate_head ext debug block IcsCalendar.calname)
    by calendar_sub_frame ext.
  apply calendar_calname_last.
Qed.

Lemma candidate_caldesc :
  IcsCalendar.caldesc (calendarCandidate ext debug block)
  = lastValue "X-WR-CALDESC" (properties block).
Proof.
  rewrite (candidate_head ext debug block IcsCalendar.caldesc)
    by calendar_sub_frame ext.
  apply calendar_caldesc_last.
Qed.

Lemma candidate_timezone :
  IcsCalendar.timezone (calendarCandidate ext debug block)
  = lastValue "X-WR-TIMEZONE" (properties block).
Proof.
  rewrite (candidate_head ext debug block IcsCalendar.timezone)
    by calendar_sub_frame ext.
  apply calendar_timezone_last.
Qed.

Lemma candidate_refreshInterval :
  IcsCalendar.refreshInterval (calendarCandidate ext debug block)
  = value <$> lastOwn isRefreshInterval (properties block).
Proof.
  rewrite (candidate_head ext debug block IcsCalendar.refreshInterval)
    by calendar_sub_frame ext.
  apply calendar_refreshInterval_last.
Qed.

Lemma candidate_customProperties (k : string) :
  IcsCalendar.customProperties (calendarCandidate ext debug block) !! k
  = if isCalendarCustom k then lastValue k (properties block) else None.
Proof.
  rewrite (candidate_head ext debug block IcsCalendar.customProperties)
    by calendar_sub_frame ext.
  rewrite calendar_customProperties_all, foldl_insert_lookup, named_own,
    lookup_empty.
  unfold lastValue. destruct (isCalendarCustom k); [|reflexivity].
  now destruct (last (named k (properties block))).
Qed.

(** The schema's verdict on the object of a block. *)
Lemma icsCalendarSchema_candidate :
  icsCalendarSchema ext (calendarCandidate ext debug block)
  = calendarAccepted block.
Proof.
  unfold icsCalendarSchema, calendarAccepted.
  rewrite candidate_version, candidate_prodid, candidate_calscale,
    candidate_method, candidate_events, candidate_todos, candidate_journals,
    candidate_freebusys.
  rewrite !optional_z_string, forallb_eventOf, forallb_timezones.
  now rewrite !andb_true_r.
Qed.

End CalendarAccepted.

(** X10: in the calendar [parseCalendarBlock] returns, [version],
    [prodid], [calscale] and [method] hold the value of the last VERSION,
    PRODID, CALSCALE and METHOD property of the block, [calname],
    [caldesc] and [timezone] that of the last X-WR-CALNAME, X-WR-CALDESC
    and X-WR-TIMEZONE, and [refreshInterval] that of the last property
    named X-PUBLISHED-TTL or REFRESH-INTERVAL, whichever comes last; the
    custom properties hold the last value under every other name that
    starts with [X-], and nothing else. *)
Theorem calendar_fields_hold_last_property (ext : Externals) (debug : bool)
    (block : ComponentBlock) (cal : IcsCalendar.t) :
  fst (parseCalendarBlock ext block debug) = Return cal ->
  let props := properties block in
  IcsCalendar.version cal = lastValue "VERSION" props
  /\ IcsCalendar.prodid cal = lastValue "PRODID" props
  /\ IcsCalendar.calscale cal = lastValue "CALSCALE" props
  /\ IcsCalendar.method cal = lastValue "METHOD" props
  /\ IcsCalendar.calname cal = lastValue "X-WR-CALNAME" props
  /\ IcsCalendar.caldesc cal = lastValue "X-WR-CALDESC" props
  /\ IcsCalendar.timezone cal = lastValue "X-WR-TIMEZONE" props
  /\ IcsCalendar.refreshInterval cal
     = value <$> lastOwn isRefreshInterval props
  /\ (forall k : string,
        IcsCalendar.customProperties cal !! k
        = if isCalendarCustom k then lastValue k props else None).
Proof.
  intros Hcal props. apply parseCalendarBlock_Return in Hcal as [-> _].
  repeat split.
  - apply candidate_version.
  - apply candidate_prodid.
  - apply candidate_calscale.
  - apply candidate_method.
  - apply candidate_calname.
  - apply candidate_caldesc.
  - apply candidate_timezone.
  - apply candidate_refreshInterval.
  - apply candidate_customProperties.
Qed.

Lemma calendar_fields_hold_last_property_witness :
  match fst (parseCalendarBlock plainExternals sampleCalendar false) with
  | Return cal =>
      IcsCalendar.version cal = Some "2.0"
      /\ IcsCalendar.refreshInterval cal = Some "PT2H"
      /\ IcsCalendar.customProperties cal !! "X-OWNER" = Some "ann"
      /\ IcsCalendar.customProperties cal !! "X-PUBLISHED-TTL" = None
  | Throw _ => False
  end.
Proof.
  destruct (fst (parseCalendarBlock plainExternals sampleCalendar false))
    as [cal|error] eqn:Hcal.
  - pose proof (calendar_fields_hold_last_property _ _ _ _ Hcal) as H.
    cbv zeta in H.
    destruct H as (Hversion & _ & _ & _ & _ & _ & _ & Hrefresh & Hcustom).
    rewrite Hversion, Hrefresh, !Hcustom. repeat split.
  - vm_compute in Hcal. discriminate Hcal.
Defined.

(** X11: [parseCalendarBlock] returns a calendar exactly when the last
    VERSION of the block is 2.0, its last PRODID is not empty, its last
    CALSCALE and METHOD, if any, are in their enumerations, and every
    VTODO, VJOURNAL and VFREEBUSY sub-component passes its schema; else it
    throws a [ZodError].  No event and no timezone makes it throw. *)
Theorem calendar_accepted_iff (ext : Externals) (debug : bool)
    (block : ComponentBlock) :
  fst (parseCalendarBlock ext block debug)
  = if calendarAccepted block
    then Return (icsCalendarValue (calendarCandidate ext debug block))
    else Throw (ZodError (zod_calendar_message ext
                            (calendarCandidate ext debug block))).
Proof.
  unfold parseCalendarBlock. rewrite fst_bind.
  fold (calendarCandidate ext debug block).
  cbn [mret IO_ret fst]. unfold icsCalendarSchema_parse.
  now rewrite icsCalendarSchema_candidate.
Qed.

Lemma parseTodoBlock_uid (block : ComponentBlock) :
  IcsTodo.uid (parseTodoBlock block) = lastValue "UID" (properties block).
Proof. apply todo_uid_last. Qed.

Lemma parseJournalBlock_uid (block : ComponentBlock) :
  IcsJournal.uid (parseJournalBlock block)
  = lastValue "UID" (properties block).
Proof. apply journal_uid_last. Qed.

Lemma parseFreebusyBlock_uid (block : ComponentBlock) :
  IcsFreeBusy.uid (parseFreebusyBlock block)
  = lastValue "UID" (properties block).
Proof. apply freebusy_uid_last. Qed.

(** X12: one VTODO, VJOURNAL or VFREEBUSY sub-component with no UID
    property makes [parseCalendarBlock] throw for the whole calendar: it
    is not dropped the way an event is. *)
Theorem component_without_uid_rejects_calendar (ext : Externals)
    (debug : bool) (block sub : ComponentBlock) :
  sub ∈ subComponents block ->
  type sub = "VTODO" \/ type sub = "VJOURNAL" \/ type sub = "VFREEBUSY" ->
  named "UID" (properties sub) = [] ->
  exists message,
    fst (parseCalendarBlock ext block debug) = Throw (ZodError message).
Proof.
  intros Hin Htype Huid.
  assert (Hrejected : calendarAccepted block = false).
  { unfold calendarAccepted.
    destruct Htype as [Ht|[Ht|Ht]].
    - assert (Hs : forallb icsTodoSchema
                     (parseTodoBlock <$> ofType "VTODO" (subComponents block))
                   = false).
      { apply not_true_is_false. intros Hall.
        rewrite forallb_forall in Hall.
        assert (Hsub : sub ∈ ofType "VTODO" (subComponents block))
          by now apply list_elem_of_filter.
        apply list_elem_of_In, (in_map parseTodoBlock), Hall in Hsub.
        unfold icsTodoSchema in Hsub.
        rewrite parseTodoBlock_uid in Hsub. unfold lastValue in Hsub.
        rewrite Huid in Hsub. cbn in Hsub. discriminate Hsub. }
      rewrite Hs. now rewrite !andb_false_r.
    - assert (Hs : forallb icsJournalSchema
                     (parseJournalBlock
                        <$> ofType "VJOURNAL" (subComponents block))
                   = false).
      { apply not_true_is_false. intros Hall.
        rewrite forallb_forall in Hall.
        assert (Hsub : sub ∈ ofType "VJOURNAL" (subComponents block))
          by now apply list_elem_of_filter.
        apply list_elem_of_In, (in_map parseJournalBlock), Hall in Hsub.
        unfold icsJournalSchema in Hsub.
        rewrite parseJournalBlock_uid in Hsub. unfold lastValue in Hsub.
        rewrite Huid in Hsub. cbn in Hsub. discriminate Hsub. }
      rewrite Hs. now rewrite !andb_false_r.
    - assert (Hs : forallb icsFreebusySchema
                     (parseFreebusyBlock
                        <$> ofType "VFREEBUSY" (subComponents block))
                   = false).
      { apply not_true_is_false. intros Hall.
        rewrite forallb_forall in Hall.
        assert (Hsub : sub ∈ ofType "VFREEBUSY" (subComponents block))
          by now apply list_elem_of_filter.
        apply list_elem_of_In, (in_map parseFreebusyBlock), Hall in Hsub.
        unfold icsFreebusySchema in Hsub.
        rewrite parseFreebusyBlock_uid in Hsub. unfold lastValue in Hsub.
        rewrite Huid in Hsub. cbn in Hsub. discriminate Hsub. }
      rewrite Hs. now rewrite !andb_false_r. }
  eexists. unfold parseCalendarBlock. rewrite fst_bind.
  fold (calendarCandidate ext debug block).
  cbn [mret IO_ret fst]. unfold icsCalendarSchema_parse.
  now rewrite icsCalendarSchema_candidate, Hrejected.
Qed.

Lemma component_without_uid_rejects_calendar_witness :
  named "UID" (properties bareTodo) = []
  /\ forall ext debug,
       exists message,
         fst (parseCalendarBlock ext
                (Block "VCALENDAR"
                   [ {| name := "VERSION"; parameters := ∅;
                        value := "2.0" |};
                     {| name := "PRODID"; parameters := ∅;
                        value := "-//example//EN" |} ]
                   [sampleEvent; bareTodo]) debug)
         = Throw (ZodError message).
Proof.
  split; [reflexivity|]. intros ext debug.
  apply (component_without_uid_rejects_calendar ext debug _ bareTodo).
  - cbn [subComponents]. apply elem_of_cons. right. constructor.
  - left. reflexivity.
  - reflexivity.
Defined.

(** ** The root blocks *)

Section Roots.

Context (ext : Externals) (debug : bool).

Lemma step_calendars (b : ComponentBlock) (c : Collected) :
  col_calendars (fst (rootBlock ext debug b c))
  = col_calendars c
      ++ (if decide (type b = "VCALENDAR")
          then option_list (calendarOf ext debug b) else []).
Proof.
  unfold rootBlock, calendarOf.
  destruct (String.eqb_spec (type b) "VCALENDAR") as [E|E].
  - rewrite decide_True by exact E. rewrite fst_bind.
    destruct (fst (parseCalendarBlock ext b debug)); cbn.
    + reflexivity.
    + rewrite fst_bind. cbn. now rewrite app_nil_r.
  - rewrite decide_False by exact E. cbn. now rewrite app_nil_r.
Qed.

Lemma step_errors (b : ComponentBlock) (c : Collected) :
  col_errors (fst (rootBlock ext debug b c))
  = col_errors c
      ++ (if decide (type b = "VCALENDAR")
          then option_list (calendarError ext debug b) else []).
Proof.
  unfold rootBlock, calendarError.
  destruct (String.eqb_spec (type b) "VCALENDAR") as [E|E].
  - rewrite decide_True by exact E. rewrite fst_bind.
    destruct (fst (parseCalendarBlock ext b debug)); cbn.
    + now rewrite app_nil_r.
    + rewrite fst_bind. reflexivity.
  - rewrite decide_False by exact E. cbn. now rewrite app_nil_r.
Qed.

Lemma step_warnings (b : ComponentBlock) (c : Collected) :
  col_warnings (fst (rootBlock ext debug b c))
  = col_warnings c
      ++ (if decide (type b <> "VCALENDAR")
          then option_list (Some (unexpectedRoot b)) else []).
Proof.
  unfold rootBlock.
  destruct (String.eqb_spec (type b) "VCALENDAR") as [E|E].
  - rewrite decide_False by (intros H; now apply H). rewrite fst_bind.
    destruct (fst (parseCalendarBlock ext b debug)); cbn.
    + now rewrite app_nil_r.
    + rewrite fst_bind. cbn. now rewrite app_nil_r.
  - rewrite decide_True by exact E. reflexivity.
Qed.

Lemma parseIcsData_accounting (data : string)
    (rootBlocks : list ComponentBlock) :
  fst (parseIntoBlocks (unfoldLines data) debug) = Return rootBlocks ->
  exists r,
    fst (parseIcsData ext data debug) = Return r
    /\ calendars r
       = omap (calendarOf ext debug) (ofType "VCALENDAR" rootBlocks)
    /\ parseErrors (metadata r)
       = omap (calendarError ext debug) (ofType "VCALENDAR" rootBlocks)
    /\ parseWarnings (metadata r)
       = unexpectedRoot
           <$> filter (fun b => type b <> "VCALENDAR") rootBlocks.
Proof.
  intros Hblocks. unfold parseIcsData. rewrite !fst_bind, Hblocks.
  rewrite !fst_bind. eexists. split; [reflexivity|].
  cbn [calendars metadata calculateMetadata parseErrors parseWarnings].
  rewrite (forOf_collect _ col_calendars _ step_calendars).
  rewrite (forOf_collect _ col_errors _ step_errors).
  rewrite (forOf_collect _ col_warnings _ step_warnings).
  rewrite (mjoin_filter_omap (fun b => type b = "VCALENDAR")).
  rewrite (mjoin_filter_omap (fun b => type b = "VCALENDAR")).
  rewrite (mjoin_filter_omap (fun b => type b <> "VCALENDAR")), omap_total.
  repeat split.
Qed.

(** X13: when the lines parse into root blocks, [parseIcsData] returns,
    in the order of the blocks: as calendars, the calendars of the
    VCALENDAR root blocks on which [parseCalendarBlock] returns; as
    errors, one [Failed to parse calendar: ...] for each VCALENDAR root
    block on which it throws; as warnings, one [Unexpected root
    component: ...] for each root block of another type. *)
Theorem parseIcsData_root_accounting (data : string)
    (rootBlocks : list ComponentBlock) :
  fst (parseIntoBlocks (unfoldLines data) debug) = Return rootBlocks ->
  exists r,
    fst (parseIcsData ext data debug) = Return r
    /\ calendars r
       = omap (calendarOf ext debug) (ofType "VCALENDAR" rootBlocks)
    /\ parseErrors (metadata r)
       = omap (calendarError ext debug) (ofType "VCALENDAR" rootBlocks)
    /\ parseWarnings (metadata r)
       = unexpectedRoot
           <$> filter (fun b => type b <> "VCALENDAR") rootBlocks.
Proof. apply parseIcsData_accounting. Qed.



End Roots.

Lemma parseIcsData_root_accounting_witness :
  match fst (parseIntoBlocks (unfoldLines mixedRootsDocument) false) with
  | Return rootBlocks =>
      exists r,
        fst (parseIcsData plainExternals mixedRootsDocument false) = Return r
        /\ length (calendars r) = 1
        /\ parseErrors (metadata r) = ["Failed to parse calendar: "]
        /\ parseWarnings (metadata r) = ["Unexpected root component: VEVENT"]
  | Throw _ => False
  end.
Proof.
  destruct (fst (parseIntoBlocks (unfoldLines mixedRootsDocument) false))
    as [rootBlocks|error] eqn:Hblocks.
  - destruct (parseIcsData_root_accounting plainExternals false
                mixedRootsDocument rootBlocks Hblocks)
      as (r & Hr & Hcalendars & Herrors & Hwarnings).
    exists r. split; [exact Hr|].
    rewrite Hcalendars, Herrors, Hwarnings.
    vm_compute in Hblocks. injection Hblocks as <-.
    repeat split; vm_compute; reflexivity.
  - vm_compute in Hblocks. discriminate Hblocks.
Defined.

(** ** The block parser *)

Lemma getLastOnStack_nonempty (b : Builder) :
  length (stack b) <> 0 -> exists r, getLastOnStack b = Return r.
Proof.
  intros Hlen. unfold getLastOnStack.
  destruct (last (stack b)) as [r|] eqn:Hlast; [now exists r|].
  apply last_None in Hlast. now rewrite Hlast in Hlen.
Qed.

(** X14: the [TypeError] of [getLastOnStack] is never thrown: the loop of
    [parseIntoBlocks] reads the top of the stack only when the stack is
    not empty, so a line fails with an [Error] or not at all. *)
Theorem getLastOnStack_never_throws_in_loop (i : nat) (line : string)
    (b : Builder) :
  isTypeError (blockLine i line b) = false.
Proof.
  unfold blockLine.
  destruct (Js.startsWith line "BEGIN:").
  - case_bool_decide as Hlen; [reflexivity|].
    destruct (getLastOnStack_nonempty b Hlen) as [r ->]. reflexivity.
  - destruct (Js.startsWith line "END:").
    + case_bool_decide as Hlen; [reflexivity|].
      destruct (getLastOnStack_nonempty b Hlen) as [r ->].
      cbn [mbind Completion_bind cbind_flip].
      now destruct (negb _).
    + case_bool_decide as Hlen; [reflexivity|].
      destruct (getLastOnStack_nonempty b Hlen) as [r ->].
      unfold parsePropertyLine.
      destruct (Js.indexOf line ":"); [|reflexivity].
      now destruct (nameAndParameters _).
Qed.

(** ** The lines of a document *)

Lemma split_no_separator (s : string) (c : ascii) :
  Forall (fun piece => ~ occurs c piece) (Js.split s c).
Proof.
  induction s as [|a s IH]; cbn [Js.split].
  - constructor; [apply not_occurs_empty | constructor].
  - destruct (Ascii.eqb_spec a c) as [->|Hne].
    + constructor; [apply not_occurs_empty | exact IH].
    + destruct (Js.split s c) as [|h t].
      * constructor; [|constructor]. rewrite occurs_cons.
        intros [H|H]; [now apply Hne | now apply not_occurs_empty in H].
      * apply Forall_cons in IH as [Hh Ht]. constructor; [|exact Ht].
        rewrite occurs_cons. tauto.
Qed.

(** X15: every line [unfoldLines] gives has a character that is not
    white space, and holds no line feed. *)
Theorem unfoldLines_lines (content : string) :
  Forall (fun line => Js.isEmpty (Js.trim line) = false
                      /\ Js.indexOf line Js.LF = None)
    (unfoldLines content).
Proof.
  unfold unfoldLines. apply Forall_forall. intros line Hin.
  apply list_elem_of_filter in Hin as [Hlen Hin]. split.
  - destruct (Js.trim line); [cbn in Hlen; lia | reflexivity].
  - apply indexOf_None_iff.
    pose proof (split_no_separator
                  (normalizeLineEndings
                     (removeLFFolds (removeCRLFFolds content))) Js.LF) as H.
    rewrite Forall_forall in H. now apply H.
Qed.

Lemma removeLFFolds_cons (c : ascii) (s : string) :
  c <> Js.LF -> removeLFFolds (String c s) = String c (removeLFFolds s).
Proof.
  intros Hne. apply Ascii.eqb_neq in Hne.
  destruct s as [|c2 s]; cbn [removeLFFolds]; now rewrite ?Hne.
Qed.

Lemma replace2_cons (a b c : ascii) (r s : string) :
  c <> a -> Js.replace2 a b r (String c s) = String c (Js.replace2 a b r s).
Proof.
  intros Hne. apply Ascii.eqb_neq in Hne.
  destruct s as [|d s]; cbn [Js.replace2]; now rewrite ?Hne.
Qed.

Lemma removeCRLFFolds_line (line rest : string) :
  ~ occurs Js.CR line -> startsFold rest = false ->
  removeCRLFFolds (line +:+ CRLF +:+ rest)
  = line +:+ CRLF +:+ removeCRLFFolds rest.
Proof.
  intros Hline Hrest. induction line as [|c line IH]; cbn [String.append].
  - unfold CRLF. cbn [String.append].
    destruct rest as [|c3 rest].
    + reflexivity.
    + cbn [startsFold] in Hrest. cbn [removeCRLFFolds].
      rewrite Hrest, andb_false_r.
      destruct rest; reflexivity.
  - rewrite occurs_cons in Hline.
    rewrite removeCRLFFolds_cons by tauto. f_equal. apply IH. tauto.
Qed.

Lemma removeLFFolds_line (line rest : string) :
  ~ occurs Js.LF line -> startsFold rest = false ->
  removeLFFolds (line +:+ String Js.LF rest)
  = line +:+ String Js.LF (removeLFFolds rest).
Proof.
  intros Hline Hrest. induction line as [|c line IH]; cbn [String.append].
  - destruct rest as [|c2 rest]; [reflexivity|].
    cbn [startsFold] in Hrest. cbn [removeLFFolds].
    now rewrite Hrest, andb_false_r.
  - rewrite occurs_cons in Hline.
    rewrite removeLFFolds_cons by tauto. f_equal. apply IH. tauto.
Qed.

Lemma normalizeLineEndings_line (line rest : string) :
  ~ occurs Js.CR line ->
  normalizeLineEndings (line +:+ CRLF +:+ rest)
  = line +:+ String Js.LF (normalizeLineEndings rest).
Proof.
  intros Hline. unfold normalizeLineEndings.
  induction line as [|c line IH]; cbn [String.append].
  - reflexivity.
  - rewrite occurs_cons in Hline.
    rewrite replace2_cons by tauto. f_equal. apply IH. tauto.
Qed.

Lemma split_line (line rest : string) (c : ascii) :
  ~ occurs c line ->
  Js.split (line +:+ String c rest) c = line :: Js.split rest c.
Proof.
  intros Hline. induction line as [|a line IH]; cbn [String.append Js.split].
  - now rewrite Ascii.eqb_refl.
  - rewrite occurs_cons in Hline.
    destruct (Ascii.eqb_spec a c) as [->|Hne]; [tauto|].
    rewrite IH by tauto. reflexivity.
Qed.

Lemma contentLine_head (line rest : string) :
  contentLine line -> startsFold (line +:+ rest) = false.
Proof.
  intros (_ & _ & Hblank & HSP & HTAB).
  destruct line as [|c line]; [discriminate Hblank|].
  cbn [String.append startsFold]. cbn [Js.startsWith] in HSP, HTAB.
  replace (Js.startsWith line EmptyString) with true in HSP, HTAB
    by now destruct line.
  rewrite andb_true_r in HSP, HTAB.
  rewrite (Ascii.eqb_sym c Js.SP), (Ascii.eqb_sym c Js.TAB).
  unfold Js.SP. now rewrite HSP, HTAB.
Qed.

Lemma terminated_head (eol : string) (lines : list string) :
  Forall contentLine lines -> startsFold (terminated eol lines) = false.
Proof.
  destruct lines as [|line lines]; [reflexivity|].
  intros H. apply Forall_cons in H as [Hline _]. cbn [terminated foldr].
  now apply contentLine_head.
Qed.

Lemma removeCRLFFolds_terminated (lines : list string) :
  Forall contentLine lines ->
  removeCRLFFolds (terminated CRLF lines) = terminated CRLF lines.
Proof.
  induction lines as [|line lines IH]; [reflexivity|].
  intros H. apply Forall_cons in H as [Hline Hlines].
  pose proof Hline as (HCR & _).
  cbn [terminated foldr]. fold (terminated CRLF lines).
  rewrite removeCRLFFolds_line
    by (try apply terminated_head; assumption).
  now rewrite IH.
Qed.

Lemma removeLFFolds_terminated (lines : list string) :
  Forall contentLine lines ->
  removeLFFolds (terminated CRLF lines) = terminated CRLF lines.
Proof.
  induction lines as [|line lines IH]; [reflexivity|].
  intros H. apply Forall_cons in H as [Hline Hlines].
  pose proof Hline as (_ & HLF & _).
  cbn [terminated foldr]. fold (terminated CRLF lines).
  unfold CRLF at 1 3. cbn [String.append].
  change (line +:+ String Js.CR (String Js.LF (terminated CRLF lines)))
    with (line +:+ String Js.CR EmptyString
               +:+ String Js.LF (terminated CRLF lines)).
  rewrite <- !append_assoc.
  rewrite removeLFFolds_line.
  - now rewrite IH.
  - rewrite occurs_app, occurs_cons.
    intros [H|[H|H]]; [tauto | discriminate H
                       | now apply not_occurs_empty in H].
  - now apply terminated_head.
Qed.

Lemma normalizeLineEndings_terminated (lines : list string) :
  Forall contentLine lines ->
  normalizeLineEndings (terminated CRLF lines)
  = terminated (String Js.LF EmptyString) lines.
Proof.
  induction lines as [|line lines IH]; [reflexivity|].
  intros H. apply Forall_cons in H as [Hline Hlines].
  pose proof Hline as (HCR & _).
  cbn [terminated foldr]. fold (terminated CRLF lines).
  fold (terminated (String Js.LF EmptyString) lines).
  rewrite normalizeLineEndings_line by assumption.
  cbn [String.append]. now rewrite IH.
Qed.

Lemma no_CR_terminated (lines : list string) :
  Forall contentLine lines ->
  ~ occurs Js.CR (terminated (String Js.LF EmptyString) lines).
Proof.
  induction lines as [|line lines IH]; [intros _; apply not_occurs_empty|].
  intros H. apply Forall_cons in H as [Hline Hlines].
  pose proof Hline as (HCR & _).
  cbn [terminated foldr]. fold (terminated (String Js.LF EmptyString) lines).
  rewrite occurs_app. cbn [String.append]. rewrite occurs_cons.
  intros [H|[H|H]]; [tauto | discriminate H | now apply IH].
Qed.

Lemma removeLFFolds_terminated_LF (lines : list string) :
  Forall contentLine lines ->
  removeLFFolds (terminated (String Js.LF EmptyString) lines)
  = terminated (String Js.LF EmptyString) lines.
Proof.
  induction lines as [|line lines IH]; [reflexivity|].
  intros H. apply Forall_cons in H as [Hline Hlines].
  pose proof Hline as (_ & HLF & _).
  cbn [terminated foldr]. fold (terminated (String Js.LF EmptyString) lines).
  cbn [String.append].
  rewrite removeLFFolds_line
    by (try apply terminated_head; assumption).
  now rewrite IH.
Qed.

Lemma split_terminated (lines : list string) :
  Forall contentLine lines ->
  Js.split (terminated (String Js.LF EmptyString) lines) Js.LF
  = lines ++ [EmptyString].
Proof.
  induction lines as [|line lines IH]; [reflexivity|].
  intros H. apply Forall_cons in H as [Hline Hlines].
  pose proof Hline as (_ & HLF & _).
  cbn [terminated foldr]. fold (terminated (String Js.LF EmptyString) lines).
  cbn [String.append].
  rewrite split_line by assumption. now rewrite IH.
Qed.

Lemma filter_content (lines : list string) :
  Forall contentLine lines ->
  filter (fun line => 0 < Js.length (Js.trim line)) lines = lines.
Proof.
  induction lines as [|line lines IH]; [reflexivity|].
  intros H. apply Forall_cons in H as [Hline Hlines].
  destruct Hline as (_ & _ & Hblank & _).
  rewrite filter_cons, IH by assumption.
  rewrite decide_True; [reflexivity|].
  destruct (Js.trim line); [discriminate Hblank | cbn; lia].
Qed.

Lemma unfoldLines_of_terminated (eol : string) (lines : list string) :
  eol = CRLF \/ eol = String Js.LF EmptyString ->
  Forall contentLine lines ->
  unfoldLines (terminated eol lines) = lines.
Proof.
  intros Heol Hlines. unfold unfoldLines.
  assert (Hnormal :
    normalizeLineEndings
      (removeLFFolds (removeCRLFFolds (terminated eol lines)))
    = terminated (String Js.LF EmptyString) lines).
  { destruct Heol as [-> | ->].
    - rewrite removeCRLFFolds_terminated, removeLFFolds_terminated
        by assumption.
      now apply normalizeLineEndings_terminated.
    - pose proof (no_CR_terminated lines Hlines) as HCR.
      rewrite removeCRLFFolds_absent by assumption.
      rewrite removeLFFolds_terminated_LF by assumption.
      unfold normalizeLineEndings. now apply replace2_absent. }
  rewrite Hnormal, split_terminated by assumption.
  rewrite filter_app, filter_content by assumption.
  cbn. now rewrite app_nil_r.
Qed.

(** X16: a document of content lines, each ended by CR LF, or each ended
    by a bare LF, unfolds to exactly those lines, in order. *)
Theorem unfoldLines_terminated (eol : string) (lines : list string) :
  eol = CRLF \/ eol = String Js.LF EmptyString ->
  Forall contentLine lines ->
  unfoldLines (terminated eol lines) = lines.
Proof. apply unfoldLines_of_terminated. Qed.

Lemma unfoldLines_terminated_witness :
  unfoldLines (terminated CRLF ["BEGIN:VEVENT"; "UID:a@b"; "END:VEVENT"])
  = ["BEGIN:VEVENT"; "UID:a@b"; "END:VEVENT"]
  /\ unfoldLines
       (terminated (String Js.LF EmptyString)
          ["BEGIN:VEVENT"; "UID:a@b"; "END:VEVENT"])
     = ["BEGIN:VEVENT"; "UID:a@b"; "END:VEVENT"].
Proof.
  assert (Hlines :
    Forall contentLine ["BEGIN:VEVENT"; "UID:a@b"; "END:VEVENT"]).
  { repeat constructor; rewrite <- indexOf_None_iff; reflexivity. }
  split; apply unfoldLines_terminated; auto.
Defined.

(** ** The names and the parameters of a property line *)

Lemma upperChar_idempotent (c : ascii) :
  Js.upperChar (Js.upperChar c) = Js.upperChar c.
Proof. destruct c as [[] [] [] [] [] [] [] []]; reflexivity. Qed.

Lemma toUpperCase_idempotent (s : string) :
  Js.toUpperCase (Js.toUpperCase s) = Js.toUpperCase s.
Proof.
  induction s as [|c s IH]; [reflexivity|].
  cbn [Js.toUpperCase]. now rewrite upperChar_idempotent, IH.
Qed.

Lemma upperChar_colon (c : ascii) : Js.upperChar c = ":"%char -> c = ":"%char.
Proof.
  destruct c as [[] [] [] [] [] [] [] []]; intros H;
    solve [reflexivity | discriminate H].
Qed.

Lemma upperChar_semicolon (c : ascii) :
  Js.upperChar c = ";"%char -> c = ";"%char.
Proof.
  destruct c as [[] [] [] [] [] [] [] []]; intros H;
    solve [reflexivity | discriminate H].
Qed.

Lemma upperChar_equals (c : ascii) : Js.upperChar c = "="%char -> c = "="%char.
Proof.
  destruct c as [[] [] [] [] [] [] [] []]; intros H;
    solve [reflexivity | discriminate H].
Qed.

Lemma occurs_toUpperCase (x : ascii) (s : string) :
  (forall c, Js.upperChar c = x -> c = x) ->
  occurs x (Js.toUpperCase s) -> occurs x s.
Proof.
  intros Hx. induction s as [|c s IH]; [easy|].
  cbn [Js.toUpperCase]. rewrite !occurs_cons.
  intros [H|H]; [left; now apply Hx | right; now apply IH].
Qed.

Lemma occurs_take (x : ascii) (n : nat) (s : string) :
  occurs x (Js.take n s) -> occurs x s.
Proof. intros H. rewrite <- (take_drop n s), occurs_app. now left. Qed.

Lemma occurs_drop (x : ascii) (n : nat) (s : string) :
  occurs x (Js.drop n s) -> occurs x s.
Proof. intros H. rewrite <- (take_drop n s), occurs_app. now right. Qed.

Lemma indexOf_Some (s : string) (c : ascii) (i : nat) :
  Js.indexOf s c = Some i ->
  exists pre post,
    s = pre +:+ String c post /\ Js.length pre = i /\ ~ occurs c pre.
Proof.
  revert i. induction s as [|a s IH]; intros i; cbn [Js.indexOf].
  - discriminate.
  - destruct (Ascii.eqb_spec a c) as [->|Hne].
    + intros [= <-]. exists EmptyString, s.
      repeat split. apply not_occurs_empty.
    + destruct (Js.indexOf s c) as [j|]; [|discriminate].
      intros [= <-]. destruct (IH j eq_refl) as (pre & post & -> & <- & Hpre).
      exists (String a pre), post. repeat split.
      rewrite occurs_cons. tauto.
Qed.

Lemma parseParameter_entries (P : string -> string -> Prop)
    (m : gmap string string) (pair : string) :
  (forall pre post,
     pair = pre +:+ String "=" post -> ~ occurs "=" pre ->
     P (Js.toUpperCase pre) post
     /\ P (Js.toUpperCase pre) (Js.slice_1_m1 post)) ->
  map_Forall P m -> map_Forall P (parseParameter m pair).
Proof.
  intros Hpair Hm. unfold parseParameter.
  destruct (Js.indexOf pair "=") as [i|] eqn:Hi; [|exact Hm].
  apply indexOf_Some in Hi as (pre & post & -> & <- & Hpre).
  rewrite substring_prefix, substringFrom_suffix.
  destruct (Hpair pre post eq_refl Hpre) as [Hplain Hquoted].
  apply map_Forall_insert_2; [|exact Hm].
  now destruct (_ && _).
Qed.

Lemma foldl_parseParameter_entries (P : string -> string -> Prop)
    (pairs : list string) (m : gmap string string) :
  Forall (fun pair =>
            forall pre post,
              pair = pre +:+ String "=" post -> ~ occurs "=" pre ->
              P (Js.toUpperCase pre) post
              /\ P (Js.toUpperCase pre) (Js.slice_1_m1 post)) pairs ->
  map_Forall P m -> map_Forall P (foldl parseParameter m pairs).
Proof.
  revert m. induction pairs as [|pair pairs IH]; intros m Hpairs Hm.
  - exact Hm.
  - apply Forall_cons in Hpairs as [Hpair Hpairs]. cbn [foldl].
    apply IH; [exact Hpairs|]. now apply parseParameter_entries.
Qed.

Lemma isAsciiChar_upperChar (c : ascii) :
  isAsciiChar (Js.upperChar c) = isAsciiChar c.
Proof. destruct c as [[] [] [] [] [] [] [] []]; reflexivity. Qed.

Lemma isAscii_toUpperCase (s : string) :
  isAscii (Js.toUpperCase s) = isAscii s.
Proof.
  induction s as [|c s IH]; [reflexivity|].
  cbn [Js.toUpperCase isAscii]. now rewrite isAsciiChar_upperChar, IH.
Qed.

(** X17: when the text [parseParameters] puts in upper case is ASCII (in
    each pair, what stands before the first equals sign), every key of
    the dictionary it returns is ASCII, in upper case, and holds no equals
    sign and no semicolon, and no value holds a semicolon: a semicolon
    between quotes ends the parameter like any other. *)
Theorem parseParameters_entries (paramString : string) :
  asciiKeys paramString = true ->
  map_Forall
    (fun key value =>
       isAscii key = true
       /\ Js.toUpperCase key = key
       /\ Js.indexOf key "=" = None
       /\ Js.indexOf key ";" = None
       /\ Js.indexOf value ";" = None)
    (parseParameters paramString).
Proof.
  intros Hascii. unfold parseParameters.
  apply foldl_parseParameter_entries; [|apply map_Forall_empty].
  apply Forall_forall. intros pair Hin pre post -> Hpre.
  pose proof (split_no_separator paramString ";") as Hsemi.
  rewrite Forall_forall in Hsemi. specialize (Hsemi _ Hin).
  cbn beta in Hsemi. rewrite occurs_app, occurs_cons in Hsemi.
  unfold asciiKeys in Hascii. rewrite forallb_forall in Hascii.
  apply list_elem_of_In, Hascii in Hin.
  rewrite indexOf_first, substring_prefix in Hin by exact Hpre.
  assert (Hkey : isAscii (Js.toUpperCase pre) = true
                 /\ Js.toUpperCase (Js.toUpperCase pre) = Js.toUpperCase pre
                 /\ Js.indexOf (Js.toUpperCase pre) "=" = None
                 /\ Js.indexOf (Js.toUpperCase pre) ";" = None).
  { split; [now rewrite isAscii_toUpperCase|].
    split; [apply toUpperCase_idempotent|].
    rewrite !indexOf_None_iff. split; intros H.
    - apply Hpre. revert H. apply occurs_toUpperCase, upperChar_equals.
    - apply Hsemi. left. revert H.
      apply occurs_toUpperCase, upperChar_semicolon. }
  destruct Hkey as (Hasc & Hupper & Hequals & Hsemikey).
  repeat split; try assumption; rewrite indexOf_None_iff; intros H.
  - apply Hsemi. tauto.
  - apply Hsemi. right. right. unfold Js.slice_1_m1 in H.
    now apply occurs_take, occurs_drop in H.
Qed.

Lemma parseParameters_entries_witness :
  asciiKeys "cn=Ann Lee;role=chair;x" = true
  /\ parseParameters "cn=Ann Lee;role=chair;x"
     = {[ "CN" := "Ann Lee"; "ROLE" := "chair" ]}
  /\ map_Forall
       (fun key value =>
          isAscii key = true
          /\ Js.toUpperCase key = key
          /\ Js.indexOf key "=" = None
          /\ Js.indexOf key ";" = None
          /\ Js.indexOf value ";" = None)
       (parseParameters "cn=Ann Lee;role=chair;x").
Proof.
  split; [reflexivity|]. split; [vm_compute; reflexivity|].
  apply (parseParameters_entries "cn=Ann Lee;role=chair;x"). reflexivity.
Defined.

(** X18: for a line that starts with an ASCII name, ended by the first
    colon or semicolon of the line, the name of the property
    [parsePropertyLine] returns is that name in upper case: it is ASCII,
    in upper case, and holds no colon and no semicolon. *)
Theorem parsePropertyLine_name (n rest : string) (sep : ascii)
    (property : Property) :
  sep = ":"%char \/ sep = ";"%char ->
  isAscii n = true ->
  Js.indexOf n ":" = None -> Js.indexOf n ";" = None ->
  parsePropertyLine (n +:+ String sep rest) = Return property ->
  name property = Js.toUpperCase n
  /\ isAscii (name property) = true
  /\ Js.toUpperCase (name property) = name property
  /\ Js.indexOf (name property) ":" = None
  /\ Js.indexOf (name property) ";" = None.
Proof.
  intros Hsep Hascii Hcolon Hsemi Hline.
  rewrite indexOf_None_iff in Hcolon, Hsemi.
  assert (Hname : name property = Js.toUpperCase n).
  { unfold parsePropertyLine in Hline.
    destruct Hsep as [-> | ->].
    - rewrite indexOf_first, substring_prefix in Hline by exact Hcolon.
      unfold nameAndParameters in Hline.
      apply indexOf_None_iff in Hsemi. rewrite Hsemi in Hline.
      now injection Hline as <-.
    - destruct (Js.indexOf rest ":") as [j|] eqn:Hrest.
      + apply indexOf_Some in Hrest as (r1 & post & -> & _ & Hr1).
        change (n +:+ String ";" (r1 +:+ String ":" post))
          with (n +:+ (String ";" r1 +:+ String ":" post)) in Hline.
        rewrite <- append_assoc in Hline.
        rewrite indexOf_first, substring_prefix in Hline.
        * unfold nameAndParameters in Hline.
          rewrite indexOf_first, substring_prefix in Hline by exact Hsemi.
          now injection Hline as <-.
        * rewrite occurs_app, occurs_cons.
          intros [H|[H|H]]; [tauto | discriminate H | tauto].
      + apply indexOf_None_iff in Hrest.
        assert (Hnone : Js.indexOf (n +:+ String ";" rest) ":" = None).
        { apply indexOf_None_iff. rewrite occurs_app, occurs_cons.
          intros [H|[H|H]]; [tauto | discriminate H | tauto]. }
        rewrite Hnone in Hline. discriminate Hline. }
  rewrite Hname. split; [reflexivity|].
  split; [now rewrite isAscii_toUpperCase|].
  split; [apply toUpperCase_idempotent|].
  rewrite !indexOf_None_iff. split; intros H.
  - apply Hcolon. revert H. apply occurs_toUpperCase, upperChar_colon.
  - apply Hsemi. revert H. apply occurs_toUpperCase, upperChar_semicolon.
Qed.

Lemma parsePropertyLine_name_witness :
  parsePropertyLine "summary;language=en:Team: Meeting"
  = Return {| name := "SUMMARY";
              parameters := {[ "LANGUAGE" := "en" ]};
              value := "Team: Meeting" |}
  /\ "SUMMARY" = Js.toUpperCase "summary"
  /\ isAscii "SUMMARY" = true
  /\ Js.toUpperCase "SUMMARY" = "SUMMARY"
  /\ Js.indexOf "SUMMARY" ":" = None
  /\ Js.indexOf "SUMMARY" ";" = None.
Proof.
  assert (H : parsePropertyLine "summary;language=en:Team: Meeting"
              = Return {| name := "SUMMARY";
                          parameters := {[ "LANGUAGE" := "en" ]};
                          value := "Team: Meeting" |})
    by (vm_compute; reflexivity).
  split; [exact H|].
  exact (parsePropertyLine_name "summary" "language=en:Team: Meeting" ";" _
           (or_intror eq_refl) eq_refl eq_refl eq_refl H).
Defined.

(** ** Escaped values *)

Lemma replace2_skip (a b : ascii) (r s : string) :
  (forall t, s <> String b t) ->
  Js.replace2 a b r (String a s) = String a (Js.replace2 a b r s).
Proof.
  intros Hs. destruct s as [|d t]; [reflexivity|].
  cbn [Js.replace2]. destruct (Ascii.eqb_spec d b) as [->|Hne].
  - now destruct (Hs t).
  - now rewrite andb_false_r.
Qed.

Lemma follows_cons (a b c : ascii) (s : string) :
  follows a b (String c s) = false -> follows a b s = false.
Proof. cbn [follows]. now intros [_ H]%orb_false_elim. Qed.

Section Replacement.

Variables (enc enc' : ascii -> string) (code x : ascii).

Hypothesis code_not_backslash : code <> Js.BACKSLASH.

Hypothesis encoding :
  forall c : ascii,
    (c <> Js.BACKSLASH /\ enc c = String c EmptyString
     /\ enc' c = String c EmptyString)
    \/ (exists d, enc c = String Js.BACKSLASH (String d EmptyString)
                  /\ d <> code /\ d <> Js.BACKSLASH /\ enc' c = enc c)
    \/ (c = x /\ enc c = String Js.BACKSLASH (String code EmptyString)
        /\ enc' c = String c EmptyString)
    \/ (c = Js.BACKSLASH
        /\ enc c = String Js.BACKSLASH (String Js.BACKSLASH EmptyString)
        /\ enc' c = enc c).

Lemma encodeWith_head (value t : string) :
  (forall rest, value = String code rest ->
                enc code <> String code EmptyString) ->
  encodeWith enc value <> String code t.
Proof.
  intros Hvalue. destruct value as [|c rest]; [discriminate|].
  cbn [encodeWith].
  destruct (encoding c) as [(Hc & Hplain & _)|[(d & -> & _)|[(_ & -> & _)
                           |(_ & -> & _)]]];
    cbn [String.append]; try (intros [= Hhead _]; now apply code_not_backslash).
  rewrite Hplain. cbn [String.append]. intros [= Hhead _]. subst c.
  now apply (Hvalue rest).
Qed.

Lemma replacement (value : string) :
  (enc code = String code EmptyString ->
   follows Js.BACKSLASH code value = false) ->
  Js.replace2 Js.BACKSLASH code (String x EmptyString) (encodeWith enc value)
  = encodeWith enc' value.
Proof.
  induction value as [|c rest IH]; [reflexivity|]. intros Hvalue.
  assert (Hrest : enc code = String code EmptyString ->
                  follows Js.BACKSLASH code rest = false).
  { intros H. eapply follows_cons. now apply Hvalue. }
  specialize (IH Hrest). cbn [encodeWith].
  destruct (encoding c) as [(Hc & -> & ->)|[(d & He & Hd & Hb & ->)
                           |[(-> & -> & ->)|(-> & He & ->)]]];
    rewrite ?He; cbn [String.append].
  - rewrite replace2_cons by exact Hc. now rewrite IH.
  - rewrite replace2_skip by (intros t [= H _]; now apply Hd).
    rewrite replace2_cons by exact Hb. now rewrite IH.
  - cbn [Js.replace2]. rewrite !Ascii.eqb_refl. cbn [andb String.append].
    now rewrite IH.
  - rewrite replace2_skip
      by (intros t [= H _]; now apply code_not_backslash).
    rewrite replace2_skip; [now rewrite IH|].
    intros t. apply encodeWith_head. intros rest' -> Hplain.
    specialize (Hvalue Hplain). cbn [follows] in Hvalue.
    now rewrite !Ascii.eqb_refl in Hvalue.
Qed.

End Replacement.

Lemma escapeValue_encodeWith (value : string) :
  escapeValue value = encodeWith (encodeChar 0) value.
Proof.
  induction value as [|c rest IH]; [reflexivity|].
  cbn [escapeValue encodeWith]. now rewrite IH.
Qed.

Lemma doubled_backslashes (value : string) :
  Js.replace2 Js.BACKSLASH Js.BACKSLASH (String Js.BACKSLASH EmptyString)
    (encodeWith (encodeChar 5) value)
  = value.
Proof.
  induction value as [|c rest IH]; [reflexivity|]. cbn [encodeWith].
  destruct (Ascii.eqb_spec c Js.BACKSLASH) as [->|Hc].
  - cbn. now rewrite IH.
  - replace (encodeChar 5 c) with (String c EmptyString).
    + cbn [String.append]. rewrite replace2_cons by exact Hc. now rewrite IH.
    + apply Ascii.eqb_neq in Hc. unfold encodeChar. rewrite Hc.
      now repeat destruct (Ascii.eqb c _).
Qed.

Ltac encoding_solve :=
  cbn;
  first
    [ left; split; [discriminate | split; reflexivity]
    | right; left; eexists; split;
      [reflexivity | split; [discriminate | split; [discriminate|reflexivity]]]
    | right; right; left; split; [reflexivity | split; reflexivity]
    | right; right; right; split; [reflexivity | split; reflexivity] ].

Ltac encoding_cases c :=
  unfold encodeChar;
  destruct (Ascii.eqb_spec c Js.LF) as [->|?]; [encoding_solve|];
  destruct (Ascii.eqb_spec c Js.CR) as [->|?]; [encoding_solve|];
  destruct (Ascii.eqb_spec c Js.TAB) as [->|?]; [encoding_solve|];
  destruct (Ascii.eqb_spec c ";") as [->|?]; [encoding_solve|];
  destruct (Ascii.eqb_spec c ",") as [->|?]; [encoding_solve|];
  destruct (Ascii.eqb_spec c Js.BACKSLASH) as [->|?];
    [encoding_solve | left; tauto].

Lemma encoding_1 (c : ascii) :
    (c <> Js.BACKSLASH /\ encodeChar 0 c = String c EmptyString
     /\ encodeChar 1 c = String c EmptyString)
    \/ (exists d, encodeChar 0 c = String Js.BACKSLASH (String d EmptyString)
                  /\ d <> "n"%char /\ d <> Js.BACKSLASH
                  /\ encodeChar 1 c = encodeChar 0 c)
    \/ (c = Js.LF
        /\ encodeChar 0 c = String Js.BACKSLASH (String "n" EmptyString)
        /\ encodeChar 1 c = String c EmptyString)
    \/ (c = Js.BACKSLASH
        /\ encodeChar 0 c
           = String Js.BACKSLASH (String Js.BACKSLASH EmptyString)
        /\ encodeChar 1 c = encodeChar 0 c).
Proof. encoding_cases c. Qed.

Lemma encoding_2 (c : ascii) :
    (c <> Js.BACKSLASH /\ encodeChar 1 c = String c EmptyString
     /\ encodeChar 2 c = String c EmptyString)
    \/ (exists d, encodeChar 1 c = String Js.BACKSLASH (String d EmptyString)
                  /\ d <> "r"%char /\ d <> Js.BACKSLASH
                  /\ encodeChar 2 c = encodeChar 1 c)
    \/ (c = Js.CR
        /\ encodeChar 1 c = String Js.BACKSLASH (String "r" EmptyString)
        /\ encodeChar 2 c = String c EmptyString)
    \/ (c = Js.BACKSLASH
        /\ encodeChar 1 c
           = String Js.BACKSLASH (String Js.BACKSLASH EmptyString)
        /\ encodeChar 2 c = encodeChar 1 c).
Proof. encoding_cases c. Qed.

Lemma encoding_3 (c : ascii) :
    (c <> Js.BACKSLASH /\ encodeChar 2 c = String c EmptyString
     /\ encodeChar 3 c = String c EmptyString)
    \/ (exists d, encodeChar 2 c = String Js.BACKSLASH (String d EmptyString)
                  /\ d <> "t"%char /\ d <> Js.BACKSLASH
                  /\ encodeChar 3 c = encodeChar 2 c)
    \/ (c = Js.TAB
        /\ encodeChar 2 c = String Js.BACKSLASH (String "t" EmptyString)
        /\ encodeChar 3 c = String c EmptyString)
    \/ (c = Js.BACKSLASH
        /\ encodeChar 2 c
           = String Js.BACKSLASH (String Js.BACKSLASH EmptyString)
        /\ encodeChar 3 c = encodeChar 2 c).
Proof. encoding_cases c. Qed.

Lemma encoding_4 (c : ascii) :
    (c <> Js.BACKSLASH /\ encodeChar 3 c = String c EmptyString
     /\ encodeChar 4 c = String c EmptyString)
    \/ (exists d, encodeChar 3 c = String Js.BACKSLASH (String d EmptyString)
                  /\ d <> ";"%char /\ d <> Js.BACKSLASH
                  /\ encodeChar 4 c = encodeChar 3 c)
    \/ (c = ";"%char
        /\ encodeChar 3 c = String Js.BACKSLASH (String ";" EmptyString)
        /\ encodeChar 4 c = String c EmptyString)
    \/ (c = Js.BACKSLASH
        /\ encodeChar 3 c
           = String Js.BACKSLASH (String Js.BACKSLASH EmptyString)
        /\ encodeChar 4 c = encodeChar 3 c).
Proof. encoding_cases c. Qed.

Lemma encoding_5 (c : ascii) :
    (c <> Js.BACKSLASH /\ encodeChar 4 c = String c EmptyString
     /\ encodeChar 5 c = String c EmptyString)
    \/ (exists d, encodeChar 4 c = String Js.BACKSLASH (String d EmptyString)
                  /\ d <> ","%char /\ d <> Js.BACKSLASH
                  /\ encodeChar 5 c = encodeChar 4 c)
    \/ (c = ","%char
        /\ encodeChar 4 c = String Js.BACKSLASH (String "," EmptyString)
        /\ encodeChar 5 c = String c EmptyString)
    \/ (c = Js.BACKSLASH
        /\ encodeChar 4 c
           = String Js.BACKSLASH (String Js.BACKSLASH EmptyString)
        /\ encodeChar 5 c = encodeChar 4 c).
Proof. encoding_cases c. Qed.

(** X19: escaping a value and then unescaping it gives the value back
    whenever no backslash of the value stands immediately before the
    letter n, r or t; the other backslashes, line breaks, tabs, semicolons
    and commas of the value all come back. *)
Theorem unescapeValue_escapeValue (value : string) :
  follows Js.BACKSLASH "n" value = false ->
  follows Js.BACKSLASH "r" value = false ->
  follows Js.BACKSLASH "t" value = false ->
  unescapeValue (escapeValue value) = value.
Proof.
  intros Hn Hr Ht. unfold unescapeValue. rewrite escapeValue_encodeWith.
  rewrite (replacement (encodeChar 0) (encodeChar 1) "n" Js.LF
             ltac:(discriminate) encoding_1 value (fun _ => Hn)).
  rewrite (replacement (encodeChar 1) (encodeChar 2) "r" Js.CR
             ltac:(discriminate) encoding_2 value (fun _ => Hr)).
  rewrite (replacement (encodeChar 2) (encodeChar 3) "t" Js.TAB
             ltac:(discriminate) encoding_3 value (fun _ => Ht)).
  rewrite (replacement (encodeChar 3) (encodeChar 4) ";" ";"
             ltac:(discriminate) encoding_4 value)
    by (intros H; discriminate H).
  rewrite (replacement (encodeChar 4) (encodeChar 5) "," ","
             ltac:(discriminate) encoding_5 value)
    by (intros H; discriminate H).
  apply doubled_backslashes.
Qed.

Lemma unescapeValue_escapeValue_witness :
  escapeValue "C:\dir;x,y\" = "C:\\dir\;x\,y\\"
  /\ unescapeValue (escapeValue "C:\dir;x,y\") = "C:\dir;x,y\".
Proof.
  split; [reflexivity|].
  apply (unescapeValue_escapeValue "C:\dir;x,y\"); reflexivity.
Defined.

(** ** Comma-separated values *)

Lemma occurs_trimStart (x : ascii) (s : string) :
  occurs x (Js.trimStart s) -> occurs x s.
Proof.
  induction s as [|c s IH]; [easy|]. cbn [Js.trimStart].
  destruct (Js.isWhiteSpace c); [|easy].
  intros H. rewrite occurs_cons. right. now apply IH.
Qed.

Lemma occurs_trimEnd (x : ascii) (s : string) :
  occurs x (Js.trimEnd s) -> occurs x s.
Proof.
  induction s as [|c s IH]; [easy|]. cbn [Js.trimEnd].
  destruct (_ && _).
  - intros H. now apply not_occurs_empty in H.
  - rewrite !occurs_cons. intros [H|H]; [now left | right; now apply IH].
Qed.

Lemma occurs_trim (x : ascii) (s : string) :
  occurs x (Js.trim s) -> occurs x s.
Proof. intros H. now apply occurs_trimStart, occurs_trimEnd. Qed.

Lemma splitCommaLoop_plain (value current : string) (result : list string) :
  ~ occurs Js.BACKSLASH value ->
  ~ occurs Js.BACKSLASH current -> ~ occurs "," current ->
  exists init lastSegment,
    Js.split (current +:+ value) "," = init ++ [lastSegment]
    /\ splitCommaLoop value result current false
       = (result ++ (Js.trim <$> init), lastSegment).
Proof.
  revert current result.
  induction value as [|c rest IH]; intros current result Hvalue Hcurrent Hcomma.
  - exists [], current. rewrite append_empty_r, split_absent by assumption.
    split; [reflexivity|]. cbn. now rewrite app_nil_r.
  - rewrite occurs_cons in Hvalue. cbn [splitCommaLoop].
    destruct (Ascii.eqb_spec c Js.BACKSLASH) as [->|Hc]; [tauto|].
    destruct (Ascii.eqb_spec c ",") as [->|Hsep].
    + destruct (IH EmptyString (result ++ [unescapeValue (Js.trim current)]))
        as (init & lastSegment & Hsplit & Hloop);
        [tauto | apply not_occurs_empty | apply not_occurs_empty |].
      cbn [String.append] in Hsplit.
      exists (current :: init), lastSegment.
      rewrite split_line, Hsplit by assumption. split; [reflexivity|].
      rewrite Hloop, <- app_assoc. cbn [fmap list_fmap app].
      rewrite unescapeValue_no_backslash; [reflexivity|].
      intros H. now apply Hcurrent, occurs_trim.
    + destruct (IH (current +:+ String c EmptyString) result)
        as (init & lastSegment & Hsplit & Hloop).
      * tauto.
      * rewrite occurs_app, occurs_cons.
        intros [H|[H|H]]; [tauto | now apply Hc
                           | now apply not_occurs_empty in H].
      * rewrite occurs_app, occurs_cons.
        intros [H|[H|H]]; [tauto | now apply Hsep
                           | now apply not_occurs_empty in H].
      * rewrite append_assoc in Hsplit. cbn [String.append] in Hsplit.
        now exists init, lastSegment.
Qed.

Lemma occurs_split (x c : ascii) (s piece : string) :
  piece ∈ Js.split s c -> occurs x piece -> occurs x s.
Proof.
  revert piece. induction s as [|a rest IH]; intros piece Hin H;
    cbn [Js.split] in Hin.
  - apply list_elem_of_singleton in Hin as ->. exact H.
  - rewrite occurs_cons. destruct (Ascii.eqb a c).
    + apply elem_of_cons in Hin as [->|Hin];
        [now apply not_occurs_empty in H | right; eauto].
    + destruct (Js.split rest c) as [|h t] eqn:Hrest.
      * apply list_elem_of_singleton in Hin as ->.
        apply occurs_cons in H as [H|H]; [now left|].
        now apply not_occurs_empty in H.
      * apply elem_of_cons in Hin as [->|Hin].
        -- apply occurs_cons in H as [H|H]; [now left|].
           right. apply (IH h); [constructor | exact H].
        -- right. apply (IH piece); [now constructor | exact H].
Qed.

(** X20: for a value with no backslash, [splitCommaSeparated] gives the
    trimmed segments between the commas, a blank segment in the middle as
    an empty string, and leaves out the last segment when it is blank. *)
Theorem splitCommaSeparated_plain (value : string) :
  Js.indexOf value Js.BACKSLASH = None ->
  splitCommaSeparated value
  = if Js.isEmpty (default EmptyString (last (segments value)))
    then removelast (segments value)
    else segments value.
Proof.
  rewrite indexOf_None_iff. intros Hvalue.
  destruct (splitCommaLoop_plain value EmptyString [] Hvalue)
    as (init & lastSegment & Hsplit & Hloop);
    [apply not_occurs_empty | apply not_occurs_empty |].
  cbn [String.append] in Hsplit.
  unfold splitCommaSeparated, segments. rewrite Hloop, Hsplit.
  rewrite fmap_app. cbn [fmap list_fmap app].
  rewrite last_snoc, removelast_last. cbn [default from_option id app].
  destruct (Js.isEmpty (Js.trim lastSegment)); [reflexivity|].
  rewrite unescapeValue_no_backslash; [reflexivity|].
  intros H. apply occurs_trim in H. apply Hvalue.
  apply (occurs_split _ "," value lastSegment); [|exact H].
  rewrite Hsplit. apply elem_of_app. right. constructor.
Qed.

Lemma splitCommaSeparated_plain_witness :
  splitCommaSeparated "a, b,,c, " = ["a"; "b"; ""; "c"].
Proof.
  now rewrite (splitCommaSeparated_plain "a, b,,c, " eq_refl).
Defined.

(** ** Formats and dates *)

Lemma dateOrDateTimeFormat_schema (value : string) :
  dateOrDateTimeFormat value = icsDateOrDateTimeSchema value.
Proof.
  unfold dateOrDateTimeFormat, icsDateOrDateTimeSchema, icsDateSchema,
    icsDateTimeSchema.
  destruct (digitsExactly 8 value) as [[|c r]|]; [reflexivity| |reflexivity].
  destruct c as [[] [] [] [] [] [] [] []]; reflexivity.
Qed.

(** X21: [validatePropertyFormat] and the event schema agree on DTSTART,
    DTEND, STATUS, CLASS and TRANSP.  For DTSTAMP, CREATED and
    LAST-MODIFIED it accepts what the schema of DTSTART accepts, so also a
    date with no time, which the event schema refuses for these three.  A
    value under a name other than these and PRIORITY and SEQUENCE is
    accepted. *)
Theorem validatePropertyFormat_and_schemas (value : string) :
  Forall (fun name =>
            validatePropertyFormat name value = icsDateOrDateTimeSchema value)
    dateFormatNames
  /\ validatePropertyFormat "STATUS" value = eventStatusSchema value
  /\ validatePropertyFormat "CLASS" value = classSchema value
  /\ validatePropertyFormat "TRANSP" value = transparencySchema value
  /\ validatePropertyFormat "DTSTAMP" "20231201" = true
  /\ icsDateTimeSchema "20231201" = false
  /\ (forall name,
        existsb (String.eqb name)
          (dateFormatNames
             ++ ["PRIORITY"; "SEQUENCE"; "STATUS"; "CLASS"; "TRANSP"])
        || validatePropertyFormat name value
        = true).
Proof.
  split.
  { repeat constructor; apply dateOrDateTimeFormat_schema. }
  repeat split. intros name. unfold validatePropertyFormat.
  cbn [existsb app dateFormatNames switch].
  repeat (destruct (String.eqb name _); [reflexivity|]). reflexivity.
Qed.

Lemma digit_range (c : ascii) (d : Z) :
  Js.digit c = Some d -> (0 <= d <= 9)%Z.
Proof.
  unfold Js.digit.
  destruct (48 <=? nat_of_ascii c)%nat eqn:Hlo; [|discriminate].
  destruct (nat_of_ascii c <=? 57)%nat eqn:Hhi; [|discriminate].
  cbn [andb]. intros [= <-].
  apply Nat.leb_le in Hlo, Hhi. lia.
Qed.

Lemma digits_bound (r : string) :
  forall acc z : Z,
    (0 <= acc)%Z -> Js.digits (Some acc) r = Some z ->
    (0 <= z < (acc + 1) * 10 ^ Z.of_nat (Js.length r))%Z.
Proof.
  induction r as [|c r IH]; intros acc z Hacc; cbn [Js.digits Js.length].
  - intros [= <-]. cbn. lia.
  - assert (Hpow : (10 ^ Z.of_nat (S (Js.length r))
                    = 10 * 10 ^ Z.of_nat (Js.length r))%Z)
      by (rewrite Nat2Z.inj_succ, Z.pow_succ_r by lia; reflexivity).
    assert (Hpos : (0 < 10 ^ Z.of_nat (Js.length r))%Z)
      by (apply Z.pow_pos_nonneg; lia).
    destruct (Js.digit c) as [d|] eqn:Hd.
    + apply digit_range in Hd. cbn [default from_option id]. intros Hz.
      apply IH in Hz; [|lia]. rewrite Hpow. nia.
    + intros [= <-]. rewrite Hpow. nia.
Qed.

Lemma digits_None_bound (s : string) (z : Z) :
  Js.digits None s = Some z ->
  (0 <= z < 10 ^ Z.of_nat (Js.length s))%Z.
Proof.
  destruct s as [|c r]; [discriminate|]. cbn [Js.digits Js.length].
  destruct (Js.digit c) as [d|] eqn:Hd; [|discriminate].
  apply digit_range in Hd. cbn [default from_option id]. intros Hz.
  apply digits_bound in Hz; [|lia].
  assert (Hpos : (0 < 10 ^ Z.of_nat (Js.length r))%Z)
    by (apply Z.pow_pos_nonneg; lia).
  rewrite Nat2Z.inj_succ, Z.pow_succ_r by lia. nia.
Qed.

Lemma trimStart_length (s : string) :
  Js.length (Js.trimStart s) <= Js.length s.
Proof.
  induction s as [|c s IH]; [reflexivity|]. cbn [Js.trimStart].
  destruct (Js.isWhiteSpace c); cbn [Js.length]; lia.
Qed.

Lemma pow10_mono (n m : nat) :
  n <= m -> (10 ^ Z.of_nat n <= 10 ^ Z.of_nat m)%Z.
Proof. intros H. apply Z.pow_le_mono_r; lia. Qed.

Lemma parseInt_bound (s : string) (z : Z) :
  Js.parseInt s = Js.Int z -> (Z.abs z < 10 ^ Z.of_nat (Js.length s))%Z.
Proof.
  unfold Js.parseInt. pose proof (trimStart_length s) as Hlen.
  apply pow10_mono in Hlen. revert Hlen.
  generalize (Js.trimStart s). intros t Hlen.
  assert (Hrest : forall r : string,
            Js.length r <= Js.length t ->
            forall y, Js.digits None r = Some y ->
                      (Z.abs y < 10 ^ Z.of_nat (Js.length s))%Z).
  { intros r Hr y Hy. apply digits_None_bound in Hy.
    apply pow10_mono in Hr. lia. }
  destruct t as [|c r].
  - discriminate.
  - assert (Htail : Js.length r <= Js.length (String c r)) by (cbn; lia).
    destruct c as [[] [] [] [] [] [] [] []];
      match goal with
      | |- context [Js.digits None ?u] =>
          destruct (Js.digits None u) as [y|] eqn:Hy; [|discriminate];
          intros [= <-];
          first [ rewrite Z.abs_opp; now apply (Hrest r Htail)
                | now apply (Hrest r Htail)
                | now apply (Hrest _ (le_n _)) ]
      end.
Qed.

Lemma parseInt_exact (value : string) :
  Js.length value <= 15 -> exactNumber (Js.parseInt value) = true.
Proof.
  intros Hlen. unfold exactNumber.
  destruct (Js.parseInt value) as [|z] eqn:Hz; [reflexivity|].
  apply parseInt_bound in Hz. apply pow10_mono in Hlen.
  apply Z.ltb_lt. change (Z.of_nat 15) with 15%Z in Hlen. lia.
Qed.

(** X28: on a value of at most 15 code units, where the integer of
    [parseInt] is below 10^15 and so the number of the program,
    [validatePropertyFormat] and the event schema agree on PRIORITY and on
    SEQUENCE. *)
Theorem validatePropertyFormat_numbers (value : string) :
  Js.length value <= 15 ->
  exactNumber (Js.parseInt value) = true
  /\ validatePropertyFormat "PRIORITY" value
     = prioritySchema (Js.parseInt value)
  /\ validatePropertyFormat "SEQUENCE" value
     = z_int_min 0 (Js.parseInt value).
Proof.
  intros Hlen. split; [now apply parseInt_exact|].
  unfold validatePropertyFormat.
  cbn [switch String.eqb Ascii.eqb Bool.eqb].
  now destruct (Js.parseInt value).
Qed.

Lemma validatePropertyFormat_numbers_witness :
  validatePropertyFormat "PRIORITY" "12" = false
  /\ validatePropertyFormat "SEQUENCE" "12" = true.
Proof.
  destruct (validatePropertyFormat_numbers "12")
    as (_ & Hpriority & Hsequence).
  - cbn. lia.
  - rewrite Hpriority, Hsequence. split; reflexivity.
Defined.

Lemma digits_Some (r : string) (acc : Z) :
  exists z, Js.digits (Some acc) r = Some z.
Proof.
  revert acc. induction r as [|c r IH]; intros acc; cbn [Js.digits].
  - now exists acc.
  - destruct (Js.digit c); [apply IH | now exists acc].
Qed.

Lemma parseInt_unsigned (c : ascii) (r : string) :
  Js.isDigit c = true ->
  Js.parseInt (String c r)
  = match Js.digits None (String c r) with
    | Some z => Js.Int z
    | None => Js.NaN
    end.
Proof.
  intros Hc.
  destruct c as [[] [] [] [] [] [] [] []];
    try (vm_compute in Hc; discriminate Hc); reflexivity.
Qed.

Lemma parseInt_digit (c : ascii) (r : string) :
  Js.isDigit c = true -> isNaN (Js.parseInt (String c r)) = false.
Proof.
  intros Hc. rewrite parseInt_unsigned by exact Hc.
  cbn [Js.digits]. unfold Js.isDigit in Hc.
  destruct (Js.digit c) as [d|]; [|discriminate Hc].
  now destruct (digits_Some r (10 * default 0%Z None + d)) as [z ->].
Qed.

Lemma minus1_integer (n : Js.number) : isNaN (minus1 n) = isNaN n.
Proof. now destruct n. Qed.

Lemma digitsExactly_8 (s rest : string) :
  digitsExactly 8 s = Some rest ->
  exists c1 c2 c3 c4 c5 c6 c7 c8,
    s = String c1 (String c2 (String c3 (String c4 (String c5 (String c6
          (String c7 (String c8 rest)))))))
    /\ Forall (fun c => Js.isDigit c = true) [c1; c2; c3; c4; c5; c6; c7; c8].
Proof.
  unfold digitsExactly.
  destruct s as [|c1 [|c2 [|c3 [|c4 [|c5 [|c6 [|c7 [|c8 r]]]]]]]];
    try discriminate.
  cbn [Js.take Js.drop Js.length Nat.eqb allDigits andb].
  destruct (Js.isDigit c1) eqn:H1; [|discriminate].
  destruct (Js.isDigit c2) eqn:H2; [|discriminate].
  destruct (Js.isDigit c3) eqn:H3; [|discriminate].
  destruct (Js.isDigit c4) eqn:H4; [|discriminate].
  destruct (Js.isDigit c5) eqn:H5; [|discriminate].
  destruct (Js.isDigit c6) eqn:H6; [|discriminate].
  destruct (Js.isDigit c7) eqn:H7; [|discriminate].
  destruct (Js.isDigit c8) eqn:H8; [|discriminate].
  intros [= <-]. exists c1, c2, c3, c4, c5, c6, c7, c8.
  split; [reflexivity|]. repeat constructor; assumption.
Qed.

Lemma digitsExactly_6 (s rest : string) :
  digitsExactly 6 s = Some rest ->
  exists c1 c2 c3 c4 c5 c6,
    s = String c1 (String c2 (String c3 (String c4 (String c5 (String c6
          rest)))))
    /\ Forall (fun c => Js.isDigit c = true) [c1; c2; c3; c4; c5; c6].
Proof.
  unfold digitsExactly.
  destruct s as [|c1 [|c2 [|c3 [|c4 [|c5 [|c6 r]]]]]];
    try discriminate.
  cbn [Js.take Js.drop Js.length Nat.eqb allDigits andb].
  destruct (Js.isDigit c1) eqn:H1; [|discriminate].
  destruct (Js.isDigit c2) eqn:H2; [|discriminate].
  destruct (Js.isDigit c3) eqn:H3; [|discriminate].
  destruct (Js.isDigit c4) eqn:H4; [|discriminate].
  destruct (Js.isDigit c5) eqn:H5; [|discriminate].
  destruct (Js.isDigit c6) eqn:H6; [|discriminate].
  intros [= <-]. exists c1, c2, c3, c4, c5, c6.
  split; [reflexivity|]. repeat constructor; assumption.
Qed.

Ltac digits_of H :=
  repeat match type of H with
         | Forall _ (_ :: _) =>
             let Hc := fresh "Hdigit" in
             apply Forall_cons in H as [Hc H]
         end.

(** X22: on a value the schema of a date or of a date-time accepts,
    [parseIcsDate] throws nothing and hands integers to [Date]: no number
    is [NaN]; the numbers are read as a time in UTC exactly when the value
    ends in Z. *)
Theorem parseIcsDate_of_schema_value (dateString : string) :
  icsDateOrDateTimeSchema dateString = true ->
  exists call,
    parseIcsDate dateString = Return call
    /\ allIntegers call = true
    /\ isUTC call = Js.endsWithChar dateString "Z".
Proof.
  unfold icsDateOrDateTimeSchema, icsDateSchema, icsDateTimeSchema.
  destruct (digitsExactly 8 dateString) as [rest|] eqn:H8; [|discriminate].
  apply digitsExactly_8 in H8
    as (c1 & c2 & c3 & c4 & c5 & c6 & c7 & c8 & -> & Hdate).
  digits_of Hdate.
  destruct rest as [|t rest].
  - intros _. eexists. split; [reflexivity|]. split.
    + cbn [allIntegers]. rewrite minus1_integer.
      cbn [Js.substring Js.length Nat.min Nat.max Nat.sub Js.take Js.drop].
      now rewrite !parseInt_digit by assumption.
    + cbn [isUTC]. unfold Js.endsWithChar. cbn [Js.lastChar].
      destruct c8 as [[] [] [] [] [] [] [] []];
        solve [reflexivity | discriminate Hdigit6].
  - cbn [orb].
    destruct (Ascii.eqb_spec t "T") as [->|Ht].
    2:{ destruct t as [[] [] [] [] [] [] [] []];
          solve [discriminate | now destruct Ht]. }
    destruct (digitsExactly 6 rest) as [rest'|] eqn:H6; [|discriminate].
    apply digitsExactly_6 in H6 as (d1 & d2 & d3 & d4 & d5 & d6 & -> & Htime).
    digits_of Htime.
    destruct rest' as [|z rest'].
    + intros _.
      match goal with
      | |- context [parseIcsDate ?s] =>
          assert (Hlast : Js.endsWithChar s "Z" = false)
      end.
      { unfold Js.endsWithChar. cbn [Js.lastChar].
        destruct d6 as [[] [] [] [] [] [] [] []];
          solve [reflexivity | discriminate Hdigit12]. }
      eexists. split; [|split].
      * unfold parseIcsDate.
        cbn [Js.isEmpty Js.length Nat.eqb Nat.leb]. rewrite Hlast.
        reflexivity.
      * cbn [allIntegers]. rewrite minus1_integer.
        cbn [Js.substring Js.length Nat.min Nat.max Nat.sub Js.take Js.drop].
        now rewrite !parseInt_digit by assumption.
      * now rewrite Hlast.
    + destruct (Ascii.eqb_spec z "Z") as [->|Hz].
      2:{ destruct z as [[] [] [] [] [] [] [] []];
            solve [discriminate | now destruct Hz
                  | destruct rest'; discriminate]. }
      destruct rest'; [|discriminate].
      intros _. eexists. split; [reflexivity|]. split.
      * cbn [allIntegers]. rewrite minus1_integer.
        cbn [Js.substring Js.length Nat.min Nat.max Nat.sub Js.take Js.drop].
        now rewrite !parseInt_digit by assumption.
      * reflexivity.
Qed.

Lemma parseIcsDate_of_schema_value_witness :
  exists call,
    parseIcsDate "20231215T140000Z" = Return call
    /\ allIntegers call = true
    /\ isUTC call = true.
Proof. exact (parseIcsDate_of_schema_value "20231215T140000Z" eq_refl). Defined.

(** ** The timezone mapper *)

Lemma timezoneTzid_last (props : list Property) :
  timezoneTzid props = default EmptyString (lastValue "TZID" props).
Proof.
  unfold timezoneTzid, lastValue, named.
  induction props as [|prop props IH] using rev_ind; [reflexivity|].
  rewrite foldl_snoc, filter_app, IH.
  destruct (String.eqb_spec (name prop) "TZID") as [E|E].
  - rewrite filter_cons, decide_True, filter_nil, last_snoc by exact E.
    reflexivity.
  - rewrite filter_cons, decide_False, filter_nil, app_nil_r by exact E.
    reflexivity.
Qed.

Lemma timezoneTzid_bare (props : list Property) :
  timezoneTzid (bare <$> props) = timezoneTzid props.
Proof. unfold timezoneTzid. now rewrite foldl_fmap. Qed.

Lemma propertyLine_bare (props : list Property) :
  propertyLine <$> (bare <$> props) = propertyLine <$> props.
Proof. rewrite <- list_fmap_compose. reflexivity. Qed.

(** X23: the [tzid] of a timezone is the value of the last TZID property
    of the block, and the empty string when there is none; and
    [parseTimezoneBlock] reads nothing but the names and values of the
    properties of the block and of its sub-components: the parameters,
    and the components below the sub-components, leave no trace. *)
Theorem parseTimezoneBlock_reads (block : ComponentBlock) :
  tzid (parseTimezoneBlock block)
  = default EmptyString (lastValue "TZID" (properties block))
  /\ parseTimezoneBlock (shallow block) = parseTimezoneBlock block.
Proof.
  split; [apply timezoneTzid_last|].
  unfold parseTimezoneBlock, shallow.
  cbn [type properties subComponents].
  rewrite timezoneTzid_bare, propertyLine_bare, foldl_fmap.
  cbn [type properties]. f_equal. f_equal.
  generalize (propertyLine <$> properties block).
  induction (subComponents block) as [|sub subs IH]; intros lines;
    [reflexivity|].
  cbn [foldl]. now rewrite propertyLine_bare, IH.
Qed.

(** ** The block parser on the text of components *)

Lemma Component_induction (P : Component -> Prop) :
  (forall t items,
     Forall (fun item => match item with inl _ => True | inr c => P c end)
       items ->
     P (Comp t items)) ->
  forall c, P c.
Proof.
  intros H. fix IH 1. intros [t items]. apply H.
  induction items as [|[line|sub] rest IHrest]; constructor;
    solve [exact I | apply IH | exact IHrest].
Qed.

Lemma render_Comp (t : string) (items : list (string + Component)) :
  render (Comp t items) = ("BEGIN:" +:+ t) :: renderItems items ++ ["END:" +:+ t].
Proof. reflexivity. Qed.

Lemma parsed_Comp (t : string) (items : list (string + Component)) :
  parsed (Comp t items) = Block t (propertiesOf items) (parsedItems items).
Proof. reflexivity. Qed.

Lemma size_Comp (t : string) (items : list (string + Component)) :
  size (Comp t items) = S (itemsSize items).
Proof. reflexivity. Qed.

Lemma layout_Comp (t : string) (items : list (string + Component)) (m : nat) :
  layout (Comp t items) m
  = {| obj_type := t; obj_properties := propertiesOf items;
       obj_subComponents := childRefs (S m) items |}
      :: layoutItems items (S m).
Proof. reflexivity. Qed.

Lemma clean_Comp (t : string) (items : list (string + Component)) :
  clean (Comp t items) = String.eqb (Js.trimEnd t) t && cleanItems items.
Proof. reflexivity. Qed.

Lemma layout_length (c : Component) :
  forall m, length (layout c m) = size c.
Proof.
  induction c as [t items IH] using Component_induction. intros m.
  rewrite layout_Comp, size_Comp. cbn [length]. f_equal.
  generalize (S m). clear m.
  induction items as [|[line|sub] rest IHrest]; intros m.
  - reflexivity.
  - apply Forall_cons in IH as [_ IH]. now apply IHrest.
  - apply Forall_cons in IH as [Hsub IH].
    change (layoutItems (inr sub :: rest) m)
      with (layout sub m ++ layoutItems rest (m + size sub)).
    change (itemsSize (inr sub :: rest)) with (size sub + itemsSize rest).
    now rewrite length_app, Hsub, IHrest.
Qed.

Lemma layoutItems_length (items : list (string + Component)) (m : nat) :
  length (layoutItems items m) = itemsSize items.
Proof.
  revert m. induction items as [|[line|sub] rest IH]; intros m.
  - reflexivity.
  - apply IH.
  - change (layoutItems (inr sub :: rest) m)
      with (layout sub m ++ layoutItems rest (m + size sub)).
    change (itemsSize (inr sub :: rest)) with (size sub + itemsSize rest).
    now rewrite length_app, layout_length, IH.
Qed.

(** *** The loop without the console *)

Lemma blockLine_index (i j : nat) (line : string) (b : Builder) :
  returned (blockLine i line b) = returned (blockLine j line b).
Proof.
  unfold blockLine.
  destruct (Js.startsWith line "BEGIN:"); [reflexivity|].
  destruct (Js.startsWith line "END:").
  - case_bool_decide; [reflexivity|].
    destruct (getLastOnStack b) as [r|e]; [|reflexivity].
    cbn [mbind Completion_bind cbind_flip].
    now destruct (negb _).
  - now case_bool_decide.
Qed.

Lemma blockLoop_lineStep (debug : bool) (lines : list string) (i : nat)
    (b : Builder) :
  fst (blockLoop debug lines i b) = foldl lineStep b lines.
Proof.
  revert i b. induction lines as [|raw_line lines IH]; intros i b;
    cbn [blockLoop foldl].
  - reflexivity.
  - unfold lineStep at 2.
    destruct (Js.isEmpty raw_line); [apply IH|].
    destruct (Js.isEmpty (Js.trim raw_line)); [apply IH|].
    pose proof (blockLine_index i 0 (Js.trim raw_line) b) as Hindex.
    destruct (blockLine i (Js.trim raw_line) b) as [b1|e1];
      destruct (blockLine 0 (Js.trim raw_line) b) as [b2|e2];
      try discriminate Hindex.
    + injection Hindex as <-. apply IH.
    + rewrite fst_bind. apply IH.
Qed.

(** *** The three kinds of line *)

Lemma trimEnd_cons (c : ascii) (s : string) :
  Js.isWhiteSpace c = false ->
  Js.trimEnd (String c s) = String c (Js.trimEnd s).
Proof. intros H. cbn [Js.trimEnd]. now rewrite H. Qed.

Lemma trim_BEGIN (t : string) :
  Js.trimEnd t = t -> Js.trim ("BEGIN:" +:+ t) = "BEGIN:" +:+ t.
Proof.
  intros Ht. unfold Js.trim. cbn [String.append].
  change (Js.trimStart (String "B" ?s)) with (String "B" s).
  rewrite !trimEnd_cons by reflexivity. now rewrite Ht.
Qed.

Lemma trim_END (t : string) :
  Js.trimEnd t = t -> Js.trim ("END:" +:+ t) = "END:" +:+ t.
Proof.
  intros Ht. unfold Js.trim. cbn [String.append].
  change (Js.trimStart (String "E" ?s)) with (String "E" s).
  rewrite !trimEnd_cons by reflexivity. now rewrite Ht.
Qed.

Lemma alter_middle {A} (f : A -> A) (pre : list A) (o : A) (done : list A) :
  alter f (length pre) (pre ++ o :: done) = pre ++ f o :: done.
Proof.
  rewrite <- (Nat.add_0_r (length pre)) at 1. now rewrite alter_app_r.
Qed.

Lemma lineStep_BEGIN_root (t : string) (st : list BlockObject)
    (bl : list nat) :
  Js.trimEnd t = t ->
  lineStep {| store := st; blocks := bl; stack := [] |} ("BEGIN:" +:+ t)
  = {| store := st ++ [ {| obj_type := t; obj_properties := [];
                           obj_subComponents := [] |} ];
       blocks := bl ++ [length st]; stack := [length st] |}.
Proof.
  intros Ht. unfold lineStep. rewrite trim_BEGIN by exact Ht.
  cbn [String.append Js.isEmpty]. unfold blockLine.
  cbn [String.append Js.startsWith Ascii.eqb Bool.eqb andb].
  replace (Js.startsWith t EmptyString) with true by now destruct t.
  cbn [store blocks stack length]. rewrite bool_decide_eq_true_2 by reflexivity.
  reflexivity.
Qed.

Lemma lineStep_BEGIN_sub (t : string) (st : list BlockObject)
    (bl stk : list nat) (r : nat) :
  Js.trimEnd t = t -> r < length st ->
  lineStep {| store := st; blocks := bl; stack := stk ++ [r] |}
    ("BEGIN:" +:+ t)
  = {| store := alter (pushSubComponent (length st)) r st
                  ++ [ {| obj_type := t; obj_properties := [];
                          obj_subComponents := [] |} ];
       blocks := bl; stack := (stk ++ [r]) ++ [length st] |}.
Proof.
  intros Ht Hr. unfold lineStep. rewrite trim_BEGIN by exact Ht.
  cbn [String.append Js.isEmpty]. unfold blockLine.
  cbn [String.append Js.startsWith Ascii.eqb Bool.eqb andb].
  replace (Js.startsWith t EmptyString) with true by now destruct t.
  cbn [store blocks stack].
  rewrite bool_decide_eq_false_2 by (rewrite length_app; cbn; lia).
  unfold getLastOnStack. cbn [stack]. rewrite last_snoc.
  cbn [mbind Completion_bind cbind_flip store blocks stack].
  now rewrite alter_app_l by exact Hr.
Qed.

Lemma lineStep_END (t : string) (pre done : list BlockObject)
    (o : BlockObject) (bl stk : list nat) :
  Js.trimEnd t = t -> obj_type o = t ->
  lineStep {| store := pre ++ o :: done; blocks := bl;
              stack := stk ++ [length pre] |} ("END:" +:+ t)
  = {| store := pre ++ o :: done; blocks := bl; stack := stk |}.
Proof.
  intros Ht Ho. unfold lineStep. rewrite trim_END by exact Ht.
  cbn [String.append Js.isEmpty]. unfold blockLine.
  cbn [String.append Js.startsWith Ascii.eqb Bool.eqb andb].
  replace (Js.startsWith t EmptyString) with true by now destruct t.
  cbn [store blocks stack].
  rewrite bool_decide_eq_false_2 by (rewrite length_app; cbn; lia).
  unfold getLastOnStack. cbn [stack]. rewrite last_snoc.
  cbn [mbind Completion_bind cbind_flip store blocks stack].
  unfold typeOf. rewrite list_lookup_middle by reflexivity.
  rewrite Ho. unfold Js.substringFrom. cbn [Js.drop].
  rewrite String.eqb_refl. cbn [negb]. now rewrite removelast_last.
Qed.

Lemma lineStep_line (line : string) (pre done : list BlockObject)
    (o : BlockObject) (bl stk : list nat) :
  cleanLine line = true ->
  lineStep {| store := pre ++ o :: done; blocks := bl;
              stack := stk ++ [length pre] |} line
  = {| store :=
         pre ++ match returned (parsePropertyLine line) with
                | Some property => pushProperty property o
                | None => o
                end :: done;
       blocks := bl; stack := stk ++ [length pre] |}.
Proof.
  unfold cleanLine. intros H.
  apply andb_prop in H as [H HEND]. apply andb_prop in H as [H HBEGIN].
  apply andb_prop in H as [Htrim Hempty].
  apply String.eqb_eq in Htrim. apply negb_true_iff in Hempty, HBEGIN, HEND.
  unfold lineStep. rewrite Htrim, Hempty. unfold blockLine.
  rewrite HBEGIN, HEND. cbn [store blocks stack].
  rewrite bool_decide_eq_false_2 by (rewrite length_app; cbn; lia).
  destruct (parsePropertyLine line) as [property|e]; [|reflexivity].
  cbn [mbind Completion_bind cbind_flip returned].
  unfold getLastOnStack. cbn [stack]. rewrite last_snoc.
  cbn [mbind Completion_bind cbind_flip store blocks stack].
  now rewrite alter_middle.
Qed.

(** *** The lines of a component *)

Lemma fillObj_line (m : nat) (line : string)
    (rest : list (string + Component)) (o : BlockObject) :
  fillObj m (inl line :: rest) o
  = fillObj m rest
      match returned (parsePropertyLine line) with
      | Some property => pushProperty property o
      | None => o
      end.
Proof.
  unfold fillObj, propertiesOf. cbn [omap list_omap childRefs].
  destruct (returned (parsePropertyLine line)) as [property|];
    cbn [pushProperty obj_type obj_properties obj_subComponents];
    [|reflexivity].
  now rewrite <- app_assoc.
Qed.

Lemma fillObj_sub (m : nat) (sub : Component)
    (rest : list (string + Component)) (o : BlockObject) :
  fillObj m (inr sub :: rest) o
  = fillObj (m + size sub) rest (pushSubComponent m o).
Proof.
  unfold fillObj, propertiesOf. cbn [omap list_omap childRefs].
  cbn [pushSubComponent obj_type obj_properties obj_subComponents].
  now rewrite <- app_assoc.
Qed.

Lemma renderItems_steps (items : list (string + Component)) :
  Forall (fun item => match item with inl _ => True | inr c => attaches c end)
    items ->
  cleanItems items = true ->
  forall (pre done : list BlockObject) (o : BlockObject) (bl stk : list nat),
    foldl lineStep
      {| store := pre ++ o :: done; blocks := bl;
         stack := stk ++ [length pre] |}
      (renderItems items)
    = {| store :=
           pre ++ fillObj (S (length pre + length done)) items o
               :: done ++ layoutItems items (S (length pre + length done));
         blocks := bl; stack := stk ++ [length pre] |}.
Proof.
  induction items as [|[line|sub] rest IH]; intros Hsubs Hclean pre done o bl stk.
  - cbn [renderItems foldl layoutItems]. rewrite app_nil_r.
    unfold fillObj, propertiesOf. cbn [omap list_omap childRefs].
    rewrite !app_nil_r. now destruct o.
  - apply Forall_cons in Hsubs as [_ Hsubs].
    change (cleanItems (inl line :: rest))
      with (cleanLine line && cleanItems rest) in Hclean.
    apply andb_prop in Hclean as [Hline Hclean].
    change (renderItems (inl line :: rest)) with (line :: renderItems rest).
    cbn [foldl]. rewrite lineStep_line by exact Hline.
    rewrite IH by assumption. now rewrite fillObj_line.
  - apply Forall_cons in Hsubs as [Hsub Hsubs].
    change (cleanItems (inr sub :: rest))
      with (clean sub && cleanItems rest) in Hclean.
    apply andb_prop in Hclean as [_ Hclean].
    change (renderItems (inr sub :: rest))
      with (render sub ++ renderItems rest).
    rewrite foldl_app, Hsub.
    2:{ right. exists stk, (length pre). cbn [stack store]. split; [reflexivity|].
        rewrite length_app. cbn. lia. }
    unfold attach. cbn [stack store blocks].
    rewrite last_snoc, alter_middle.
    rewrite bool_decide_eq_false_2 by (rewrite length_app; cbn; lia).
    rewrite <- app_assoc. cbn [app].
    replace (length (pre ++ o :: done)) with (S (length pre + length done))
      by (rewrite length_app; cbn; lia).
    rewrite IH by assumption.
    rewrite length_app, layout_length.
    rewrite fillObj_sub.
    change (layoutItems (inr sub :: rest) ?m)
      with (layout sub m ++ layoutItems rest (m + size sub)).
    rewrite <- app_assoc.
    replace (S (length pre + (length done + size sub)))
      with (S (length pre + length done) + size sub) by lia.
    reflexivity.
Qed.

Lemma render_steps (c : Component) : clean c = true -> attaches c.
Proof.
  induction c as [t items IH] using Component_induction.
  rewrite clean_Comp. intros Hclean.
  apply andb_prop in Hclean as [Ht Hitems]. apply String.eqb_eq in Ht.
  assert (Hsubs :
    Forall (fun item => match item with inl _ => True | inr c => attaches c end)
      items).
  { clear Ht. induction items as [|[line|sub] rest IHrest].
    - constructor.
    - apply Forall_cons in IH as [_ IH].
      change (cleanItems (inl line :: rest))
        with (cleanLine line && cleanItems rest) in Hitems.
      apply andb_prop in Hitems as [_ Hitems]. constructor; auto.
    - apply Forall_cons in IH as [Hsub IH].
      change (cleanItems (inr sub :: rest))
        with (clean sub && cleanItems rest) in Hitems.
      apply andb_prop in Hitems as [Hc Hitems]. constructor; auto. }
  intros [st bl stk] Hstack. cbn [stack store] in Hstack.
  rewrite render_Comp. cbn [foldl]. rewrite foldl_app. cbn [foldl].
  unfold attach. cbn [stack store blocks]. rewrite layout_Comp.
  destruct Hstack as [->|(stk' & r & -> & Hr)].
  - rewrite lineStep_BEGIN_root by exact Ht.
    pose proof (renderItems_steps items Hsubs Hitems st []
                  {| obj_type := t; obj_properties := [];
                     obj_subComponents := [] |} (bl ++ [length st]) [])
      as Hsteps.
    cbn [app length] in Hsteps. rewrite Nat.add_0_r in Hsteps.
    rewrite Hsteps.
    pose proof (lineStep_END t st (layoutItems items (S (length st)))
                  (fillObj (S (length st)) items
                     {| obj_type := t; obj_properties := [];
                        obj_subComponents := [] |})
                  (bl ++ [length st]) [] Ht eq_refl) as Hend.
    cbn [app] in Hend. rewrite Hend.
    cbn [last length]. rewrite bool_decide_eq_true_2 by reflexivity.
    unfold fillObj. cbn [obj_type obj_properties obj_subComponents app].
    reflexivity.
  - rewrite lineStep_BEGIN_sub by assumption.
    rewrite last_snoc.
    rewrite bool_decide_eq_false_2 by (rewrite length_app; cbn; lia).
    pose proof (length_alter (pushSubComponent (length st)) st r) as Hlen.
    pose proof (renderItems_steps items Hsubs Hitems
                  (alter (pushSubComponent (length st)) r st) []
                  {| obj_type := t; obj_properties := [];
                     obj_subComponents := [] |} bl (stk' ++ [r]))
      as Hsteps.
    cbn [app length] in Hsteps. rewrite Nat.add_0_r, Hlen in Hsteps.
    rewrite Hsteps.
    pose proof (lineStep_END t (alter (pushSubComponent (length st)) r st)
                  (layoutItems items (S (length st)))
                  (fillObj (S (length st)) items
                     {| obj_type := t; obj_properties := [];
                        obj_subComponents := [] |})
                  bl (stk' ++ [r]) Ht eq_refl) as Hend.
    rewrite Hlen in Hend. rewrite Hend.
    unfold fillObj. cbn [obj_type obj_properties obj_subComponents app].
    reflexivity.
Qed.

(** *** The objects read back *)

Lemma readBlock_layout (c : Component) :
  forall (fuel : nat) (pre post : list BlockObject),
    size c <= fuel ->
    readBlock fuel (pre ++ layout c (length pre) ++ post) (length pre)
    = parsed c.
Proof.
  induction c as [t items IH] using Component_induction.
  intros fuel pre post Hfuel. rewrite size_Comp in Hfuel.
  destruct fuel as [|fuel]; [lia|]. apply le_S_n in Hfuel.
  rewrite layout_Comp, readBlock_S. cbn [app].
  rewrite list_lookup_middle by reflexivity.
  cbn [obj_type obj_properties obj_subComponents].
  rewrite parsed_Comp. f_equal.
  set (o := {| obj_type := t; obj_properties := propertiesOf items;
               obj_subComponents := childRefs (S (length pre)) items |}).
  change (pre ++ o :: layoutItems items (S (length pre)) ++ post)
    with (pre ++ [o] ++ layoutItems items (S (length pre)) ++ post).
  rewrite (app_assoc pre [o]).
  replace (S (length pre)) with (length (pre ++ [o]))
    by (rewrite length_app; cbn; lia).
  generalize (pre ++ [o]). clear pre o. intros pre. revert pre post.
  induction items as [|[line|sub] rest IHrest]; intros pre post.
  - reflexivity.
  - apply Forall_cons in IH as [_ IH]. now apply IHrest.
  - apply Forall_cons in IH as [Hsub IH].
    change (itemsSize (inr sub :: rest)) with (size sub + itemsSize rest)
      in Hfuel.
    change (layoutItems (inr sub :: rest) ?m)
      with (layout sub m ++ layoutItems rest (m + size sub)).
    cbn [childRefs fmap list_fmap].
    change (parsedItems (inr sub :: rest))
      with (parsed sub :: parsedItems rest).
    f_equal.
    + rewrite <- app_assoc. apply Hsub. lia.
    + rewrite <- app_assoc, (app_assoc pre).
      replace (length pre + size sub) with (length (pre ++ layout sub (length pre)))
        by (rewrite length_app, layout_length; reflexivity).
      apply IHrest; [exact IH | lia].
Qed.

Lemma roots_steps (cs : list Component) :
  forallb clean cs = true ->
  forall (st : list BlockObject) (bl : list nat),
    foldl lineStep {| store := st; blocks := bl; stack := [] |}
      (mjoin (render <$> cs))
    = {| store := st ++ layoutItems (inr <$> cs) (length st);
         blocks := bl ++ childRefs (length st) (inr <$> cs);
         stack := [] |}.
Proof.
  induction cs as [|c cs IH]; intros Hclean st bl.
  - cbn. now rewrite !app_nil_r.
  - cbn [forallb] in Hclean. apply andb_prop in Hclean as [Hc Hcs].
    cbn [fmap list_fmap mjoin list_join]. rewrite foldl_app.
    rewrite (render_steps c Hc) by now left.
    unfold attach. cbn [stack store blocks last length].
    rewrite bool_decide_eq_true_2 by reflexivity.
    rewrite IH by exact Hcs.
    rewrite length_app, layout_length.
    change (layoutItems (inr c :: ?r) ?m)
      with (layout c m ++ layoutItems r (m + size c)).
    cbn [childRefs]. now rewrite <- !app_assoc.
Qed.

Lemma readBlock_roots (cs : list Component) :
  forall (fuel : nat) (pre post : list BlockObject),
    itemsSize (inr <$> cs) <= fuel ->
    readBlock fuel (pre ++ layoutItems (inr <$> cs) (length pre) ++ post)
      <$> childRefs (length pre) (inr <$> cs)
    = parsed <$> cs.
Proof.
  induction cs as [|c cs IH]; intros fuel pre post Hfuel; [reflexivity|].
  cbn [fmap list_fmap childRefs]. cbn [fmap list_fmap] in Hfuel.
  change (itemsSize (inr c :: (inr <$> cs)))
    with (size c + itemsSize (inr <$> cs)) in Hfuel.
  change (layoutItems (inr c :: ?r) ?m)
    with (layout c m ++ layoutItems r (m + size c)).
  f_equal.
  - rewrite <- app_assoc. apply readBlock_layout. lia.
  - rewrite <- app_assoc, (app_assoc pre).
    replace (length pre + size c) with (length (pre ++ layout c (length pre)))
      by (rewrite length_app, layout_length; reflexivity).
    apply IH. lia.
Qed.

Lemma parseIntoBlocks_of_render (debug : bool) (cs : list Component) :
  forallb clean cs = true ->
  fst (parseIntoBlocks (mjoin (render <$> cs)) debug)
  = Return (parsed <$> cs).
Proof.
  intros Hclean. unfold parseIntoBlocks. rewrite fst_bind.
  rewrite blockLoop_lineStep. unfold builderInit.
  rewrite (roots_steps cs Hclean [] []).
  cbn [stack store blocks length app]. cbn [mret IO_ret fst].
  rewrite bool_decide_eq_false_2 by lia.
  rewrite layoutItems_length.
  pose proof (readBlock_roots cs (itemsSize (inr <$> cs)) [] []
                (le_n _)) as H.
  cbn [app length] in H. rewrite app_nil_r in H.
  change (Return (readBlock (itemsSize (inr <$> cs))
                    (layoutItems (inr <$> cs) 0)
                    <$> childRefs 0 (inr <$> cs))
          = Return (parsed <$> cs)).
  now rewrite H.
Qed.

(** X25: the text of components, each one a BEGIN line, its property
    lines and sub-components in any order, and the END line of its type,
    parses into exactly these components: [parseIntoBlocks] throws nothing
    and returns, for each component, the block of its type, with the
    properties of its lines that have a colon, in order, and the blocks of
    its sub-components, in order. *)
Theorem parseIntoBlocks_render (debug : bool) (cs : list Component) :
  forallb clean cs = true ->
  fst (parseIntoBlocks (mjoin (render <$> cs)) debug)
  = Return (parsed <$> cs).
Proof. apply parseIntoBlocks_of_render. Qed.

Lemma parseIntoBlocks_render_witness :
  fst (parseIntoBlocks
         [ "BEGIN:VCALENDAR"; "VERSION:2.0";
           "BEGIN:VEVENT"; "UID:a@b"; "no colon here";
           "BEGIN:VALARM"; "ACTION:DISPLAY"; "END:VALARM";
           "SUMMARY:Team Meeting"; "END:VEVENT";
           "PRODID:x"; "END:VCALENDAR" ] false)
  = Return
      [ Block "VCALENDAR"
          [ {| name := "VERSION"; parameters := ∅; value := "2.0" |};
            {| name := "PRODID"; parameters := ∅; value := "x" |} ]
          [ Block "VEVENT"
              [ {| name := "UID"; parameters := ∅; value := "a@b" |};
                {| name := "SUMMARY"; parameters := ∅;
                   value := "Team Meeting" |} ]
              [ Block "VALARM"
                  [ {| name := "ACTION"; parameters := ∅;
                       value := "DISPLAY" |} ]
                  [] ] ] ].
Proof.
  exact (parseIntoBlocks_render false
           [ Comp "VCALENDAR"
               [ inl "VERSION:2.0";
                 inr (Comp "VEVENT"
                        [ inl "UID:a@b"; inl "no colon here";
                          inr (Comp "VALARM" [inl "ACTION:DISPLAY"]);
                          inl "SUMMARY:Team Meeting" ]);
                 inl "PRODID:x" ] ]
           eq_refl).
Defined.

(** ** From the text to the calendars *)

(** X26: a document of components, each line a content line ended by
    CR LF or each by a bare LF, goes through the whole of [parseIcsData]
    without a critical error: the calendars are those of its VCALENDAR
    components on which [parseCalendarBlock] returns, the errors name the
    VCALENDAR components on which it throws, and the warnings the
    components of another type, in the order of the document. *)
Theorem parseIcsData_document (ext : Externals) (debug : bool)
    (eol : string) (cs : list Component) :
  eol = CRLF \/ eol = String Js.LF EmptyString ->
  forallb clean cs = true ->
  Forall contentLine (mjoin (render <$> cs)) ->
  exists r,
    fst (parseIcsData ext (terminated eol (mjoin (render <$> cs))) debug)
    = Return r
    /\ calendars r
       = omap (calendarOf ext debug) (ofType "VCALENDAR" (parsed <$> cs))
    /\ parseErrors (metadata r)
       = omap (calendarError ext debug) (ofType "VCALENDAR" (parsed <$> cs))
    /\ parseWarnings (metadata r)
       = unexpectedRoot
           <$> filter (fun b => type b <> "VCALENDAR") (parsed <$> cs).
Proof.
  intros Heol Hclean Hlines.
  apply parseIcsData_accounting.
  rewrite unfoldLines_of_terminated by assumption.
  now apply parseIntoBlocks_of_render.
Qed.

Lemma parseIcsData_document_witness :
  exists r,
    fst (parseIcsData plainExternals
           (terminated CRLF
              [ "BEGIN:VCALENDAR"; "VERSION:2.0"; "PRODID:x";
                "BEGIN:VEVENT"; "UID:a@b"; "DTSTAMP:20231201T120000Z";
                "END:VEVENT"; "END:VCALENDAR";
                "BEGIN:VTODO"; "END:VTODO" ])
           false)
    = Return r
    /\ (fun cal => length (IcsCalendar.events cal)) <$> calendars r = [1]
    /\ parseErrors (metadata r) = []
    /\ parseWarnings (metadata r) = ["Unexpected root component: VTODO"].
Proof.
  destruct (parseIcsData_document plainExternals false CRLF
              [ Comp "VCALENDAR"
                  [ inl "VERSION:2.0"; inl "PRODID:x";
                    inr (Comp "VEVENT"
                           [ inl "UID:a@b";
                             inl "DTSTAMP:20231201T120000Z" ]) ];
                Comp "VTODO" [] ])
    as (r & Hr & Hcalendars & Herrors & Hwarnings).
  - now left.
  - reflexivity.
  - repeat constructor; rewrite <- indexOf_None_iff; reflexivity.
  - exists r. split; [exact Hr|].
    rewrite Hcalendars, Herrors, Hwarnings.
    repeat split; vm_compute; reflexivity.
Defined.

(** ** The result and its schema *)

Lemma icsCalendarSchema_value (ext : Externals) (data : IcsCalendar.t) :
  icsCalendarSchema ext (icsCalendarValue data) = icsCalendarSchema ext data.
Proof.
  unfold icsCalendarSchema, icsCalendarValue.
  destruct data; cbn. do 4 f_equal. f_equal.
  induction events as [|event events IH]; [reflexivity|].
  cbn [fmap list_fmap forallb]. now rewrite icsEventSchema_value, IH.
Qed.

Lemma calendarOf_valid (ext : Externals) (debug : bool)
    (blocks : list ComponentBlock) :
  forallb (icsCalendarSchema ext) (omap (calendarOf ext debug) blocks) = true.
Proof.
  induction blocks as [|b blocks IH]; [reflexivity|].
  cbn [omap list_omap].
  fold (@omap list _ ComponentBlock IcsCalendar.t).
  unfold calendarOf at 1.
  destruct (fst (parseCalendarBlock ext b debug)) as [cal|] eqn:Hcal;
    cbn [returned]; [|exact IH].
  apply parseCalendarBlock_Return in Hcal as [-> Hvalid].
  cbn [forallb]. now rewrite icsCalendarSchema_value, Hvalid.
Qed.

Lemma count_valid (n : nat) : z_int_min 0 (count n) = true.
Proof. unfold z_int_min, count. apply Z.leb_le. lia. Qed.

Lemma forallb_z_string (l : list string) : forallb z_string l = true.
Proof. now induction l. Qed.

(** X27: whatever the input, [parseIcsData] returns, and what it returns
    passes [parsedIcsDataSchema]: every calendar passes the calendar
    schema again, and the counts are integers that are not negative. *)
Theorem parseIcsData_result_is_valid (ext : Externals) (data : string)
    (debug : bool) :
  parsedIcsDataSchema ext <$> returned (fst (parseIcsData ext data debug))
  = Some true.
Proof.
  destruct (fst (parseIntoBlocks (unfoldLines data) debug))
    as [rootBlocks|error] eqn:Hblocks.
  - destruct (parseIcsData_accounting ext debug data rootBlocks Hblocks)
      as (r & -> & Hcalendars & _).
    cbn [returned fmap option_fmap option_map]. f_equal.
    unfold parsedIcsDataSchema.
    rewrite Hcalendars, calendarOf_valid, !count_valid, !forallb_z_string.
    reflexivity.
  - unfold parseIcsData. rewrite !fst_bind, Hblocks. reflexivity.
Qed.
